(** * Postal-code dataset catalog: loader, validator and cache/retry hook

    A shallow embedding of [src/hooks/useDatasets.ts] (which holds the
    [useDatasets] hook and the [DataLoader] class with its validators)
    and of the types of [src/types/dataset.ts].

    Untyped input ([any]) is a [JsValue]; objects are finite maps from
    property names to values; the two [Set<string>] of the schema check
    are [gset string]; the module-level [Map] cache is a [gmap]. Mutable
    accumulators ([errors.push], React state setters) are threaded as
    explicit state. Asynchronous functions are cut at their [await]: the
    settled outcome of the awaited promise is an argument. Calls to
    [DataLogger] and [console] only write to the console and are left
    out. *)

From Stdlib Require Import ZArith QArith Qround Ascii String List DecimalString.
From stdpp Require Import gmap strings list.

Set Warnings "-register-all,-clear-no-such-hyp".
Local Open Scope Z_scope.

(** ** Strings

    A string is a sequence of code units; the model restricts them to
    the 8-bit range. *)

Module Str.

Definition dquote : string := String "034"%char "".

Definition of_nat (n : nat) : string := NilEmpty.string_of_uint (Nat.to_uint n).
Definition of_Z (z : Z) : string := NilZero.string_of_int (Z.to_int z).

Definition code (c : ascii) : N := N_of_ascii c.
Definition between (lo hi : N) (c : ascii) : bool :=
  (N.leb lo (code c) && N.leb (code c) hi)%bool.

Definition is_lower := between 97 122.
Definition is_upper := between 65 90.
Definition is_digit := between 48 57.

(** White space as [String.prototype.trim] sees it (TAB, LF, VT, FF, CR,
    SP and NBSP are the ones below 256). *)
Definition is_space (c : ascii) : bool :=
  (between 9 13 c || N.eqb (code c) 32 || N.eqb (code c) 160)%bool.

Fixpoint trimStart (s : string) : string :=
  match s with
  | String c s' => if is_space c then trimStart s' else s
  | EmptyString => EmptyString
  end.

Definition trimEnd (s : string) : string :=
  String.rev (trimStart (String.rev s)).

Definition trim (s : string) : string := trimEnd (trimStart s).

Definition lower_char (c : ascii) : ascii :=
  if (is_upper c || between 192 214 c || between 216 222 c)%bool
  then ascii_of_N (code c + 32) else c.

Fixpoint toLowerCase (s : string) : string :=
  match s with
  | String c s' => String (lower_char c) (toLowerCase s')
  | EmptyString => EmptyString
  end.

(** [s.includes(sub)] *)
Fixpoint includes (s sub : string) : bool :=
  (String.prefix sub s ||
   match s with
   | String _ s' => includes s' sub
   | EmptyString => false
   end)%bool.

(** [s.endsWith(suffix)] *)
Fixpoint endsWith (s suffix : string) : bool :=
  (String.eqb s suffix ||
   match s with
   | String _ s' => endsWith s' suffix
   | EmptyString => false
   end)%bool.

(** [parts.join(sep)] *)
Fixpoint join (sep : string) (parts : list string) : string :=
  match parts with
  | [] => EmptyString
  | [p] => p
  | p :: rest => p +:+ sep +:+ join sep rest
  end.

Definition length_Z (s : string) : Z := Z.of_nat (String.length s).

End Str.

(** ** Regular expressions

    The five literals of the source, as terms of a small regular
    expression type matched by derivatives. A literal without [^] or [$]
    may start or end anywhere in the subject. *)

Module RegExp.

Inductive regex : Type :=
| Void
| Eps
| Class (p : ascii -> bool)
| Seq (r1 r2 : regex)
| Alt (r1 r2 : regex)
| Star (r : regex).

Fixpoint nullable (r : regex) : bool :=
  match r with
  | Void => false
  | Eps => true
  | Class _ => false
  | Seq r1 r2 => nullable r1 && nullable r2
  | Alt r1 r2 => nullable r1 || nullable r2
  | Star _ => true
  end.

Fixpoint deriv (c : ascii) (r : regex) : regex :=
  match r with
  | Void => Void
  | Eps => Void
  | Class p => if p c then Eps else Void
  | Seq r1 r2 =>
      if nullable r1 then Alt (Seq (deriv c r1) r2) (deriv c r2)
      else Seq (deriv c r1) r2
  | Alt r1 r2 => Alt (deriv c r1) (deriv c r2)
  | Star r1 => Seq (deriv c r1) (Star r1)
  end.

Fixpoint matches (r : regex) (s : string) : bool :=
  match s with
  | EmptyString => nullable r
  | String c s' => matches (deriv c r) s'
  end.

Definition Plus (r : regex) : regex := Seq r (Star r).
Definition Chr (c : ascii) : regex := Class (Ascii.eqb c).
Definition Any : regex := Class (fun _ => true).
Fixpoint Times (n : nat) (r : regex) : regex :=
  match n with
  | O => Eps
  | S n' => Seq r (Times n' r)
  end.

Record t : Type := mk {
  anchoredStart : bool;
  body : regex;
  anchoredEnd : bool
}.

(** [re.test(s)] *)
Definition test (re : t) (s : string) : bool :=
  matches
    (Seq (if anchoredStart re then Eps else Star Any)
         (Seq (body re) (if anchoredEnd re then Eps else Star Any)))
    s.

Definition digit : regex := Class Str.is_digit.

(** [/^[a-z0-9-]+$/] *)
Definition id_pattern : t :=
  mk true
     (Plus (Class (fun c => Str.is_lower c || Str.is_digit c || Ascii.eqb c "-")))
     true.

(** [/^[A-Z]{2}$/] *)
Definition countryCode_pattern : t := mk true (Times 2 (Class Str.is_upper)) true.

(** [/\.csv$/] *)
Definition csv_pattern : t :=
  mk false (Seq (Chr ".") (Seq (Chr "c") (Seq (Chr "s") (Chr "v")))) true.

(** [/^\d{4}-\d{2}-\d{2}$/] *)
Definition date_pattern : t :=
  mk true
     (Seq (Times 4 digit) (Seq (Chr "-") (Seq (Times 2 digit) (Seq (Chr "-") (Times 2 digit)))))
     true.

(** [/^\d+\.\d+\.\d+$/] *)
Definition semver_pattern : t :=
  mk true
     (Seq (Plus digit) (Seq (Chr ".") (Seq (Plus digit) (Seq (Chr ".") (Plus digit)))))
     true.

End RegExp.

(** ** Numbers

    A number is a rational or one of the three special values. The
    validators only compare numbers with integer constants, ask whether
    they are integers and print them, so the rounding of binary floating
    point plays no part there. The hook computes with numbers once, for
    the retry delay; [Num.round] gives the double an exact result is
    rounded to, and [Num.mul] and [Num.div] round with it. The sign of a
    zero is not kept. *)

Inductive number : Type :=
| Finite (q : Q)
| NaN
| PosInfinity
| NegInfinity.

Module Num.

Definition of_Z (z : Z) : number := Finite (inject_Z z).
Definition of_nat (n : nat) : number := of_Z (Z.of_nat n).

(** [Number.isInteger(n)] *)
Definition isInteger (n : number) : bool :=
  match n with
  | Finite q => Pos.eqb (Qden (Qred q)) 1
  | _ => false
  end.

(** [a < b], [a <= b], [a > b], [a !== b] on numbers: any comparison with
    [NaN] is false, and [NaN !== b] is true. *)
Definition lt (a b : number) : bool :=
  match a, b with
  | NaN, _ | _, NaN => false
  | Finite x, Finite y => negb (Qle_bool y x)
  | NegInfinity, NegInfinity => false
  | NegInfinity, _ => true
  | _, PosInfinity => match a with PosInfinity => false | _ => true end
  | _, _ => false
  end.

Definition le (a b : number) : bool :=
  match a, b with
  | NaN, _ | _, NaN => false
  | Finite x, Finite y => Qle_bool x y
  | NegInfinity, _ => true
  | _, PosInfinity => true
  | _, _ => false
  end.

Definition gt (a b : number) : bool := lt b a.

Definition strict_eq (a b : number) : bool :=
  match a, b with
  | Finite x, Finite y => Qeq_bool x y
  | PosInfinity, PosInfinity => true
  | NegInfinity, NegInfinity => true
  | _, _ => false
  end.

(** The digits after the decimal point of [r / d], for [0 <= r < d]. *)
Fixpoint fraction_digits (fuel : nat) (r d : Z) : string :=
  match fuel with
  | O => EmptyString
  | S fuel' =>
      if r =? 0 then EmptyString
      else Str.of_Z (10 * r / d) +:+ fraction_digits fuel' (10 * r mod d) d
  end.

(** [String(n)]: exact on integers and on the special values; a fraction
    is written in plain positional notation, which is what the language
    prints for magnitudes between 1e-6 and 1e21. *)
Definition toString (n : number) : string :=
  match n with
  | NaN => "NaN"
  | PosInfinity => "Infinity"
  | NegInfinity => "-Infinity"
  | Finite q =>
      let q' := Qred q in
      let num := Qnum q' in
      let den := Zpos (Qden q') in
      if den =? 1 then Str.of_Z num
      else (if num <? 0 then "-" else EmptyString)
           +:+ Str.of_Z (Z.abs num / den) +:+ "."
           +:+ fraction_digits 24 (Z.abs num mod den) den
  end.

(** The [e] with [2^e <= n / d < 2^(e+1)], for positive [n] and [d]. *)
Definition floor_log2 (n d : Z) : Z :=
  let e := Z.log2 n - Z.log2 d in
  if (if 0 <=? e then d * 2 ^ e <=? n else d <=? n * 2 ^ (- e)) then e else e - 1.

(** The double nearest to [q], a tie going to the even significand. With
    [2^e] the power of two at or below [|q|], the doubles around [q] are
    the multiples of [2^(e-52)], and of [2^-1074] when [e] is below
    -1022; what is rounded to [2^1024] or beyond is an infinity. *)
Definition round (q : Q) : number :=
  let n := Qnum q in
  let d := Zpos (Qden q) in
  if n =? 0 then Finite 0
  else
    let a := Z.abs n in
    let p := Z.max (floor_log2 a d) (-1022) - 52 in
    let num := if 0 <=? p then a else a * 2 ^ (- p) in
    let den := if 0 <=? p then d * 2 ^ p else d in
    let i := num / den in
    let r := num mod den in
    let i := if 2 * r <? den then i
             else if den <? 2 * r then i + 1
             else if Z.even i then i else i + 1 in
    if ((0 <=? p) && (2 ^ 1024 <=? i * 2 ^ p))%bool
    then (if 0 <? n then PosInfinity else NegInfinity)
    else Finite (if 0 <=? p then inject_Z (Z.sgn n * i * 2 ^ p)
                 else Qred (Z.sgn n * i # Z.to_pos (2 ^ (- p)))).

(** [a * b] *)
Definition mul (a b : number) : number :=
  match a, b with
  | NaN, _ | _, NaN => NaN
  | Finite x, Finite y => round (x * y)
  | Finite x, PosInfinity | PosInfinity, Finite x =>
      if Qeq_bool x 0 then NaN else if Qle_bool 0 x then PosInfinity else NegInfinity
  | Finite x, NegInfinity | NegInfinity, Finite x =>
      if Qeq_bool x 0 then NaN else if Qle_bool 0 x then NegInfinity else PosInfinity
  | PosInfinity, PosInfinity | NegInfinity, NegInfinity => PosInfinity
  | PosInfinity, NegInfinity | NegInfinity, PosInfinity => NegInfinity
  end.

(** [a / b]; a zero divisor is taken as [+0]. *)
Definition div (a b : number) : number :=
  match a, b with
  | NaN, _ | _, NaN => NaN
  | Finite x, Finite y =>
      if Qeq_bool y 0 then
        if Qeq_bool x 0 then NaN else if Qle_bool 0 x then PosInfinity else NegInfinity
      else round (x / y)
  | Finite _, _ => Finite 0
  | PosInfinity, Finite y => if Qle_bool 0 y then PosInfinity else NegInfinity
  | NegInfinity, Finite y => if Qle_bool 0 y then NegInfinity else PosInfinity
  | _, _ => NaN
  end.

End Num.

Module Math.

(** [Math.pow(2, e)] for an integer [e]: the exact power inside the range
    of the doubles, [Infinity] from [2^1024] on and 0 below [2^-1074]. *)
Definition pow2 (e : Z) : number :=
  if 1024 <=? e then PosInfinity
  else if e <? -1074 then Finite 0
  else if 0 <=? e then Finite (inject_Z (2 ^ e))
  else Finite (1 # Z.to_pos (2 ^ (- e))).

(** [Math.ceil(x)] *)
Definition ceil (x : number) : number :=
  match x with
  | Finite q => Finite (inject_Z (Qceiling q))
  | _ => x
  end.

End Math.

(** ** Values *)

Inductive JsValue : Type :=
| JUndefined
| JNull
| JBool (b : bool)
| JNumber (n : number)
| JString (s : string)
| JArray (elements : list JsValue)
| JObject (properties : gmap string JsValue).

Module Js.

(** [typeof v] *)
Definition typeof (v : JsValue) : string :=
  match v with
  | JUndefined => "undefined"
  | JNull => "object"
  | JBool _ => "boolean"
  | JNumber _ => "number"
  | JString _ => "string"
  | JArray _ => "object"
  | JObject _ => "object"
  end.

(** Truthiness, as [!v], [v && ...] and [v || ...] test it. *)
Definition truthy (v : JsValue) : bool :=
  match v with
  | JUndefined | JNull => false
  | JBool b => b
  | JNumber (Finite q) => negb (Qeq_bool q 0)
  | JNumber NaN => false
  | JNumber _ => true
  | JString s => negb (String.eqb s EmptyString)
  | JArray _ | JObject _ => true
  end.

(** [v === undefined || v === null] *)
Definition nullish (v : JsValue) : bool :=
  match v with
  | JUndefined | JNull => true
  | _ => false
  end.

(** [Array.isArray(v)] *)
Definition isArray (v : JsValue) : bool :=
  match v with
  | JArray _ => true
  | _ => false
  end.

(** [v[k]] and [v.k] for the property names the code reads (none of
    them an array index). Only values that passed the
    [typeof v === 'object'] test of the callers are read. *)
Definition get (v : JsValue) (k : string) : JsValue :=
  match v with
  | JObject properties => default JUndefined (properties !! k)
  | JArray elements =>
      if String.eqb k "length" then JNumber (Num.of_nat (length elements))
      else JUndefined
  | _ => JUndefined
  end.

(** An own property, as [Object.prototype.hasOwnProperty] answers. *)
Definition hasOwn (v : JsValue) (k : string) : bool :=
  match v with
  | JObject properties => bool_decide (is_Some (properties !! k))
  | JArray _ => String.eqb k "length"
  | _ => false
  end.

(** [String(v)] *)
Fixpoint toString (v : JsValue) : string :=
  match v with
  | JUndefined => "undefined"
  | JNull => "null"
  | JBool true => "true"
  | JBool false => "false"
  | JNumber n => Num.toString n
  | JString s => s
  | JArray elements =>
      Str.join ","
        (List.map (fun e => if nullish e then EmptyString else toString e) elements)
  | JObject _ => "[object Object]"
  end.

Definition object (fields : list (string * JsValue)) : JsValue :=
  JObject (list_to_map fields).

End Js.

(** ** Validation results *)

Record ValidationError : Type := {
  field : string;
  value : JsValue;
  message : string;
  path : option string
}.

Record ValidationResult : Type := {
  isValid : bool;
  errors : list ValidationError;
  warnings : list ValidationError
}.

(** The two arrays a validator pushes to, [errors] first. *)
Definition Report : Type := list ValidationError * list ValidationError.

Definition push_error (e : ValidationError) (r : Report) : Report := (r.1 ++ [e], r.2).
Definition push_warning (w : ValidationError) (r : Report) : Report := (r.1, r.2 ++ [w]).
Definition push_errors (es : list ValidationError) (r : Report) : Report := (r.1 ++ es, r.2).
Definition push_warnings (ws : list ValidationError) (r : Report) : Report := (r.1, r.2 ++ ws).

(** [{ isValid: errors.length === 0, errors, warnings }] *)
Definition verdict (r : Report) : ValidationResult :=
  {| isValid := Nat.eqb (length r.1) 0; errors := r.1; warnings := r.2 |}.

(** ** The record validator *)

(** One entry of the [fieldValidations] table. *)
Record FieldValidation : Type := {
  v_field : string;
  v_required : bool;
  v_type : string;
  v_pattern : option RegExp.t;
  v_patternMessage : option string;
  v_minLength : option nat;
  v_maxLength : option nat
}.

Definition fieldValidations : list FieldValidation :=
  [ {| v_field := "id"; v_required := true; v_type := "string";
       v_pattern := Some RegExp.id_pattern;
       v_patternMessage := Some "ID must contain only lowercase letters, numbers, and hyphens";
       v_minLength := None; v_maxLength := None |};
    {| v_field := "countryName"; v_required := true; v_type := "string";
       v_pattern := None; v_patternMessage := None;
       v_minLength := Some 2%nat; v_maxLength := Some 100%nat |};
    {| v_field := "countryCode"; v_required := true; v_type := "string";
       v_pattern := Some RegExp.countryCode_pattern;
       v_patternMessage := Some "Country code must be exactly 2 uppercase letters";
       v_minLength := None; v_maxLength := None |};
    {| v_field := "region"; v_required := true; v_type := "string";
       v_pattern := None; v_patternMessage := None;
       v_minLength := Some 2%nat; v_maxLength := Some 50%nat |};
    {| v_field := "sampleFileName"; v_required := true; v_type := "string";
       v_pattern := Some RegExp.csv_pattern;
       v_patternMessage := Some "Sample filename must end with .csv";
       v_minLength := None; v_maxLength := None |} ].

Definition quoted (s : string) : string := Str.dquote +:+ s +:+ Str.dquote.

(** [validation.minLength && stringValue.length < validation.minLength]:
    an absent bound and the bound 0 are both falsy. *)
Definition below_min (bound : option nat) (s : string) : option nat :=
  match bound with
  | Some m => if (Nat.ltb 0 m && Nat.ltb (String.length s) m)%bool then Some m else None
  | None => None
  end.

Definition above_max (bound : option nat) (s : string) : option nat :=
  match bound with
  | Some m => if (Nat.ltb 0 m && Nat.ltb m (String.length s))%bool then Some m else None
  | None => None
  end.

(** [validation.patternMessage || fallback]: an absent message and the
    empty string are both falsy. *)
Definition or_else (m : option string) (fallback : string) : string :=
  match m with
  | Some s => if String.eqb s EmptyString then fallback else s
  | None => fallback
  end.

(** [validation.pattern && !validation.pattern.test(stringValue)] *)
Definition pattern_fails (pattern : option RegExp.t) (s : string) : bool :=
  match pattern with
  | Some re => negb (RegExp.test re s)
  | None => false
  end.

(** The checks on a value whose [typeof] is ['string']. *)
Definition validate_string (validation : FieldValidation) (value : JsValue)
    (fieldPath stringValue : string) (r : Report) : Report :=
  let name := v_field validation in
  if String.eqb (Str.trim stringValue) EmptyString then
    push_error {| field := name; value := value;
                  message := "Field " +:+ quoted name +:+ " cannot be empty";
                  path := Some fieldPath |} r
  else
    let r :=
      match below_min (v_minLength validation) stringValue with
      | Some m =>
          push_error {| field := name; value := value;
                        message := "Field " +:+ quoted name +:+ " must be at least "
                                   +:+ Str.of_nat m +:+ " characters";
                        path := Some fieldPath |} r
      | None => r
      end in
    let r :=
      match above_max (v_maxLength validation) stringValue with
      | Some m =>
          push_warning {| field := name; value := value;
                          message := "Field " +:+ quoted name
                                     +:+ " is longer than recommended "
                                     +:+ Str.of_nat m +:+ " characters";
                          path := Some fieldPath |} r
      | None => r
      end in
    if pattern_fails (v_pattern validation) stringValue then
      push_error {| field := name; value := value;
                    message := or_else (v_patternMessage validation)
                                 ("Field " +:+ quoted name
                                  +:+ " does not match required pattern");
                    path := Some fieldPath |} r
    else r.

(** One turn of the loop over [fieldValidations]; a [continue] ends the
    turn with the report as it stands. *)
Definition validate_field (dataset : JsValue) (path : string)
    (validation : FieldValidation) (r : Report) : Report :=
  let name := v_field validation in
  let value := Js.get dataset name in
  let fieldPath := path +:+ "." +:+ name in
  if (v_required validation && Js.nullish value)%bool then
    push_error {| field := name; value := value;
                  message := "Required field " +:+ quoted name +:+ " is missing";
                  path := Some fieldPath |} r
  else if negb (Js.nullish value) then
    if negb (String.eqb (Js.typeof value) (v_type validation)) then
      push_error {| field := name; value := value;
                    message := "Field " +:+ quoted name +:+ " must be of type "
                               +:+ v_type validation;
                    path := Some fieldPath |} r
    else if String.eqb (v_type validation) "string" then
      match value with
      | JString stringValue => validate_string validation value fieldPath stringValue r
      | _ => r
      end
    else r
  else r.

Definition validate_postalCodeCount (dataset : JsValue) (path : string) (r : Report) : Report :=
  let postalCodeCount := Js.get dataset "postalCodeCount" in
  let at_path := Some (path +:+ ".postalCodeCount") in
  if Js.nullish postalCodeCount then
    push_error {| field := "postalCodeCount"; value := postalCodeCount;
                  message := "Required field " +:+ quoted "postalCodeCount" +:+ " is missing";
                  path := at_path |} r
  else
    match postalCodeCount with
    | JNumber n =>
        if negb (Num.isInteger n) then
          push_error {| field := "postalCodeCount"; value := postalCodeCount;
                        message := "Field " +:+ quoted "postalCodeCount" +:+ " must be an integer";
                        path := at_path |} r
        else if Num.le n (Num.of_Z 0) then
          push_error {| field := "postalCodeCount"; value := postalCodeCount;
                        message := "Field " +:+ quoted "postalCodeCount"
                                   +:+ " must be greater than 0";
                        path := at_path |} r
        else if Num.gt n (Num.of_Z 10000000) then
          push_warning {| field := "postalCodeCount"; value := postalCodeCount;
                          message := "Field " +:+ quoted "postalCodeCount"
                                     +:+ " seems unusually high (>10M)";
                          path := at_path |} r
        else r
    | _ =>
        push_error {| field := "postalCodeCount"; value := postalCodeCount;
                      message := "Field " +:+ quoted "postalCodeCount" +:+ " must be a number";
                      path := at_path |} r
    end.

Definition validStatuses : list string := ["active"; "inactive"; "coming-soon"].

Definition validate_status (dataset : JsValue) (path : string) (r : Report) : Report :=
  let status := Js.get dataset "status" in
  let at_path := Some (path +:+ ".status") in
  if Js.nullish status then
    push_error {| field := "status"; value := status;
                  message := "Required field " +:+ quoted "status" +:+ " is missing";
                  path := at_path |} r
  else
    match status with
    | JString s =>
        if negb (existsb (String.eqb s) validStatuses) then
          push_error {| field := "status"; value := status;
                        message := "Field " +:+ quoted "status" +:+ " must be one of: "
                                   +:+ Str.join ", " validStatuses;
                        path := at_path |} r
        else r
    | _ =>
        push_error {| field := "status"; value := status;
                      message := "Field " +:+ quoted "status" +:+ " must be a string";
                      path := at_path |} r
    end.

(** [!dataset || typeof dataset !== 'object'] *)
Definition not_an_object (v : JsValue) : bool :=
  (negb (Js.truthy v) || negb (String.eqb (Js.typeof v) "object"))%bool.

(** [DataLoader.validateDatasetDetailed(dataset, path)] *)
Definition validateDatasetDetailed (dataset : JsValue) (path : string) : ValidationResult :=
  if not_an_object dataset then
    {| isValid := false;
       errors := [ {| field := path; value := dataset;
                      message := "Dataset must be a non-null object";
                      path := Some path |} ];
       warnings := [] |}
  else
    let r := fold_left (fun r validation => validate_field dataset path validation r)
                       fieldValidations ([], []) in
    let r := validate_postalCodeCount dataset path r in
    let r := validate_status dataset path r in
    verdict r.

(** [DataLoader.validateDataset(dataset)]: the path defaults to ['dataset']. *)
Definition validateDataset (dataset : JsValue) : bool :=
  isValid (validateDatasetDetailed dataset "dataset").

(** [DataLoader.getFallbackDatasets()] *)
Definition getFallbackDatasets : list JsValue :=
  [ Js.object
      [ ("id", JString "us");
        ("countryName", JString "United States");
        ("countryCode", JString "US");
        ("postalCodeCount", JNumber (Num.of_Z 41692));
        ("region", JString "North America");
        ("status", JString "active");
        ("sampleFileName", JString "us-postal-codes-sample.csv") ] ].

(** ** Errors and completions *)

Inductive DataLoaderErrorCode : Type :=
| NETWORK_ERROR
| PARSE_ERROR
| VALIDATION_ERROR
| FILE_NOT_FOUND
| PERMISSION_ERROR
| TIMEOUT_ERROR
| UNKNOWN_ERROR.

Definition ERROR_MESSAGES (code : DataLoaderErrorCode) : string :=
  match code with
  | NETWORK_ERROR =>
      "Unable to connect to the server. Please check your internet connection and try again."
  | PARSE_ERROR =>
      "The data format is invalid. Please contact support if this problem persists."
  | VALIDATION_ERROR => "Some data entries are invalid and have been filtered out."
  | FILE_NOT_FOUND => "The requested file could not be found."
  | PERMISSION_ERROR => "You do not have permission to access this resource."
  | TIMEOUT_ERROR => "The request timed out. Please try again."
  | UNKNOWN_ERROR => "An unexpected error occurred. Please try again or contact support."
  end.

(** Instances of [Error]: the built-in ones ([new Error(message)], a
    [TypeError] of the runtime) and the [DataLoaderError] subclass. *)
Inductive JsError : Type :=
| Error (message : string)
| DataLoaderError (message : string) (cause : option JsError)
    (code : option DataLoaderErrorCode) (recoverable : bool).

Definition error_message (e : JsError) : string :=
  match e with
  | Error m => m
  | DataLoaderError m _ _ _ => m
  end.

(** Anything a [throw] or a rejected promise can carry. *)
Inductive Thrown : Type :=
| ThrowError (e : JsError)
| ThrowValue (v : JsValue).

(** The [recoverable] property of a thrown [DataLoaderError]. *)
Definition recoverable_flag (t : Thrown) : option bool :=
  match t with
  | ThrowError (DataLoaderError _ _ _ recoverable) => Some recoverable
  | _ => None
  end.

Definition error_code (t : Thrown) : option DataLoaderErrorCode :=
  match t with
  | ThrowError (DataLoaderError _ _ code _) => code
  | _ => None
  end.

(** How a call ends; for an [async] function, how its promise settles. *)
Inductive Completion (A : Type) : Type :=
| Normal (a : A)
| Throw (t : Thrown).
Arguments Normal {A} a.
Arguments Throw {A} t.

#[global] Instance Completion_ret : MRet Completion := fun A a => Normal a.

#[global] Instance Completion_bind : MBind Completion := fun A B k c =>
  match c with
  | Normal a => k a
  | Throw t => Throw t
  end.

(** [try { c } catch (error) { handler }] *)
Definition try_catch {A : Type} (c : Completion A) (handler : Thrown -> Completion A)
    : Completion A :=
  match c with
  | Normal a => Normal a
  | Throw t => handler t
  end.

(** A promise the caller awaits: when it settles (never, for [None]) and
    how. Times are milliseconds since the call. *)
Record Pending (A : Type) : Type := {
  settles_after : option Z;
  outcome : Completion A
}.
Arguments settles_after {A} p.
Arguments outcome {A} p.

(** [Promise.race([p, new Promise((_, reject) => setTimeout(() =>
    reject(new Error(message)), ms))])]. A promise settling at the very
    instant the timer expires counts as late. *)
Definition race_timeout {A : Type} (p : Pending A) (ms : Z) (message : string)
    : Completion A :=
  match settles_after p with
  | Some t => if t <? ms then outcome p else Throw (ThrowError (Error message))
  | None => Throw (ThrowError (Error message))
  end.

(** ** The collection validator *)

(** [data.hasOwnProperty(k)]: the method is found on the prototype unless
    the document has a property of that name, whose value no document
    can make callable. *)
Definition call_hasOwnProperty (data : JsValue) (k : string) : Completion bool :=
  if Js.hasOwn data "hasOwnProperty"
  then Throw (ThrowError (Error "data.hasOwnProperty is not a function"))
  else Normal (Js.hasOwn data k).

Definition collection_error (name : string) (v : JsValue) (msg : string) : ValidationError :=
  {| field := name; value := v; message := msg; path := None |}.

Definition validate_datasets_property (data : JsValue) (has : bool) (r : Report) : Report :=
  if negb has then
    push_error (collection_error "datasets" JUndefined
                  ("Missing required property " +:+ quoted "datasets")) r
  else
    match Js.get data "datasets" with
    | JArray elements =>
        if Nat.eqb (length elements) 0 then
          push_warning (collection_error "datasets" (JArray elements)
                          "Datasets array is empty") r
        else r
    | datasets =>
        push_error (collection_error "datasets" datasets
                      ("Property " +:+ quoted "datasets" +:+ " must be an array")) r
    end.

Definition validate_lastUpdated (metadata : JsValue) (r : Report) : Report :=
  match Js.get metadata "lastUpdated" with
  | JString s =>
      if negb (RegExp.test RegExp.date_pattern s) then
        push_warning (collection_error "metadata.lastUpdated" (JString s)
                        "lastUpdated should be in YYYY-MM-DD format") r
      else r
  | lastUpdated =>
      push_error (collection_error "metadata.lastUpdated" lastUpdated
                    "lastUpdated must be a string") r
  end.

Definition validate_version (metadata : JsValue) (r : Report) : Report :=
  match Js.get metadata "version" with
  | JString s =>
      if negb (RegExp.test RegExp.semver_pattern s) then
        push_warning (collection_error "metadata.version" (JString s)
                        "version should follow semantic versioning (x.y.z)") r
      else r
  | version =>
      push_error (collection_error "metadata.version" version
                    "version must be a string") r
  end.

Definition validate_totalCountries (data metadata : JsValue) (r : Report) : Report :=
  match Js.get metadata "totalCountries" with
  | JNumber n =>
      if Num.lt n (Num.of_Z 0) then
        push_error (collection_error "metadata.totalCountries" (JNumber n)
                      "totalCountries must be non-negative") r
      else
        match Js.get data "datasets" with
        | JArray elements =>
            if negb (Num.strict_eq n (Num.of_nat (length elements))) then
              push_warning
                (collection_error "metadata.totalCountries" (JNumber n)
                   ("totalCountries (" +:+ Num.toString n
                    +:+ ") does not match actual datasets length ("
                    +:+ Str.of_nat (length elements) +:+ ")")) r
            else r
        | _ => r
        end
  | totalCountries =>
      push_error (collection_error "metadata.totalCountries" totalCountries
                    "totalCountries must be a number") r
  end.

Definition validate_metadata_property (data : JsValue) (has : bool) (r : Report) : Report :=
  if negb has then
    push_error (collection_error "metadata" JUndefined
                  ("Missing required property " +:+ quoted "metadata")) r
  else
    let metadata := Js.get data "metadata" in
    if not_an_object metadata then
      push_error (collection_error "metadata" metadata "Metadata must be an object") r
    else
      let r := validate_lastUpdated metadata r in
      let r := validate_version metadata r in
      validate_totalCountries data metadata r.

(** [DataLoader.validateDatasetCollectionDetailed(data)] *)
Definition validateDatasetCollectionDetailed (data : JsValue) : Completion ValidationResult :=
  if not_an_object data then
    Normal {| isValid := false;
              errors := [ collection_error "root" data "Data must be a non-null object" ];
              warnings := [] |}
  else
    has_datasets ← call_hasOwnProperty data "datasets";
    let r := validate_datasets_property data has_datasets ([], []) in
    has_metadata ← call_hasOwnProperty data "metadata";
    let r := validate_metadata_property data has_metadata r in
    Normal (verdict r).

(** [DataLoader.validateDatasetCollection(data)] *)
Definition validateDatasetCollection (data : JsValue) : Completion bool :=
  v ← validateDatasetCollectionDetailed data; Normal (isValid v).

(** ** Schema validation of a whole document *)

Record SchemaState : Type := {
  report : Report;
  datasetIds : gset string;
  countryCodes : gset string
}.

Definition duplicate_id (i : nat) (id : string) : ValidationError :=
  {| field := "id"; value := JString id;
     message := "Duplicate dataset ID " +:+ quoted id +:+ " found";
     path := Some ("datasets[" +:+ Str.of_nat i +:+ "].id") |}.

Definition duplicate_countryCode (i : nat) (cc : string) : ValidationError :=
  {| field := "countryCode"; value := JString cc;
     message := "Duplicate country code " +:+ quoted cc +:+ " found";
     path := Some ("datasets[" +:+ Str.of_nat i +:+ "].countryCode") |}.

(** The body of the loop of [validateJsonSchema] at index [i]. A record
    that is valid has strings for [id] and [countryCode], so the sets
    only ever hold strings. *)
Definition schema_step (i : nat) (dataset : JsValue) (st : SchemaState) : SchemaState :=
  let datasetValidation :=
    validateDatasetDetailed dataset ("datasets[" +:+ Str.of_nat i +:+ "]") in
  let r := push_errors (errors datasetValidation) (report st) in
  let r := push_warnings (warnings datasetValidation) r in
  let st := {| report := r; datasetIds := datasetIds st; countryCodes := countryCodes st |} in
  let st :=
    if (isValid datasetValidation && Js.truthy (Js.get dataset "id"))%bool then
      match Js.get dataset "id" with
      | JString id =>
          if bool_decide (id ∈ datasetIds st) then
            {| report := push_error (duplicate_id i id) (report st);
               datasetIds := datasetIds st; countryCodes := countryCodes st |}
          else
            {| report := report st;
               datasetIds := {[ id ]} ∪ datasetIds st; countryCodes := countryCodes st |}
      | _ => st
      end
    else st in
  if (isValid datasetValidation && Js.truthy (Js.get dataset "countryCode"))%bool then
    match Js.get dataset "countryCode" with
    | JString cc =>
        if bool_decide (cc ∈ countryCodes st) then
          {| report := push_warning (duplicate_countryCode i cc) (report st);
             datasetIds := datasetIds st; countryCodes := countryCodes st |}
        else
          {| report := report st;
             datasetIds := datasetIds st; countryCodes := {[ cc ]} ∪ countryCodes st |}
    | _ => st
    end
  else st.

(** [for (let i = 0; i < data.datasets.length; i++)], from index [i] on. *)
Fixpoint schema_loop (datasets : list JsValue) (i : nat) (st : SchemaState) : SchemaState :=
  match datasets with
  | [] => st
  | dataset :: rest => schema_loop rest (S i) (schema_step i dataset st)
  end.

(** [DataLoader.validateJsonSchema(data)] *)
Definition validateJsonSchema (data : JsValue) : Completion ValidationResult :=
  collectionValidation ← validateDatasetCollectionDetailed data;
  let r := push_errors (errors collectionValidation) ([], []) in
  let r := push_warnings (warnings collectionValidation) r in
  let r :=
    if isValid collectionValidation then
      match Js.get data "datasets" with
      | JArray datasets =>
          report (schema_loop datasets 0
                    {| report := r; datasetIds := ∅; countryCodes := ∅ |})
      | _ => r
      end
    else r in
  Normal (verdict r).

(** ** Filtering *)

(** An entry of the [invalid] array: [{ dataset, errors }]. *)
Record InvalidEntry : Type := {
  inv_dataset : JsValue;
  inv_errors : list ValidationError
}.

Record FilterResult : Type := {
  valid : list JsValue;
  invalid : list InvalidEntry;
  totalProcessed : nat
}.

(** The loop of [filterValidDatasets] from index [i] on, pushing to the
    two arrays built so far. *)
Fixpoint filter_loop (datasets : list JsValue) (i : nat)
    (valid_acc : list JsValue) (invalid_acc : list InvalidEntry)
    : list JsValue * list InvalidEntry :=
  match datasets with
  | [] => (valid_acc, invalid_acc)
  | dataset :: rest =>
      let validation :=
        validateDatasetDetailed dataset ("dataset[" +:+ Str.of_nat i +:+ "]") in
      if isValid validation then
        filter_loop rest (S i) (valid_acc ++ [dataset]) invalid_acc
      else
        filter_loop rest (S i) valid_acc
          (invalid_acc ++ [ {| inv_dataset := dataset; inv_errors := errors validation |} ])
  end.

(** [DataLoader.filterValidDatasets(datasets)] *)
Definition filterValidDatasets (datasets : list JsValue) : FilterResult :=
  let '(valid_acc, invalid_acc) := filter_loop datasets 0 [] [] in
  {| valid := valid_acc; invalid := invalid_acc; totalProcessed := length datasets |}.

(** The elements [datasets[0]], ..., [datasets[datasets.length - 1]] the
    loop of [filterValidDatasets] reads from a value that need not be an
    array. Reading [length] of [null] or [undefined] throws; a number or
    a boolean has no [length], and a string has its characters. For a
    plain object the elements are read by index up to a [length] that is
    a finite number. The conversion that [i < datasets.length] applies to
    a [length] of another type, and a loop that does not end (a [length]
    of [Infinity]), are not modelled: [loadDatasets] passes an array, and
    the properties of [attemptRecovery] are stated for caches that are
    no plain object. *)
Definition array_like (v : JsValue) : Completion (list JsValue) :=
  match v with
  | JArray elements => Normal elements
  | JNull | JUndefined =>
      Throw (ThrowError (Error "Cannot read properties of null (reading 'length')"))
  | JString s => Normal (List.map (fun c => JString (String c EmptyString)) (list_ascii_of_string s))
  | JObject properties =>
      match Js.get v "length" with
      | JNumber (Finite q) =>
          Normal (List.map (fun i => Js.get v (Str.of_nat i))
                    (seq 0 (Z.to_nat (Qceiling q))))
      | _ => Normal []
      end
  | _ => Normal []
  end.

(** [filterValidDatasets] applied to a value of any shape. *)
Definition filterValidDatasets_any (v : JsValue) : Completion FilterResult :=
  datasets ← array_like v; Normal (filterValidDatasets datasets).

(** ** Loading the collection document *)

(** The methods [loadDatasets] calls, in call order. *)
Inductive LoaderCall : Type :=
| Call_validateDatasetCollectionDetailed
| Call_filterValidDatasets
| Call_getFallbackDatasets.

Record Traced (A : Type) : Type := {
  calls : list LoaderCall;
  result : A
}.
Arguments calls {A} t.
Arguments result {A} t.

(** The mapping from the message of a caught error to a code and its
    [recoverable] flag. *)
Definition classify (errorMessage : string) : DataLoaderErrorCode * bool :=
  if (Str.includes errorMessage "timeout" || Str.includes errorMessage "import timeout")%bool
  then (TIMEOUT_ERROR, true)
  else if (Str.includes errorMessage "network" || Str.includes errorMessage "fetch")%bool
  then (NETWORK_ERROR, true)
  else if (Str.includes errorMessage "parse" || Str.includes errorMessage "json")%bool
  then (PARSE_ERROR, false)
  else if (Str.includes errorMessage "not found" || Str.includes errorMessage "404")%bool
  then (FILE_NOT_FOUND, false)
  else if (Str.includes errorMessage "permission" || Str.includes errorMessage "403")%bool
  then (PERMISSION_ERROR, false)
  else (UNKNOWN_ERROR, true).

(** The [catch] clause of [loadDatasets]. *)
Definition loadDatasets_catch (error : Thrown) : Completion (list JsValue) :=
  match error with
  | ThrowError (DataLoaderError _ _ _ _) => Throw error
  | ThrowError (Error m) =>
      let '(errorCode, recoverable) := classify (Str.toLowerCase m) in
      Throw (ThrowError (DataLoaderError (ERROR_MESSAGES errorCode) (Some (Error m))
                           (Some errorCode) recoverable))
  | ThrowValue v =>
      Throw (ThrowError (DataLoaderError (ERROR_MESSAGES UNKNOWN_ERROR)
                           (Some (Error (Js.toString v))) (Some UNKNOWN_ERROR) true))
  end.

(** [collectionValidation.errors.map(e => `${e.field}: ${e.message}`).join(', ')] *)
Definition errorMessages (es : list ValidationError) : string :=
  Str.join ", " (List.map (fun e => field e +:+ ": " +:+ message e) es).

(** The [try] block of [loadDatasets] once the document is there. *)
Definition loadDatasets_validate (data : JsValue) : Traced (Completion (list JsValue)) :=
  match validateDatasetCollectionDetailed data with
  | Throw t => {| calls := [Call_validateDatasetCollectionDetailed]; result := Throw t |}
  | Normal collectionValidation =>
      if negb (isValid collectionValidation) then
        {| calls := [Call_validateDatasetCollectionDetailed];
           result :=
             Throw (ThrowError
                      (DataLoaderError (ERROR_MESSAGES VALIDATION_ERROR)
                         (Some (Error (errorMessages (errors collectionValidation))))
                         (Some VALIDATION_ERROR) false)) |}
      else
        match filterValidDatasets_any (Js.get data "datasets") with
        | Throw t =>
            {| calls := [Call_validateDatasetCollectionDetailed; Call_filterValidDatasets];
               result := Throw t |}
        | Normal filterResult =>
            if Nat.eqb (length (valid filterResult)) 0 then
              {| calls := [Call_validateDatasetCollectionDetailed;
                           Call_filterValidDatasets; Call_getFallbackDatasets];
                 result :=
                   Throw (ThrowError
                            (DataLoaderError "No valid datasets found. Using fallback data."
                               (Some (Error "All datasets failed validation"))
                               (Some VALIDATION_ERROR) true)) |}
            else
              {| calls := [Call_validateDatasetCollectionDetailed; Call_filterValidDatasets];
                 result := Normal (valid filterResult) |}
        end
  end.

(** [DataLoader.loadDatasets()], given the promise of [import('./data.json')]
    resolving to the module's default export. *)
Definition loadDatasets (imported : Pending JsValue) : Traced (Completion (list JsValue)) :=
  match race_timeout imported 10000 "Import timeout" with
  | Throw t => {| calls := []; result := loadDatasets_catch t |}
  | Normal data =>
      let body := loadDatasets_validate data in
      {| calls := calls body; result := try_catch (result body) loadDatasets_catch |}
  end.

(** ** Sample files *)

Definition ASSETS_BASE_PATH : string := "public/assets/samples".

(** [new DataLoaderError(message)]: no cause, no code, recoverable. *)
Definition DataLoaderError_of_message (m : string) : JsError :=
  DataLoaderError m None None true.

(** [DataLoader.getAssetPath(filename)] *)
Definition getAssetPath (filename : string) : Completion string :=
  if String.eqb filename EmptyString then
    Throw (ThrowError (DataLoaderError_of_message "Filename is required for asset path generation"))
  else if negb (Str.endsWith filename ".csv") then
    Throw (ThrowError (DataLoaderError_of_message "Asset filename must end with .csv"))
  else Normal (ASSETS_BASE_PATH +:+ "/" +:+ filename).

Record Response : Type := {
  status : Z;
  statusText : string
}.

(** [response.ok] *)
Definition ok (response : Response) : bool :=
  ((200 <=? status response) && (status response <=? 299))%bool.

(** [DataLoader.checkFileExists(filename)], given what a [HEAD] request
    to each path does. *)
Definition checkFileExists (fetch_head : string -> Pending Response) (filename : JsValue)
    : Completion bool :=
  try_catch
    (if (negb (Js.truthy filename) || negb (String.eqb (Js.typeof filename) "string"))%bool
     then Normal false
     else
       match filename with
       | JString name =>
           assetPath ← getAssetPath name;
           response ← race_timeout (fetch_head assetPath) 5000 "File check timeout";
           Normal (ok response)
       | _ => Normal false
       end)
    (fun _ => Normal false).

(** ** Recovery *)

(** What [localStorage.getItem('datasets_emergency_cache')] followed by
    [JSON.parse] gives. *)
Inductive EmergencyCache : Type :=
| StorageThrows (t : Thrown)
| NoItem
| ParseThrows (t : Thrown)
| Parsed (parsedData : JsValue).

(** [originalError.recoverable], absent (hence falsy) on a plain [Error]. *)
Definition recoverable_of (e : JsError) : bool :=
  match e with
  | DataLoaderError _ _ _ recoverable => recoverable
  | Error _ => false
  end.

(** [DataLoader.attemptRecovery(originalError)] *)
Definition attemptRecovery (originalError : JsError) (storage : EmergencyCache)
    : Completion (list JsValue) :=
  let strategy3 : Completion (list JsValue) :=
    Throw (ThrowError
             (DataLoaderError "Unable to recover data. Please refresh the page or contact support."
                (Some originalError) (Some UNKNOWN_ERROR) false)) in
  let strategy2 : Completion (list JsValue) :=
    match storage with
    | Parsed parsedData =>
        match filterValidDatasets_any parsedData with
        | Normal validation =>
            if Nat.ltb 0 (length (valid validation)) then Normal (valid validation)
            else strategy3
        | Throw _ => strategy3
        end
    | _ => strategy3
    end in
  if recoverable_of originalError then
    let fallbackData := getFallbackDatasets in
    let validation := filterValidDatasets fallbackData in
    if Nat.ltb 0 (length (valid validation)) then Normal (valid validation)
    else strategy2
  else strategy2.

(** ** The [useDatasets] hook *)

Record UseDatasetOptions : Type := {
  opt_autoLoad : option bool;
  opt_cacheDuration : option Z;
  opt_maxRetries : option Z;
  opt_retryDelay : option Z;
  opt_exponentialBackoff : option bool
}.

(** The destructuring of [options] with its defaults. *)
Definition autoLoad (o : UseDatasetOptions) : bool := default true (opt_autoLoad o).
Definition cacheDuration (o : UseDatasetOptions) : Z := default (5 * 60 * 1000) (opt_cacheDuration o).
Definition maxRetries (o : UseDatasetOptions) : Z := default 3 (opt_maxRetries o).
Definition retryDelay (o : UseDatasetOptions) : Z := default 1000 (opt_retryDelay o).
Definition exponentialBackoff (o : UseDatasetOptions) : bool :=
  default true (opt_exponentialBackoff o).

Definition no_options : UseDatasetOptions :=
  {| opt_autoLoad := None; opt_cacheDuration := None; opt_maxRetries := None;
     opt_retryDelay := None; opt_exponentialBackoff := None |}.

Record CacheEntry : Type := {
  cached_data : list JsValue;
  timestamp : Z
}.

Definition CACHE_KEY : string := "datasets".

(** A timer set by [loadData] at a failed [attempt]; when it fires it calls
    [loadData(attempt + 1)] if the component is still mounted. *)
Record Timer : Type := {
  timer_id : nat;
  timer_delay : number;
  timer_set_at : Z;
  timer_attempt : Z
}.

(** The state of one mounted hook together with what it shares with its
    environment: the module-level cache, the clock, the timers of the
    event loop and a count of the calls made to [DataLoader.loadDatasets]. *)
Record World : Type := {
  data : option (list JsValue);
  loading : bool;
  error : option string;
  retryCount : Z;
  isMountedRef : bool;
  retryTimeoutRef : option nat;
  dataCache : gmap string CacheEntry;
  now : Z;
  pending_timers : list Timer;
  timers_created : nat;
  loader_calls : nat
}.

Definition setData (d : option (list JsValue)) (w : World) : World :=
  {| data := d; loading := loading w; error := error w; retryCount := retryCount w;
     isMountedRef := isMountedRef w; retryTimeoutRef := retryTimeoutRef w;
     dataCache := dataCache w; now := now w; pending_timers := pending_timers w;
     timers_created := timers_created w; loader_calls := loader_calls w |}.

Definition setLoading (b : bool) (w : World) : World :=
  {| data := data w; loading := b; error := error w; retryCount := retryCount w;
     isMountedRef := isMountedRef w; retryTimeoutRef := retryTimeoutRef w;
     dataCache := dataCache w; now := now w; pending_timers := pending_timers w;
     timers_created := timers_created w; loader_calls := loader_calls w |}.

Definition setError (e : option string) (w : World) : World :=
  {| data := data w; loading := loading w; error := e; retryCount := retryCount w;
     isMountedRef := isMountedRef w; retryTimeoutRef := retryTimeoutRef w;
     dataCache := dataCache w; now := now w; pending_timers := pending_timers w;
     timers_created := timers_created w; loader_calls := loader_calls w |}.

Definition setRetryCount (n : Z) (w : World) : World :=
  {| data := data w; loading := loading w; error := error w; retryCount := n;
     isMountedRef := isMountedRef w; retryTimeoutRef := retryTimeoutRef w;
     dataCache := dataCache w; now := now w; pending_timers := pending_timers w;
     timers_created := timers_created w; loader_calls := loader_calls w |}.

Definition set_isMounted (b : bool) (w : World) : World :=
  {| data := data w; loading := loading w; error := error w; retryCount := retryCount w;
     isMountedRef := b; retryTimeoutRef := retryTimeoutRef w;
     dataCache := dataCache w; now := now w; pending_timers := pending_timers w;
     timers_created := timers_created w; loader_calls := loader_calls w |}.

Definition set_dataCache (c : gmap string CacheEntry) (w : World) : World :=
  {| data := data w; loading := loading w; error := error w; retryCount := retryCount w;
     isMountedRef := isMountedRef w; retryTimeoutRef := retryTimeoutRef w;
     dataCache := c; now := now w; pending_timers := pending_timers w;
     timers_created := timers_created w; loader_calls := loader_calls w |}.

Definition set_now (t : Z) (w : World) : World :=
  {| data := data w; loading := loading w; error := error w; retryCount := retryCount w;
     isMountedRef := isMountedRef w; retryTimeoutRef := retryTimeoutRef w;
     dataCache := dataCache w; now := t; pending_timers := pending_timers w;
     timers_created := timers_created w; loader_calls := loader_calls w |}.

Definition set_pending_timers (ts : list Timer) (w : World) : World :=
  {| data := data w; loading := loading w; error := error w; retryCount := retryCount w;
     isMountedRef := isMountedRef w; retryTimeoutRef := retryTimeoutRef w;
     dataCache := dataCache w; now := now w; pending_timers := ts;
     timers_created := timers_created w; loader_calls := loader_calls w |}.

(** [retryTimeoutRef.current = setTimeout(callback, delay)]; a timer id is
    a positive number, hence truthy. *)
Definition setTimeout_retry (attempt : Z) (delay : number) (w : World) : World :=
  let id := S (timers_created w) in
  {| data := data w; loading := loading w; error := error w; retryCount := retryCount w;
     isMountedRef := isMountedRef w; retryTimeoutRef := Some id;
     dataCache := dataCache w; now := now w;
     pending_timers :=
       pending_timers w ++ [ {| timer_id := id; timer_delay := delay;
                                timer_set_at := now w; timer_attempt := attempt |} ];
     timers_created := id; loader_calls := loader_calls w |}.

(** [clearTimeout(id)] *)
Definition clearTimeout (id : nat) (w : World) : World :=
  set_pending_timers
    (List.filter (fun t => negb (Nat.eqb (timer_id t) id)) (pending_timers w)) w.

(** The call [DataLoader.loadDatasets()] itself, counted. *)
Definition call_loadDatasets (w : World) : World :=
  {| data := data w; loading := loading w; error := error w; retryCount := retryCount w;
     isMountedRef := isMountedRef w; retryTimeoutRef := retryTimeoutRef w;
     dataCache := dataCache w; now := now w; pending_timers := pending_timers w;
     timers_created := timers_created w; loader_calls := S (loader_calls w) |}.

Section Hook.

Variable options : UseDatasetOptions.

Definition isCacheValid (w : World) : bool :=
  match dataCache w !! CACHE_KEY with
  | None => false
  | Some cached => now w - timestamp cached <? cacheDuration options
  end.

(** [cached?.data || null]: an array, even an empty one, is truthy. *)
Definition getCachedData (w : World) : option (list JsValue) :=
  if isCacheValid w then cached_data <$> (dataCache w !! CACHE_KEY) else None.

Definition setCachedData (datasets : list JsValue) (w : World) : World :=
  set_dataCache
    (<[ CACHE_KEY := {| cached_data := datasets; timestamp := now w |} ]> (dataCache w)) w.

Definition clearCache (w : World) : World :=
  set_dataCache (delete CACHE_KEY (dataCache w)) w.

(** [retryDelay * Math.pow(2, attempt - 1)], computed in doubles as the
    code computes it. *)
Definition calculateRetryDelay (attempt : Z) : number :=
  if negb (exponentialBackoff options) then Num.of_Z (retryDelay options)
  else Num.mul (Num.of_Z (retryDelay options)) (Math.pow2 (attempt - 1)).

(** [Math.ceil(delay / 1000)] *)
Definition ceil_seconds (delay : number) : number :=
  Math.ceil (Num.div delay (Num.of_Z 1000)).

(** Where [loadData] stands when it returns or reaches its [await]. *)
Inductive Suspended : Type :=
| Finished (w : World)
| AwaitingLoader (w : World).

(** [loadData(attempt)] up to [await DataLoader.loadDatasets()]. *)
Definition loadData_begin (attempt : Z) (w : World) : Suspended :=
  if negb (isMountedRef w) then Finished w
  else
    match getCachedData w with
    | Some cachedData =>
        if attempt =? 1 then
          Finished (setRetryCount 0 (setError None (setLoading false
                      (setData (Some cachedData) w))))
        else AwaitingLoader (call_loadDatasets (setRetryCount (attempt - 1) (setLoading true w)))
    | None => AwaitingLoader (call_loadDatasets (setRetryCount (attempt - 1) (setLoading true w)))
    end.

(** [err instanceof Error ? err.message : 'Failed to load datasets'] *)
Definition errorMessage_of (err : Thrown) : string :=
  match err with
  | ThrowError e => error_message e
  | ThrowValue _ => "Failed to load datasets"
  end.

(** The [finally] clause. *)
Definition loadData_finally (w : World) : World :=
  if isMountedRef w then setLoading false w else w.

(** [loadData(attempt)] from the moment the promise of the loader
    settles, in the world as it is then. *)
Definition loadData_settle (attempt : Z) (settled : Completion (list JsValue)) (w : World)
    : World :=
  loadData_finally
    (match settled with
     | Normal datasets =>
         if negb (isMountedRef w) then w
         else setCachedData datasets (setRetryCount 0 (setError None
                (setData (Some datasets) w)))
     | Throw err =>
         if negb (isMountedRef w) then w
         else
           let errorMessage := errorMessage_of err in
           if attempt <? maxRetries options then
             let delay := calculateRetryDelay attempt in
             setError (Some (errorMessage +:+ " (retrying in "
                             +:+ Num.toString (ceil_seconds delay) +:+ "s...)"))
                      (setTimeout_retry attempt delay w)
           else
             setRetryCount (maxRetries options) (setError (Some errorMessage)
               (setData None w))
     end).

(** [reload()] up to the [await] inside [loadData(1)]. *)
Definition reload (w : World) : Suspended :=
  loadData_begin 1 (setRetryCount 0 (clearCache w)).

(** The mount effect: [if (autoLoad) loadData()]. *)
Definition mount (w : World) : Suspended :=
  if autoLoad options then loadData_begin 1 w else Finished w.

(** The cleanup of the mount effect. *)
Definition unmount (w : World) : World :=
  let w := set_isMounted false w in
  match retryTimeoutRef w with
  | Some id => clearTimeout id w
  | None => w
  end.

(** The milliseconds after which a timer set with [delay] fires: a delay
    that is [NaN], infinite or negative counts as 0. *)
Definition timeout_ms (delay : number) : Z :=
  match delay with
  | Finite q => Z.max 0 (Qfloor q)
  | _ => 0
  end.

(** The event loop running one load cycle to its end: each call of the
    loader settles with the next of [outcomes], [elapsed] milliseconds
    after the call; then the timer the cycle has set, if any, fires when
    its delay has passed and starts the next attempt. With no outcome
    left the loader call stays pending. *)
Fixpoint run_cycle (outcomes : list (Completion (list JsValue))) (elapsed : Z)
    (attempt : Z) (w : World) : World :=
  match loadData_begin attempt w with
  | Finished w' => w'
  | AwaitingLoader w' =>
      match outcomes with
      | [] => w'
      | settled :: rest =>
          let w' := loadData_settle attempt settled (set_now (now w' + elapsed) w') in
          match pending_timers w' with
          | [] => w'
          | t :: ts =>
              let w' := set_now (timer_set_at t + timeout_ms (timer_delay t))
                          (set_pending_timers ts w') in
              if isMountedRef w' then run_cycle rest elapsed (timer_attempt t + 1) w'
              else w'
          end
      end
  end.

End Hook.

(** A hook that has just been mounted, at time [t], sharing [cache]. *)
Definition mounted_world (cache : gmap string CacheEntry) (t : Z) : World :=
  {| data := None; loading := false; error := None; retryCount := 0;
     isMountedRef := true; retryTimeoutRef := None;
     dataCache := cache; now := t; pending_timers := [];
     timers_created := 0; loader_calls := 0 |}.


(** ** Downloading a sample file *)

(** What [response.blob()] gives; [blob_type] is only ever logged. *)
Record Blob : Type := {
  blob_size : nat;
  blob_type : string
}.

(** What [fetch(assetPath, ...)] resolves to: the response and how reading
    its body ends. The [content-type] header is only compared for a
    console warning and is left out. *)
Record Download : Type := {
  response : Response;
  body : Completion Blob
}.

(** The [switch] over [response.status]. *)
Definition classify_status (status : Z) : DataLoaderErrorCode * bool :=
  if status =? 404 then (FILE_NOT_FOUND, false)
  else if status =? 403 then (PERMISSION_ERROR, false)
  else if ((status =? 408) || (status =? 504))%bool then (TIMEOUT_ERROR, true)
  else if ((status =? 500) || (status =? 502) || (status =? 503))%bool
  then (NETWORK_ERROR, true)
  else (UNKNOWN_ERROR, true).

(** The error built when [response.ok] is false. *)
Definition http_error (r : Response) : JsError :=
  let '(errorCode, recoverable) := classify_status (status r) in
  DataLoaderError (ERROR_MESSAGES errorCode)
    (Some (Error ("HTTP " +:+ Str.of_Z (status r) +:+ ": " +:+ statusText r)))
    (Some errorCode) recoverable.

(** [Math.pow(2, attempt - 1) * 1000] *)
Definition backoff (attempt : Z) : Z := 2 ^ (attempt - 1) * 1000.

(** How one turn of the loop of [downloadSampleFile] ends. *)
Inductive AttemptEnd : Type :=
| Returns (blob : Blob)
| Rethrows (t : Thrown)
| Continues (wait : Z) (lastError : JsError).

(** [error instanceof Error ? error : new Error(String(error))] *)
Definition as_Error (error : Thrown) : JsError :=
  match error with
  | ThrowError e => e
  | ThrowValue v => Error (Js.toString v)
  end.

(** The [catch] clause of the loop. *)
Definition download_catch (maxRetries attempt : Z) (error : Thrown) : AttemptEnd :=
  let lastError := as_Error error in
  match error with
  | ThrowError (DataLoaderError _ _ _ recoverable) =>
      if (negb recoverable || (maxRetries <? attempt))%bool then Rethrows error
      else Continues (backoff attempt) lastError
  | _ =>
      let errorCode :=
        match error with
        | ThrowError e =>
            let errorMessage := Str.toLowerCase (error_message e) in
            if (Str.includes errorMessage "abort" || Str.includes errorMessage "timeout")%bool
            then TIMEOUT_ERROR else NETWORK_ERROR
        | ThrowValue _ => NETWORK_ERROR
        end in
      if maxRetries <? attempt then
        Rethrows (ThrowError (DataLoaderError (ERROR_MESSAGES errorCode) (Some lastError)
                                (Some errorCode) true))
      else Continues (backoff attempt) lastError
  end.

(** The message of the rejection when the 30 s timer aborts the request
    (its wording differs between browsers; all contain [abort]). *)
Definition abort_message : string := "The operation was aborted.".

(** The [try] block once the response is there. *)
Definition download_response (maxRetries attempt : Z) (d : Download) : AttemptEnd :=
  if negb (ok (response d)) then
    let error := http_error (response d) in
    if (negb (recoverable_of error) || (maxRetries <? attempt))%bool
    then download_catch maxRetries attempt (ThrowError error)
    else Continues (backoff attempt) error
  else
    match body d with
    | Throw t => download_catch maxRetries attempt t
    | Normal blob =>
        if Nat.eqb (blob_size blob) 0 then
          download_catch maxRetries attempt
            (ThrowError (DataLoaderError "Downloaded file is empty"
                           (Some (Error "Zero-byte file received"))
                           (Some VALIDATION_ERROR) true))
        else Returns blob
    end.

(** One turn of the loop: whether [fetch] was called, and how the turn
    ends. *)
Definition download_attempt (fetch : Pending Download) (filename : string)
    (maxRetries attempt : Z) : bool * AttemptEnd :=
  match getAssetPath filename with
  | Throw t => (false, download_catch maxRetries attempt t)
  | Normal assetPath =>
      match race_timeout fetch 30000 abort_message with
      | Throw t => (true, download_catch maxRetries attempt t)
      | Normal d => (true, download_response maxRetries attempt d)
      end
  end.

(** What a call of [downloadSampleFile] did and how it ended: the attempts
    at which [fetch] was called, the waits between attempts, the result. *)
Record DownloadRun : Type := {
  fetched : list Z;
  waits : list Z;
  downloaded : Completion Blob
}.

(** [for (let attempt = 1; attempt <= maxRetries + 1; attempt++)] from
    [attempt] on, and the [throw] after the loop; [fuel] bounds the turns
    left. [fetch attempt] is what the request of that attempt does. *)
Fixpoint download_loop (fetch : Z -> Pending Download) (filename : string) (maxRetries : Z)
    (fuel : nat) (attempt : Z) (lastError : option JsError)
    (fetched_acc waits_acc : list Z) : DownloadRun :=
  let after_loop :=
    {| fetched := fetched_acc; waits := waits_acc;
       downloaded :=
         Throw (ThrowError
                  (DataLoaderError (ERROR_MESSAGES UNKNOWN_ERROR)
                     (Some (default (Error "Unknown download failure") lastError))
                     (Some UNKNOWN_ERROR) true)) |} in
  match fuel with
  | O => after_loop
  | S fuel' =>
      if attempt <=? maxRetries + 1 then
        let '(called, ending) := download_attempt (fetch attempt) filename maxRetries attempt in
        let fetched_acc := if called then fetched_acc ++ [attempt] else fetched_acc in
        match ending with
        | Returns blob =>
            {| fetched := fetched_acc; waits := waits_acc; downloaded := Normal blob |}
        | Rethrows t =>
            {| fetched := fetched_acc; waits := waits_acc; downloaded := Throw t |}
        | Continues wait lastError' =>
            download_loop fetch filename maxRetries fuel' (attempt + 1) (Some lastError')
              fetched_acc (waits_acc ++ [wait])
        end
      else after_loop
  end.

(** [DataLoader.downloadSampleFile(filename, maxRetries)]; [maxRetries]
    defaults to 2. *)
Definition downloadSampleFile (fetch : Z -> Pending Download) (filename : JsValue)
    (maxRetries : option Z) : DownloadRun :=
  let maxRetries := default 2 maxRetries in
  let invalid_filename :=
    {| fetched := []; waits := [];
       downloaded :=
         Throw (ThrowError
                  (DataLoaderError "Invalid filename provided for download"
                     (Some (Error ("Invalid filename: " +:+ Js.toString filename)))
                     (Some VALIDATION_ERROR) false)) |} in
  if (negb (Js.truthy filename) || negb (String.eqb (Js.typeof filename) "string"))%bool
  then invalid_filename
  else
    match filename with
    | JString name =>
        download_loop fetch name maxRetries (Z.to_nat (maxRetries + 1)) 1 None [] []
    | _ => invalid_filename
    end.

(** ** Notions used to state the properties *)

(** Appending the findings of one report to another. *)
Definition report_app (a b : Report) : Report := (a.1 ++ b.1, a.2 ++ b.2).

(** A step of a validator only ever pushes to the report it is given. *)
Definition pushes_only (f : Report -> Report) : Prop :=
  forall r : Report, f r = report_app r (f ([], [])).

(** The names of the seven required fields of a record. *)
Definition record_fields : list string :=
  ["id"; "countryName"; "countryCode"; "region"; "sampleFileName";
   "postalCodeCount"; "status"].

(** A finding without its [path]. *)
Definition finding (e : ValidationError) : string * JsValue * string :=
  (field e, value e, message e).

(** A finding names the field it is about and carries the value read
    from that field. *)
Definition about (dataset : JsValue) (name : string) (e : ValidationError) : Prop :=
  field e = name /\ value e = Js.get dataset name.

(** The error pushed for a required field that is missing. *)
Definition missing_error (path name : string) (v : JsValue) : ValidationError :=
  {| field := name; value := v;
     message := "Required field " +:+ quoted name +:+ " is missing";
     path := Some (path +:+ "." +:+ name) |}.

(** The rule of a string field, stated apart from the validator: the
    field holds a string that is not blank, has at least [min] characters
    and matches the pattern of the field, if it has one. *)
Definition string_rule (dataset : JsValue) (name : string) (min : nat)
    (pattern : option RegExp.t) : Prop :=
  exists s : string,
    Js.get dataset name = JString s
    /\ Str.trim s <> EmptyString
    /\ (min <= String.length s)%nat
    /\ match pattern with
       | Some re => RegExp.test re s = true
       | None => True
       end.

(** A record satisfying all rules, after the data model: an object whose
    string fields are not blank, whose [id] matches
    [[a-z0-9-]+], whose [countryName] and [region] have at least 2
    characters, whose [countryCode] is two upper-case letters, whose
    [sampleFileName] ends in [.csv], whose [postalCodeCount] is a positive
    integer and whose [status] is one of the three of the enumeration. *)
Record satisfies_all_rules (dataset : JsValue) : Prop := {
  rule_object : not_an_object dataset = false;
  rule_id : string_rule dataset "id" 0 (Some RegExp.id_pattern);
  rule_countryName : string_rule dataset "countryName" 2 None;
  rule_countryCode : string_rule dataset "countryCode" 0 (Some RegExp.countryCode_pattern);
  rule_region : string_rule dataset "region" 2 None;
  rule_sampleFileName : string_rule dataset "sampleFileName" 0 (Some RegExp.csv_pattern);
  rule_postalCodeCount :
    exists n : number,
      Js.get dataset "postalCodeCount" = JNumber n
      /\ Num.isInteger n = true
      /\ Num.lt (Num.of_Z 0) n = true;
  rule_status :
    exists s : string,
      Js.get dataset "status" = JString s
      /\ In s ["active"; "inactive"; "coming-soon"]
}.

(** The entries [filterValidDatasets] pushes to [invalid] for the records
    from index [i] on. *)
Fixpoint rejected (datasets : list JsValue) (i : nat) : list InvalidEntry :=
  match datasets with
  | [] => []
  | dataset :: rest =>
      let validation :=
        validateDatasetDetailed dataset ("dataset[" +:+ Str.of_nat i +:+ "]") in
      if isValid validation then rejected rest (S i)
      else {| inv_dataset := dataset; inv_errors := errors validation |}
           :: rejected rest (S i)
  end.

(** The string a valid record holds in the field [name]. *)
Definition key_of (name : string) (dataset : JsValue) : option string :=
  if validateDataset dataset then
    match Js.get dataset name with
    | JString s => Some s
    | _ => None
    end
  else None.

(** What one turn of the schema loop pushes for a key already seen. *)
Definition seen_before (key : option string) (seen : gset string)
    (finding_for : string -> ValidationError) : list ValidationError :=
  match key with
  | Some s => if bool_decide (s ∈ seen) then [finding_for s] else []
  | None => []
  end.

(** The set once the key of the record has joined it. *)
Definition seen_with (key : option string) (seen : gset string) : gset string :=
  match key with
  | Some s => {[ s ]} ∪ seen
  | None => seen
  end.

(** The [recoverable] flag of the error a call ended with. *)
Definition recoverable_flag_of {A : Type} (c : Completion A) : option bool :=
  match c with
  | Throw t => recoverable_flag t
  | Normal _ => None
  end.

(** The [code] of the error a call ended with. *)
Definition error_code_of {A : Type} (c : Completion A) : option DataLoaderErrorCode :=
  match c with
  | Throw t => error_code t
  | Normal _ => None
  end.

(** The probe of [filename] succeeds: the name is a string ending in
    [.csv] and the [HEAD] request for [public/assets/samples/<name>]
    settles before 5000 ms with a status in 200..299. *)
Definition probe_succeeds (fetch_head : string -> Pending Response) (filename : JsValue) : Prop :=
  exists (name : string) (t : Z) (response : Response),
    filename = JString name
    /\ Str.endsWith name ".csv" = true
    /\ settles_after (fetch_head ("public/assets/samples/" +:+ name)) = Some t
    /\ t < 5000
    /\ outcome (fetch_head ("public/assets/samples/" +:+ name)) = Normal response
    /\ 200 <= status response <= 299.

(** An integer that is a double: at most 53 significant bits, and below
    [2^1024] in magnitude. *)
Definition double_integer (z : Z) : Prop :=
  exists m j : Z, 0 <= j /\ Z.abs m < 2 ^ 53 /\ z = m * 2 ^ j /\ Z.abs z < 2 ^ 1024.

(** The infinity of the sign of [z]. *)
Definition infinity_of (z : Z) : number := if 0 <? z then PosInfinity else NegInfinity.

(** ** Sample inputs *)

(** A cache entry written at time 1000. *)
Definition sample_entry : CacheEntry :=
  {| cached_data := getFallbackDatasets; timestamp := 1000 |}.

(** The failure [loadDatasets] reports when the import rejects with a
    syntax error of the JSON parser: a [PARSE_ERROR], not recoverable. *)
Definition parse_failure : Thrown :=
  ThrowError
    (DataLoaderError (ERROR_MESSAGES PARSE_ERROR)
       (Some (Error "Unexpected token } in JSON at position 10"))
       (Some PARSE_ERROR) false).

(** A server that holds the sample of the United States alone: the
    [HEAD] request for its path is answered 200 after 120 ms, any other
    request 404. *)
Definition us_sample_only (assetPath : string) : Pending Response :=
  {| settles_after := Some 120;
     outcome :=
       Normal (if String.eqb assetPath "public/assets/samples/us-postal-codes-sample.csv"
               then {| status := 200; statusText := "OK" |}
               else {| status := 404; statusText := "Not Found" |}) |}.

(** The options [{ maxRetries: 2000, retryDelay: 0 }]. *)
Definition zero_delay_options : UseDatasetOptions :=
  {| opt_autoLoad := None; opt_cacheDuration := None; opt_maxRetries := Some 2000;
     opt_retryDelay := Some 0; opt_exponentialBackoff := None |}.

(** A mounted hook showing data, in the middle of a first attempt to load
    again (after [reload()]). *)
Definition reloading_world : World :=
  {| data := Some getFallbackDatasets; loading := true; error := None; retryCount := 0;
     isMountedRef := true; retryTimeoutRef := None;
     dataCache := ∅; now := 0; pending_timers := [];
     timers_created := 0; loader_calls := 1 |}.

(** A record with the given fields and the other fields of the fallback
    record. *)
Definition record_with (id countryCode : string) (postalCodeCount : JsValue) : JsValue :=
  Js.object
    [ ("id", JString id);
      ("countryName", JString "United States");
      ("countryCode", JString countryCode);
      ("postalCodeCount", postalCodeCount);
      ("region", JString "North America");
      ("status", JString "active");
      ("sampleFileName", JString "us-postal-codes-sample.csv") ].

(** A record without [region]. *)
Definition record_without_region : JsValue :=
  Js.object
    [ ("id", JString "us");
      ("countryName", JString "United States");
      ("countryCode", JString "US");
      ("postalCodeCount", JNumber (Num.of_Z 41692));
      ("status", JString "active");
      ("sampleFileName", JString "us-postal-codes-sample.csv") ].

(** A collection document with the given records and a well-formed
    [metadata]. *)
Definition collection_of (datasets : list JsValue) : JsValue :=
  Js.object
    [ ("datasets", JArray datasets);
      ("metadata",
       Js.object [ ("lastUpdated", JString "2025-01-09");
                   ("version", JString "1.0.0");
                   ("totalCountries", JNumber (Num.of_nat (length datasets))) ]) ].

(** The answer of the collection validator for a well-formed envelope. *)
Definition clean_result : ValidationResult :=
  {| isValid := true; errors := []; warnings := [] |}.



(** Two well-formed records sharing the id [us]. *)
Definition records_sharing_id : list JsValue :=
  [ record_with "us" "US" (JNumber (Num.of_Z 41692));
    record_with "us" "DE" (JNumber (Num.of_Z 16475)) ].

(** Two well-formed records sharing the country code [US]. *)
Definition records_sharing_code : list JsValue :=
  [ record_with "us" "US" (JNumber (Num.of_Z 41692));
    record_with "um" "US" (JNumber (Num.of_Z 10)) ].

(** A record with the id [us] and the country code [US] that lacks
    [region], next to a well-formed record with the same id and code. *)
Definition records_sharing_id_one_invalid : list JsValue :=
  [ record_with "us" "US" (JNumber (Num.of_Z 41692)); record_without_region ].

(** ** More notions used to state the properties *)

(** The hard rules of the envelope: [datasets] is an own property holding
    an array; [metadata] is an own property holding an object whose
    [lastUpdated] and [version] are strings and whose [totalCountries]
    is a number that is not below 0. *)
Definition well_formed_envelope (data : JsValue) : Prop :=
  exists (datasets : list JsValue) (lastUpdated version : string) (totalCountries : number),
    Js.hasOwn data "datasets" = true
    /\ Js.get data "datasets" = JArray datasets
    /\ Js.hasOwn data "metadata" = true
    /\ not_an_object (Js.get data "metadata") = false
    /\ Js.get (Js.get data "metadata") "lastUpdated" = JString lastUpdated
    /\ Js.get (Js.get data "metadata") "version" = JString version
    /\ Js.get (Js.get data "metadata") "totalCountries" = JNumber totalCountries
    /\ Num.lt totalCountries (Num.of_Z 0) = false.

(** The three codes whose errors are never recoverable, and the three
    whose errors always are. *)
Definition never_recoverable (code : DataLoaderErrorCode) : bool :=
  match code with
  | PARSE_ERROR | FILE_NOT_FOUND | PERMISSION_ERROR => true
  | _ => false
  end.

Definition always_recoverable (code : DataLoaderErrorCode) : bool :=
  match code with
  | TIMEOUT_ERROR | NETWORK_ERROR | UNKNOWN_ERROR => true
  | _ => false
  end.

(** The attempts [a], [a + 1], ..., [a + k - 1]. *)
Definition attempts_from (a : Z) (k : nat) : list Z :=
  List.map (fun i => a + Z.of_nat i) (seq 0 k).

(** The sum of the waits of a run. *)
Definition total_wait (ws : list Z) : Z := fold_right Z.add 0 ws.

(** The strings a regular expression matches as a whole. *)
Inductive Matches : RegExp.regex -> string -> Prop :=
| Matches_Eps : Matches RegExp.Eps EmptyString
| Matches_Class (p : ascii -> bool) (c : ascii) :
    p c = true -> Matches (RegExp.Class p) (String c EmptyString)
| Matches_Seq (r1 r2 : RegExp.regex) (s1 s2 : string) :
    Matches r1 s1 -> Matches r2 s2 -> Matches (RegExp.Seq r1 r2) (s1 +:+ s2)
| Matches_Alt_l (r1 r2 : RegExp.regex) (s : string) :
    Matches r1 s -> Matches (RegExp.Alt r1 r2) s
| Matches_Alt_r (r1 r2 : RegExp.regex) (s : string) :
    Matches r2 s -> Matches (RegExp.Alt r1 r2) s
| Matches_Star_nil (r : RegExp.regex) : Matches (RegExp.Star r) EmptyString
| Matches_Star_app (r : RegExp.regex) (s1 s2 : string) :
    Matches r s1 -> Matches (RegExp.Star r) s2 -> Matches (RegExp.Star r) (s1 +:+ s2).

(** The characters of an [id]: [[a-z0-9-]]. *)
Definition id_char (c : ascii) : bool :=
  (Str.is_lower c || Str.is_digit c || Ascii.eqb c "-")%bool.

(** ** More sample inputs *)

(** A failure of the loader that may be retried. *)
Definition network_failure : Thrown :=
  ThrowError
    (DataLoaderError (ERROR_MESSAGES NETWORK_ERROR)
       (Some (Error "Failed to fetch dynamically imported module"))
       (Some NETWORK_ERROR) true).

(** A document with a key that shadows [hasOwnProperty]. *)
Definition document_shadowing_hasOwnProperty : JsValue :=
  Js.object [ ("datasets", JArray getFallbackDatasets); ("hasOwnProperty", JBool true) ].

(** An import that rejects with a syntax error of the JSON parser. *)
Definition rejected_import : Pending JsValue :=
  {| settles_after := Some 5;
     outcome := Throw (ThrowError (Error "Unexpected token } in JSON at position 10")) |}.

(** An import that settles in 5 ms with the given document. *)
Definition imported_in_time (data : JsValue) : Pending JsValue :=
  {| settles_after := Some 5; outcome := Normal data |}.

(** A request answered after 80 ms with the given status and a body of
    the given size. *)
Definition answered (status : Z) (bytes : nat) : Pending Download :=
  {| settles_after := Some 80;
     outcome := Normal {| response := {| status := status; statusText := "" |};
                          body := Normal {| blob_size := bytes; blob_type := "text/csv" |} |} |}.

(** A request that is always answered with status 503. *)
Definition always_unavailable (attempt : Z) : Pending Download := answered 503 0.

(** A request answered with status 503 at the first attempt and with a
    file of 120 bytes from the second on. *)
Definition unavailable_once (attempt : Z) : Pending Download :=
  if attempt =? 1 then answered 503 0 else answered 200 120.

(** A request answered with status 404. *)
Definition not_found (attempt : Z) : Pending Download := answered 404 0.

(** * Properties *)

(** ** Retry timing *)

Lemma setTimeout_retry_pending (attempt : Z) (delay : number) (w : World) :
  pending_timers (setTimeout_retry attempt delay w)
  = pending_timers w ++ [ {| timer_id := S (timers_created w); timer_delay := delay;
                             timer_set_at := now w; timer_attempt := attempt |} ].
Proof. reflexivity. Qed.

Lemma loadData_settle_retry (o : UseDatasetOptions) (attempt : Z) (err : Thrown) (w : World) :
  isMountedRef w = true ->
  attempt < maxRetries o ->
  loadData_settle o attempt (Throw err) w
  = setLoading false
      (setError (Some (errorMessage_of err +:+ " (retrying in "
                       +:+ Num.toString (ceil_seconds (calculateRetryDelay o attempt))
                       +:+ "s...)"))
         (setTimeout_retry attempt (calculateRetryDelay o attempt) w)).
Proof.
  intros Hm Hlt. unfold loadData_settle. rewrite Hm. simpl.
  apply Z.ltb_lt in Hlt. rewrite Hlt. unfold loadData_finally. simpl. now rewrite Hm.
Qed.

Lemma loadData_settle_failed (o : UseDatasetOptions) (attempt : Z) (err : Thrown) (w : World) :
  isMountedRef w = true ->
  maxRetries o <= attempt ->
  loadData_settle o attempt (Throw err) w
  = setLoading false
      (setRetryCount (maxRetries o) (setError (Some (errorMessage_of err)) (setData None w))).
Proof.
  intros Hm Hge. unfold loadData_settle. rewrite Hm. simpl.
  apply Z.ltb_ge in Hge. rewrite Hge. unfold loadData_finally. simpl. now rewrite Hm.
Qed.

Lemma floor_log2_integer (a : Z) : 0 < a -> Num.floor_log2 a 1 = Z.log2 a.
Proof.
  intros Ha. unfold Num.floor_log2. change (Z.log2 1) with 0. rewrite Z.sub_0_r.
  pose proof (Z.log2_nonneg a) as Hnn.
  destruct (Z.leb_spec 0 (Z.log2 a)) as [_ | Hneg]; [| lia].
  destruct (Z.leb_spec (1 * 2 ^ Z.log2 a) a) as [_ | Hlt]; [reflexivity |].
  pose proof (Z.log2_spec a Ha). lia.
Qed.

Lemma Qred_inject_Z (z : Z) : Qred (inject_Z z) = inject_Z z.
Proof.
  unfold Qred, inject_Z.
  pose proof (Z.ggcd_gcd z 1) as Hg.
  pose proof (Z.ggcd_correct_divisors z 1) as Hd.
  destruct (Z.ggcd z 1) as (g & q1 & q2). cbn [fst snd] in *.
  rewrite Z.gcd_1_r in Hg. subst g. destruct Hd as [Hz H1].
  rewrite Z.mul_1_l in Hz, H1. subst q1 q2. reflexivity.
Qed.

Lemma Qred_scaled (x k : Z) : 0 < k -> Qred (x * k # Z.to_pos k) = inject_Z x.
Proof.
  intros Hk. rewrite <- Qred_inject_Z. apply Qred_complete.
  unfold Qeq, inject_Z. cbn [Qnum Qden]. rewrite Z2Pos.id by assumption. lia.
Qed.

Lemma sgn_mul_abs (z : Z) : Z.sgn z * Z.abs z = z.
Proof. destruct z; reflexivity. Qed.

(** Rounding an integer. *)
Lemma round_integer (z : Z) :
  Num.round (inject_Z z)
  = (if z =? 0 then Finite 0
     else
       let a := Z.abs z in
       let p := Z.log2 a - 52 in
       let num := if 0 <=? p then a else a * 2 ^ (- p) in
       let den := if 0 <=? p then 2 ^ p else 1 in
       let i := num / den in
       let r := num mod den in
       let i := if 2 * r <? den then i
                else if den <? 2 * r then i + 1
                else if Z.even i then i else i + 1 in
       if ((0 <=? p) && (2 ^ 1024 <=? i * 2 ^ p))%bool
       then (if 0 <? z then PosInfinity else NegInfinity)
       else Finite (if 0 <=? p then inject_Z (Z.sgn z * i * 2 ^ p)
                    else Qred (Z.sgn z * i # Z.to_pos (2 ^ (- p))))).
Proof.
  unfold Num.round, inject_Z. cbn [Qnum Qden].
  destruct (Z.eqb_spec z 0) as [| Hz]; [reflexivity |].
  rewrite floor_log2_integer by lia.
  pose proof (Z.log2_nonneg (Z.abs z)).
  rewrite Z.max_l by lia. cbv zeta.
  destruct (0 <=? Z.log2 (Z.abs z) - 52); rewrite ?Z.mul_1_l; reflexivity.
Qed.

(** An integer that is a double is rounded to itself. *)
Lemma round_double_integer (z : Z) :
  double_integer z -> Num.round (inject_Z z) = Num.of_Z z.
Proof.
  intros (m & j & Hj & Hm & Hz & Hrange). rewrite round_integer. unfold Num.of_Z.
  destruct (Z.eqb_spec z 0) as [-> | Hnz]; [reflexivity |]. cbv zeta.
  assert (m <> 0) as Hm0 by (intros ->; lia).
  assert (0 < 2 ^ j) as Hpow by (apply Z.pow_pos_nonneg; lia).
  assert (Z.abs z = Z.abs m * 2 ^ j) as Ha by (rewrite Hz, Z.abs_mul; f_equal; lia).
  assert (Z.log2 (Z.abs z) = j + Z.log2 (Z.abs m)) as HL.
  { rewrite Ha. apply Z.log2_mul_pow2; lia. }
  assert (Z.log2 (Z.abs m) < 53) as Hlog by (apply Z.log2_lt_pow2; lia).
  pose proof (Z.log2_nonneg (Z.abs m)) as Hlog0.
  destruct (Z.leb_spec 0 (Z.log2 (Z.abs z) - 52)) as [Hp | Hp]; cbv beta iota.
  - set (p := Z.log2 (Z.abs z) - 52) in *.
    assert (Z.abs z = (Z.abs m * 2 ^ (j - p)) * 2 ^ p) as Hdiv.
    { rewrite Ha, <- Z.mul_assoc, <- Z.pow_add_r by lia. do 2 f_equal. lia. }
    assert (0 < 2 ^ p) as Hpp by (apply Z.pow_pos_nonneg; lia).
    assert (Z.abs z mod 2 ^ p = 0) as -> by (rewrite Hdiv; apply Z.mod_mul; lia).
    assert (Z.abs z / 2 ^ p * 2 ^ p = Z.abs z) as Hback.
    { rewrite Hdiv at 1. rewrite Z.div_mul by lia. now rewrite <- Hdiv. }
    change (2 * 0) with 0. destruct (Z.ltb_spec 0 (2 ^ p)) as [_ | ?]; [| lia].
    rewrite Hback.
    destruct (Z.leb_spec (2 ^ 1024) (Z.abs z)) as [? | _]; [lia |]. cbn [andb].
    f_equal. f_equal. rewrite <- Z.mul_assoc, Hback. apply sgn_mul_abs.
  - rewrite Z.mod_1_r, Z.div_1_r. change (2 * 0 <? 1) with true. cbn [andb].
    f_equal. rewrite Z.mul_assoc. rewrite Qred_scaled by (apply Z.pow_pos_nonneg; lia).
    f_equal. apply sgn_mul_abs.
Qed.

(** An integer at or beyond [2^1024] is rounded to an infinity. *)
Lemma round_overflow (z : Z) :
  2 ^ 1024 <= Z.abs z -> Num.round (inject_Z z) = infinity_of z.
Proof.
  intros Hbig. rewrite round_integer. unfold infinity_of.
  assert (0 < 2 ^ 1024) as H1024 by (apply Z.pow_pos_nonneg; lia).
  destruct (Z.eqb_spec z 0) as [-> | Hnz]; [cbn [Z.abs] in Hbig; lia |]. cbv zeta.
  assert (1024 <= Z.log2 (Z.abs z)) as HL by (apply Z.log2_le_pow2; lia).
  set (p := Z.log2 (Z.abs z) - 52) in *.
  destruct (Z.leb_spec 0 p) as [Hp | Hp]; [| lia]. cbv beta iota.
  assert (0 < 2 ^ p) as Hpp by (apply Z.pow_pos_nonneg; lia).
  set (i := Z.abs z / 2 ^ p). set (r := Z.abs z mod 2 ^ p).
  assert (2 ^ 52 <= i) as Hi.
  { apply Z.div_le_lower_bound; [lia |].
    rewrite Z.mul_comm, <- Z.pow_add_r by lia.
    replace (52 + p) with (Z.log2 (Z.abs z)) by lia.
    apply Z.log2_spec. lia. }
  assert (2 ^ 1024 <= 2 ^ 52 * 2 ^ p) as Hprod.
  { rewrite <- Z.pow_add_r by lia. apply Z.pow_le_mono_r; lia. }
  assert (forall i', i <= i' -> (2 ^ 1024 <=? i' * 2 ^ p) = true) as Hover.
  { intros i' Hi'. apply Z.leb_le. nia. }
  cbn [andb].
  destruct (2 * r <? 2 ^ p); [now rewrite Hover by lia |].
  destruct (2 ^ p <? 2 * r); [now rewrite Hover by lia |].
  destruct (Z.even i); now rewrite Hover by lia.
Qed.

Lemma mul_of_Z (a b : Z) :
  Num.mul (Num.of_Z a) (Num.of_Z b) = Num.round (inject_Z (a * b)).
Proof. reflexivity. Qed.

Lemma pow2_in_range (e : Z) : 0 <= e < 1024 -> Math.pow2 e = Num.of_Z (2 ^ e).
Proof.
  intros He. unfold Math.pow2.
  destruct (Z.leb_spec 1024 e); [lia |].
  destruct (Z.ltb_spec e (-1074)); [lia |].
  destruct (Z.leb_spec 0 e); [reflexivity | lia].
Qed.

Lemma pow2_beyond (e : Z) : 1024 <= e -> Math.pow2 e = PosInfinity.
Proof. intros He. unfold Math.pow2. destruct (Z.leb_spec 1024 e); [reflexivity | lia]. Qed.

Lemma mul_infinity (a : Z) :
  Num.mul (Num.of_Z a) PosInfinity = if a =? 0 then NaN else infinity_of a.
Proof. destruct a; reflexivity. Qed.

Lemma double_integer_scaled (r e : Z) :
  double_integer r -> 0 <= e -> Z.abs (r * 2 ^ e) < 2 ^ 1024 -> double_integer (r * 2 ^ e).
Proof.
  intros (m & j & Hj & Hm & -> & _) He Hrange.
  exists m, (j + e). repeat split; try lia.
  rewrite Z.pow_add_r by lia. lia.
Qed.

(** The delay under exponential backoff, case by case. *)
Lemma calculateRetryDelay_backoff (o : UseDatasetOptions) (n : Z) :
  1 <= n ->
  double_integer (retryDelay o) ->
  exponentialBackoff o = true ->
  calculateRetryDelay o n
  = if (retryDelay o =? 0) && (1025 <=? n) then NaN
    else if 2 ^ 1024 <=? Z.abs (retryDelay o * 2 ^ (n - 1)) then infinity_of (retryDelay o)
    else Num.of_Z (retryDelay o * 2 ^ (n - 1)).
Proof.
  intros Hn Hdouble Hexp. unfold calculateRetryDelay. rewrite Hexp. cbn [negb].
  assert (0 < 2 ^ (n - 1)) as Hpow by (apply Z.pow_pos_nonneg; lia).
  assert (0 < 2 ^ 1024) as H1024 by (apply Z.pow_pos_nonneg; lia).
  destruct (Z.leb_spec 1025 n) as [Hbeyond | Hwithin].
  - rewrite pow2_beyond, mul_infinity by lia.
    destruct (Z.eqb_spec (retryDelay o) 0) as [Hzero | Hnz]; [reflexivity |]. cbn [andb].
    assert (2 ^ 1024 <= 2 ^ (n - 1)) by (apply Z.pow_le_mono_r; lia).
    destruct (Z.leb_spec (2 ^ 1024) (Z.abs (retryDelay o * 2 ^ (n - 1)))) as [_ | Hlt];
      [reflexivity |].
    rewrite Z.abs_mul in Hlt. nia.
  - rewrite andb_false_r, pow2_in_range, mul_of_Z by lia.
    destruct (Z.leb_spec (2 ^ 1024) (Z.abs (retryDelay o * 2 ^ (n - 1)))) as [Hbig | Hsmall].
    + rewrite round_overflow by assumption. unfold infinity_of.
      destruct (Z.ltb_spec 0 (retryDelay o * 2 ^ (n - 1))), (Z.ltb_spec 0 (retryDelay o));
        try reflexivity; nia.
    + apply round_double_integer. apply double_integer_scaled; [assumption | lia | assumption].
Qed.

(** C2, amended. For every attempt number [n >= 1] and every
    [retryDelay] that is an integer double, the delay is the flat
    [retryDelay] without backoff; with backoff it is
    [retryDelay * 2^(n-1)] as long as that product stays below [2^1024]
    in magnitude, it starts at [retryDelay] and doubles with each attempt
    in that range; beyond the range it is the infinity of the sign of
    [retryDelay], and for a [retryDelay] of 0 it is [NaN] from attempt
    1025 on. It is the delay of the timer the controller sets when
    attempt [n] fails with retries left; and with [retryDelay = 1000] and
    backoff on, attempts 1, 2, 3 wait 1000, 2000 and 4000 ms. *)
Theorem retry_delay_backoff (o : UseDatasetOptions) (n : Z) (Hn : 1 <= n)
    (Hdouble : double_integer (retryDelay o)) :
  (exponentialBackoff o = false -> calculateRetryDelay o n = Num.of_Z (retryDelay o))
  /\ (exponentialBackoff o = true ->
      (Z.abs (retryDelay o * 2 ^ (n - 1)) < 2 ^ 1024 ->
       retryDelay o <> 0 \/ n <= 1024 ->
       calculateRetryDelay o n = Num.of_Z (retryDelay o * 2 ^ (n - 1)))
      /\ (2 ^ 1024 <= Z.abs (retryDelay o * 2 ^ (n - 1)) ->
          calculateRetryDelay o n = infinity_of (retryDelay o))
      /\ (retryDelay o = 0 -> 1025 <= n -> calculateRetryDelay o n = NaN))
  /\ (exponentialBackoff o = true ->
      calculateRetryDelay o 1 = Num.of_Z (retryDelay o)
      /\ (Z.abs (retryDelay o * 2 ^ n) < 2 ^ 1024 ->
          retryDelay o <> 0 \/ n < 1024 ->
          calculateRetryDelay o n = Num.of_Z (retryDelay o * 2 ^ (n - 1))
          /\ calculateRetryDelay o (n + 1) = Num.of_Z (2 * (retryDelay o * 2 ^ (n - 1)))))
  /\ (forall (w : World) (err : Thrown),
        isMountedRef w = true -> n < maxRetries o ->
        exists t : Timer,
          pending_timers (loadData_settle o n (Throw err) w) = pending_timers w ++ [t]
          /\ timer_attempt t = n
          /\ timer_delay t = calculateRetryDelay o n)
  /\ (retryDelay o = 1000 -> exponentialBackoff o = true ->
      calculateRetryDelay o 1 = Num.of_Z 1000
      /\ calculateRetryDelay o 2 = Num.of_Z 2000
      /\ calculateRetryDelay o 3 = Num.of_Z 4000).
Proof.
  assert (0 < 2 ^ 1024) as H1024 by (apply Z.pow_pos_nonneg; lia).
  assert (forall k, 1 <= k -> exponentialBackoff o = true ->
                    Z.abs (retryDelay o * 2 ^ (k - 1)) < 2 ^ 1024 ->
                    retryDelay o <> 0 \/ k <= 1024 ->
                    calculateRetryDelay o k = Num.of_Z (retryDelay o * 2 ^ (k - 1)))
    as Hformula.
  { intros k Hk Hexp Hrange Hcase.
    rewrite calculateRetryDelay_backoff by assumption.
    destruct (Z.leb_spec (2 ^ 1024) (Z.abs (retryDelay o * 2 ^ (k - 1)))); [lia |].
    destruct (Z.eqb_spec (retryDelay o) 0), (Z.leb_spec 1025 k); try reflexivity; lia. }
  split; [| split; [| split; [| split]]].
  - unfold calculateRetryDelay. intros ->. reflexivity.
  - intros Hexp. split; [| split].
    + now apply Hformula.
    + intros Hbig. rewrite calculateRetryDelay_backoff by assumption.
      destruct (Z.leb_spec (2 ^ 1024) (Z.abs (retryDelay o * 2 ^ (n - 1)))); [| lia].
      destruct (Z.eqb_spec (retryDelay o) 0) as [Hzero | _]; [| reflexivity].
      rewrite Hzero in Hbig. cbn [Z.mul Z.abs] in Hbig. lia.
    + intros Hzero Hbeyond. rewrite calculateRetryDelay_backoff by assumption.
      rewrite Hzero. destruct (Z.leb_spec 1025 n); [reflexivity | lia].
  - intros Hexp. split.
    + rewrite Hformula; try lia; try assumption.
      * change (2 ^ (1 - 1)) with 1. now rewrite Z.mul_1_r.
      * change (2 ^ (1 - 1)) with 1. rewrite Z.mul_1_r.
        destruct Hdouble as (_ & _ & _ & _ & _ & Hrange). exact Hrange.
    + intros Hrange Hcase.
      assert (2 ^ n = 2 * 2 ^ (n - 1)) as Hdouble_pow.
      { replace n with (Z.succ (n - 1)) at 1 by lia. apply Z.pow_succ_r. lia. }
      assert (0 < 2 ^ (n - 1)) as Hpow by (apply Z.pow_pos_nonneg; lia).
      split.
      * apply Hformula; try assumption; [| lia].
        rewrite Z.abs_mul in *. rewrite Hdouble_pow in Hrange. nia.
      * rewrite Hformula; try assumption; try lia.
        -- replace (n + 1 - 1) with n by lia. rewrite Hdouble_pow. f_equal. lia.
        -- replace (n + 1 - 1) with n by lia. exact Hrange.
  - intros w err Hm Hlt. eexists. rewrite loadData_settle_retry by assumption.
    simpl. split; [reflexivity | split; reflexivity].
  - unfold calculateRetryDelay. intros -> ->. repeat split; vm_compute; reflexivity.
Qed.

Lemma retry_delay_backoff_witness :
  1 <= 3
  /\ double_integer (retryDelay no_options)
  /\ calculateRetryDelay no_options 3 = Num.of_Z (retryDelay no_options * 2 ^ (3 - 1))
  /\ calculateRetryDelay no_options 3 = Num.of_Z 4000.
Proof.
  assert (double_integer (retryDelay no_options)) as Hdouble.
  { exists 1000, 0. repeat split; vm_compute; congruence. }
  split; [lia |]. split; [exact Hdouble |].
  destruct (retry_delay_backoff no_options 3 ltac:(lia) Hdouble)
    as (_ & Hexp & _ & _ & Hdefault).
  split.
  - apply Hexp; [reflexivity | vm_compute; reflexivity | right; lia].
  - apply Hdefault; reflexivity.
Defined.

(** C2, as claimed, fails beyond the range of the doubles. With the
    default [retryDelay] of 1000 the delay of attempt 1015 is still
    [1000 * 2^1014], that of attempt 1016 is [Infinity]; with a
    [retryDelay] of 0 the delay of attempt 1025 is [NaN], not 0. A hook
    with [retryDelay: 0] and [maxRetries: 2000] gets there at once: after
    1025 failures in a row it announces a retry in [NaN] seconds. *)
Lemma retry_delay_leaves_the_formula :
  calculateRetryDelay no_options 1015 = Num.of_Z (1000 * 2 ^ 1014)
  /\ calculateRetryDelay no_options 1016 = PosInfinity
  /\ calculateRetryDelay zero_delay_options 1024 = Num.of_Z 0
  /\ calculateRetryDelay zero_delay_options 1025 = NaN
  /\ error (run_cycle zero_delay_options (repeat (Throw network_failure) 1025) 0 1
              (mounted_world ∅ 0))
     = Some (ERROR_MESSAGES NETWORK_ERROR +:+ " (retrying in NaNs...)").
Proof.
  repeat split; vm_compute; reflexivity.
Qed.

(** ** The cache *)

Lemma loadData_settle_success (o : UseDatasetOptions) (attempt : Z)
    (datasets : list JsValue) (w : World) :
  isMountedRef w = true ->
  loadData_settle o attempt (Normal datasets) w
  = setLoading false
      (setCachedData datasets (setRetryCount 0 (setError None (setData (Some datasets) w)))).
Proof.
  intros Hm. unfold loadData_settle. rewrite Hm. simpl.
  unfold loadData_finally. simpl. now rewrite Hm.
Qed.

(** C3. A [load()] (that is [loadData(1)]) of a mounted hook, issued
    while the cache holds an entry with [now - timestamp < cacheDuration],
    finishes without calling the loader, with the cached data, no error,
    [retryCount = 0] and [loading = false]; issued once the entry has
    expired it calls the loader. The entry is the one a success writes:
    the loaded data stamped with the time of the write. *)
Theorem cache_hit_skips_loader (o : UseDatasetOptions) (w : World) (entry : CacheEntry)
    (Hmounted : isMountedRef w = true)
    (Hentry : dataCache w !! CACHE_KEY = Some entry) :
  (now w - timestamp entry < cacheDuration o ->
   exists w' : World,
     loadData_begin o 1 w = Finished w'
     /\ data w' = Some (cached_data entry)
     /\ error w' = None
     /\ retryCount w' = 0
     /\ loading w' = false
     /\ loader_calls w' = loader_calls w
     /\ dataCache w' = dataCache w)
  /\ (cacheDuration o <= now w - timestamp entry ->
      exists w' : World,
        loadData_begin o 1 w = AwaitingLoader w'
        /\ loader_calls w' = S (loader_calls w)
        /\ loading w' = true)
  /\ (forall (attempt : Z) (datasets : list JsValue) (w0 : World),
        isMountedRef w0 = true ->
        dataCache (loadData_settle o attempt (Normal datasets) w0) !! CACHE_KEY
        = Some {| cached_data := datasets; timestamp := now w0 |}).
Proof.
  split; [| split].
  - intros Hfresh. unfold loadData_begin, getCachedData, isCacheValid.
    rewrite Hmounted, Hentry. simpl.
    apply Z.ltb_lt in Hfresh. rewrite Hfresh. simpl.
    eexists. split; [reflexivity |]. simpl. repeat split.
  - intros Hexpired. unfold loadData_begin, getCachedData, isCacheValid.
    rewrite Hmounted, Hentry. simpl.
    apply Z.ltb_ge in Hexpired. rewrite Hexpired.
    eexists. split; [reflexivity |]. simpl. split; reflexivity.
  - intros attempt datasets w0 Hm. rewrite loadData_settle_success by assumption.
    simpl. apply lookup_insert_eq.
Qed.

(** A success at time [t0] followed by a [load()] at time [t1]. *)
Corollary load_after_success (o : UseDatasetOptions) (attempt t1 : Z)
    (datasets : list JsValue) (w0 : World) :
  isMountedRef w0 = true ->
  let w := set_now t1 (loadData_settle o attempt (Normal datasets) w0) in
  (t1 - now w0 < cacheDuration o ->
   exists w', loadData_begin o 1 w = Finished w'
              /\ data w' = Some datasets /\ loader_calls w' = loader_calls w)
  /\ (cacheDuration o <= t1 - now w0 ->
      exists w', loadData_begin o 1 w = AwaitingLoader w'
                 /\ loader_calls w' = S (loader_calls w)).
Proof.
  intros Hm w.
  assert (Hw : isMountedRef w = true).
  { subst w. rewrite loadData_settle_success by assumption. exact Hm. }
  assert (He : dataCache w !! CACHE_KEY = Some {| cached_data := datasets; timestamp := now w0 |}).
  { subst w. rewrite loadData_settle_success by assumption. simpl. apply lookup_insert_eq. }
  assert (Hn : now w = t1) by reflexivity.
  unfold loadData_begin, getCachedData, isCacheValid. rewrite Hw, He, Hn. simpl.
  split; intros H.
  - apply Z.ltb_lt in H. rewrite H. simpl. eexists. split; [reflexivity |]. simpl.
    split; reflexivity.
  - apply Z.ltb_ge in H. rewrite H. eexists. split; reflexivity.
Qed.

Lemma cache_hit_skips_loader_witness :
  exists w' : World,
    loadData_begin no_options 1 (mounted_world {[ CACHE_KEY := sample_entry ]} 2000) = Finished w'
    /\ data w' = Some getFallbackDatasets.
Proof.
  destruct (cache_hit_skips_loader no_options
              (mounted_world {[ CACHE_KEY := sample_entry ]} 2000) sample_entry
              eq_refl (lookup_singleton_eq _ _)) as (Hhit & _ & _).
  destruct (Hhit ltac:(vm_compute; reflexivity)) as (w' & Hbegin & Hdata & _).
  exists w'. split; assumption.
Defined.

(** ** Failures *)

Lemma parse_failure_from_loader :
  result (loadDatasets
            {| settles_after := Some 5;
               outcome := Throw (ThrowError (Error "Unexpected token } in JSON at position 10")) |})
  = Throw parse_failure.
Proof. vm_compute. reflexivity. Qed.

(** C1, as claimed, fails: a [PARSE_ERROR] (recoverable flag false) on
    attempt 1 with the default options does not end in Failed. A timer of
    1000 ms for a second attempt is set, the data shown is kept, and the
    cycle calls the loader three times in all. *)
Lemma nonrecoverable_failure_is_retried :
  recoverable_flag parse_failure = Some false
  /\ isMountedRef reloading_world = true
  /\ pending_timers reloading_world = []
  /\ pending_timers (loadData_settle no_options 1 (Throw parse_failure) reloading_world)
     = [ {| timer_id := 1; timer_delay := Num.of_Z 1000; timer_set_at := 0;
            timer_attempt := 1 |} ]
  /\ data (loadData_settle no_options 1 (Throw parse_failure) reloading_world) <> None
  /\ error (loadData_settle no_options 1 (Throw parse_failure) reloading_world)
     = Some "The data format is invalid. Please contact support if this problem persists. (retrying in 1s...)"
  /\ loader_calls
       (run_cycle no_options [Throw parse_failure; Throw parse_failure; Throw parse_failure]
          0 1 (mounted_world ∅ 0))
     = 3%nat.
Proof.
  split; [reflexivity |]. split; [reflexivity |]. split; [reflexivity |].
  split; [vm_compute; reflexivity |].
  split; [discriminate |].
  split; vm_compute; reflexivity.
Qed.

Lemma loadData_begin_calls_loader (o : UseDatasetOptions) (attempt : Z) (w : World) :
  isMountedRef w = true ->
  getCachedData o w = None \/ attempt <> 1 ->
  loadData_begin o attempt w
  = AwaitingLoader (call_loadDatasets (setRetryCount (attempt - 1) (setLoading true w))).
Proof.
  intros Hm Hc. unfold loadData_begin. rewrite Hm. simpl.
  destruct (getCachedData o w) as [cachedData |]; [| reflexivity].
  destruct Hc as [Hc | Hc]; [discriminate |].
  apply Z.eqb_neq in Hc. now rewrite Hc.
Qed.

(** C1, amended. A failure of the loader, whatever its recoverable flag
    (so also when it is false), ends the cycle in Failed exactly when the
    failing attempt is the last one ([attempt >= maxRetries]): then no
    timer is set, the loader is not called again in the cycle, the data
    is cleared, the error message is surfaced and [retryCount] is
    [maxRetries]. On an earlier attempt a retry timer is set with the
    computed delay, the data is kept and the annotated message is
    surfaced. *)
Theorem failure_fails_on_last_attempt (o : UseDatasetOptions) (attempt : Z) (err : Thrown)
    (w : World) (Hmounted : isMountedRef w = true) :
  let w' := loadData_settle o attempt (Throw err) w in
  (maxRetries o <= attempt ->
   pending_timers w' = pending_timers w
   /\ retryTimeoutRef w' = retryTimeoutRef w
   /\ loader_calls w' = loader_calls w
   /\ data w' = None
   /\ error w' = Some (errorMessage_of err)
   /\ retryCount w' = maxRetries o
   /\ loading w' = false)
  /\ (maxRetries o <= attempt ->
      forall (rest : list (Completion (list JsValue))) (elapsed : Z),
        pending_timers w = [] ->
        getCachedData o w = None \/ attempt <> 1 ->
        loader_calls (run_cycle o (Throw err :: rest) elapsed attempt w) = S (loader_calls w))
  /\ (attempt < maxRetries o ->
      pending_timers w'
      = pending_timers w ++ [ {| timer_id := S (timers_created w);
                                 timer_delay := calculateRetryDelay o attempt;
                                 timer_set_at := now w; timer_attempt := attempt |} ]
      /\ retryTimeoutRef w' = Some (S (timers_created w))
      /\ data w' = data w
      /\ error w' = Some (errorMessage_of err +:+ " (retrying in "
                          +:+ Num.toString (ceil_seconds (calculateRetryDelay o attempt))
                          +:+ "s...)")
      /\ loading w' = false).
Proof.
  intros w'. split; [| split].
  - intros Hlast. subst w'. rewrite loadData_settle_failed by assumption.
    simpl. repeat split.
  - intros Hlast rest elapsed Hnone Hcache.
    simpl. rewrite loadData_begin_calls_loader by assumption.
    rewrite loadData_settle_failed by (simpl; assumption).
    simpl. rewrite Hnone. reflexivity.
  - intros Hearlier. subst w'. rewrite loadData_settle_retry by assumption.
    simpl. repeat split.
Qed.

Lemma failure_fails_on_last_attempt_witness :
  isMountedRef reloading_world = true
  /\ data (loadData_settle no_options 3 (Throw parse_failure) reloading_world) = None
  /\ data (loadData_settle no_options 1 (Throw parse_failure) reloading_world)
     = data reloading_world.
Proof.
  split; [reflexivity |].
  destruct (failure_fails_on_last_attempt no_options 3 parse_failure reloading_world eq_refl)
    as (Hlast & _ & _).
  destruct (failure_fails_on_last_attempt no_options 1 parse_failure reloading_world eq_refl)
    as (_ & _ & Hfirst).
  split.
  - apply Hlast. unfold maxRetries. simpl. lia.
  - apply Hfirst. unfold maxRetries. simpl. lia.
Defined.

(** ** The existence probe *)

Lemma race_timeout_normal {A : Type} (p : Pending A) (ms : Z) (msg : string) (a : A) :
  race_timeout p ms msg = Normal a
  <-> exists t : Z, settles_after p = Some t /\ t < ms /\ outcome p = Normal a.
Proof.
  unfold race_timeout. split.
  - destruct (settles_after p) as [t |]; [| discriminate].
    destruct (Z.ltb_spec t ms); [| discriminate].
    intros H'. exists t. auto.
  - intros (t & -> & Hlt & Hout). apply Z.ltb_lt in Hlt. now rewrite Hlt.
Qed.

Lemma getAssetPath_csv (name : string) :
  Str.endsWith name ".csv" = true ->
  getAssetPath name = Normal ("public/assets/samples/" +:+ name).
Proof.
  intros Hcsv. unfold getAssetPath.
  destruct (String.eqb_spec name EmptyString) as [-> | _]; [discriminate |].
  rewrite Hcsv. reflexivity.
Qed.

Lemma getAssetPath_not_csv (name : string) :
  Str.endsWith name ".csv" = false -> exists err, getAssetPath name = Throw err.
Proof.
  intros Hcsv. unfold getAssetPath. rewrite Hcsv.
  destruct (String.eqb name EmptyString); eauto.
Qed.

(** C8. For every file name, of any type and content, [checkFileExists]
    returns a boolean and never throws. The boolean is [true] exactly
    when the name is a string ending in [.csv] and the [HEAD] request for
    [public/assets/samples/<name>] settles before the 5000 ms timer with
    a response whose status is in 200..299; a name that is not a string,
    is empty or does not end in [.csv], a rejected request, a request
    that is late or never settles, and a status outside 200..299 (404
    for one) all give [false]. *)
Theorem checkFileExists_never_throws (fetch_head : string -> Pending Response)
    (filename : JsValue) :
  exists b : bool,
    checkFileExists fetch_head filename = Normal b
    /\ (b = true <->
        exists (name : string) (t : Z) (response : Response),
          filename = JString name
          /\ Str.endsWith name ".csv" = true
          /\ settles_after (fetch_head ("public/assets/samples/" +:+ name)) = Some t
          /\ t < 5000
          /\ outcome (fetch_head ("public/assets/samples/" +:+ name)) = Normal response
          /\ 200 <= status response <= 299)
    /\ ((forall name : string, filename <> JString name) -> b = false)
    /\ (filename = JString EmptyString -> b = false)
    /\ (forall name : string,
          filename = JString name -> Str.endsWith name ".csv" = false -> b = false)
    /\ (forall name : string,
          filename = JString name ->
          ((exists err, outcome (fetch_head ("public/assets/samples/" +:+ name)) = Throw err)
           \/ settles_after (fetch_head ("public/assets/samples/" +:+ name)) = None
           \/ (exists t, settles_after (fetch_head ("public/assets/samples/" +:+ name)) = Some t
                         /\ 5000 <= t)
           \/ (exists response,
                 outcome (fetch_head ("public/assets/samples/" +:+ name)) = Normal response
                 /\ (status response < 200 \/ 299 < status response))) ->
          b = false).
Proof.
  fold (probe_succeeds fetch_head filename).
  assert (Hcases :
    exists b : bool, checkFileExists fetch_head filename = Normal b
                     /\ (b = true <-> probe_succeeds fetch_head filename)).
  { unfold checkFileExists, probe_succeeds.
    destruct filename as [| | b | n | name | l | m];
      try (exists false; split; [reflexivity |];
           split; [discriminate | intros (? & ? & ? & ? & _); discriminate]).
    - simpl. destruct b; exists false; (split; [reflexivity |]);
        (split; [discriminate | intros (? & ? & ? & ? & _); discriminate]).
    - simpl. destruct n as [q | | |]; try destruct (Qeq_bool q 0);
        exists false; (split; [reflexivity |]);
        (split; [discriminate | intros (? & ? & ? & ? & _); discriminate]).
    - simpl. destruct (String.eqb_spec name EmptyString) as [-> | Hne].
      + exists false. split; [reflexivity |].
        split; [discriminate |].
        intros (n' & t & r & Heq & Hcsv & _). injection Heq as <-. discriminate.
      + simpl. destruct (Str.endsWith name ".csv") eqn:Hcsv.
        * rewrite (getAssetPath_csv name Hcsv). simpl.
          destruct (race_timeout (fetch_head ("public/assets/samples/" +:+ name)) 5000
                      "File check timeout") as [response | err] eqn:Hrace.
          -- simpl. exists (ok response). split; [reflexivity |].
             apply race_timeout_normal in Hrace. destruct Hrace as (t & Ht & Hlt & Hout).
             unfold ok. rewrite andb_true_iff, !Z.leb_le. split.
             ++ intros Hok. exists name, t, response. auto 10.
             ++ intros (n' & t' & r & Heq & _ & Ht' & _ & Hout' & Hstatus).
                injection Heq as <-.
                rewrite Hout in Hout'. injection Hout' as <-. exact Hstatus.
          -- simpl. exists false. split; [reflexivity |].
             split; [discriminate |].
             intros (n' & t' & r & Heq & _ & Ht' & Hlt & Hout' & _).
             injection Heq as <-.
             assert (Hn : race_timeout (fetch_head ("public/assets/samples/" +:+ name)) 5000
                            "File check timeout" = Normal r).
             { apply race_timeout_normal. exists t'. auto. }
             rewrite Hrace in Hn. discriminate.
        * destruct (getAssetPath_not_csv name Hcsv) as (err & ->).
          simpl. exists false. split; [reflexivity |].
          split; [discriminate |].
          intros (n' & t' & r & Heq & Hcsv' & _).
          injection Heq as <-. rewrite Hcsv in Hcsv'. discriminate. }
  destruct Hcases as (b & Hb & Hiff). exists b.
  split; [exact Hb |]. split; [exact Hiff |].
  assert (Hfalse : ~ probe_succeeds fetch_head filename -> b = false).
  { intros Hn. destruct b; [| reflexivity]. exfalso. apply Hn, Hiff. reflexivity. }
  split; [| split; [| split]].
  - intros Hns. apply Hfalse. intros (name & _ & _ & Heq & _). exact (Hns name Heq).
  - intros ->. apply Hfalse. intros (name & _ & _ & Heq & Hcsv & _).
    injection Heq as <-. discriminate.
  - intros name -> Hcsv. apply Hfalse. intros (n' & _ & _ & Heq & Hcsv' & _).
    injection Heq as <-. rewrite Hcsv in Hcsv'. discriminate.
  - intros name -> Hbad. apply Hfalse.
    intros (n' & t & r & Heq & _ & Ht & Hlt & Hout & Hstatus).
    injection Heq as <-.
    destruct Hbad as [(err & He) | [Hnever | [(t' & Ht' & Hlate) | (r' & Hr' & Hbad)]]].
    + rewrite He in Hout. discriminate.
    + rewrite Hnever in Ht. discriminate.
    + rewrite Ht' in Ht. injection Ht as ->. lia.
    + rewrite Hr' in Hout. injection Hout as ->. lia.
Qed.

Lemma checkFileExists_never_throws_witness :
  checkFileExists us_sample_only (JString "us-postal-codes-sample.csv") = Normal true
  /\ checkFileExists us_sample_only (JString "fr-postal-codes-sample.csv") = Normal false.
Proof.
  destruct (checkFileExists_never_throws us_sample_only (JString "us-postal-codes-sample.csv"))
    as (b & Hb & Htrue & _).
  destruct (checkFileExists_never_throws us_sample_only (JString "fr-postal-codes-sample.csv"))
    as (b' & Hb' & _ & _ & _ & _ & Hfalse).
  split.
  - rewrite Hb. f_equal. apply Htrue.
    exists "us-postal-codes-sample.csv", 120, {| status := 200; statusText := "OK" |}.
    repeat split; vm_compute; congruence.
  - rewrite Hb'. f_equal. apply (Hfalse "fr-postal-codes-sample.csv" eq_refl).
    right. right. right. exists {| status := 404; statusText := "Not Found" |}.
    split; [reflexivity | right; reflexivity].
Defined.

(** A probe that succeeds: the sample of the United States is there. *)
Example checkFileExists_200 :
  checkFileExists us_sample_only (JString "us-postal-codes-sample.csv") = Normal true.
Proof. reflexivity. Qed.

(** The scenario of the specification: the probe for the French sample
    answers 404. *)
Example checkFileExists_404 :
  checkFileExists
    (fun _ => {| settles_after := Some 120;
                 outcome := Normal {| status := 404; statusText := "Not Found" |} |})
    (JString "fr-postal-codes-sample.csv")
  = Normal false.
Proof. reflexivity. Qed.

(** ** Reports *)

Lemma report_app_nil_r (r : Report) : report_app r ([], []) = r.
Proof. destruct r as [es ws]. unfold report_app. simpl. now rewrite !app_nil_r. Qed.

Lemma report_app_nil_l (r : Report) : report_app ([], []) r = r.
Proof. destruct r as [es ws]. reflexivity. Qed.

Lemma report_app_assoc (a b c : Report) :
  report_app (report_app a b) c = report_app a (report_app b c).
Proof. unfold report_app. simpl. now rewrite <- !app_assoc. Qed.

Lemma pushes_only_compose (f g : Report -> Report) :
  pushes_only f -> pushes_only g -> pushes_only (fun r => g (f r)).
Proof.
  intros Hf Hg r. rewrite Hg, Hf. rewrite (Hg (f ([], []))).
  now rewrite report_app_assoc.
Qed.

(** Every branch of a validator step is a sequence of pushes. *)
Ltac pushes_by_cases :=
  intros [es ws]; cbv zeta;
  repeat case_match;
  unfold push_error, push_warning, report_app; simpl;
  rewrite ?app_nil_r, <- ?app_assoc; reflexivity.

Lemma pushes_only_validate_string (validation : FieldValidation) (value : JsValue)
    (fieldPath stringValue : string) :
  pushes_only (validate_string validation value fieldPath stringValue).
Proof. unfold validate_string. pushes_by_cases. Qed.

Lemma pushes_only_validate_field (dataset : JsValue) (path : string)
    (validation : FieldValidation) :
  pushes_only (validate_field dataset path validation).
Proof.
  intros r. unfold validate_field. cbv zeta.
  repeat case_match;
    try (destruct r as [es ws]; unfold push_error, report_app; simpl;
         rewrite ?app_nil_r; reflexivity).
  apply pushes_only_validate_string.
Qed.

Lemma pushes_only_validate_postalCodeCount (dataset : JsValue) (path : string) :
  pushes_only (validate_postalCodeCount dataset path).
Proof. unfold validate_postalCodeCount. pushes_by_cases. Qed.

Lemma pushes_only_validate_status (dataset : JsValue) (path : string) :
  pushes_only (validate_status dataset path).
Proof. unfold validate_status. pushes_by_cases. Qed.

Lemma pushes_only_fold (dataset : JsValue) (path : string) (vs : list FieldValidation) :
  pushes_only (fun r => fold_left (fun r v => validate_field dataset path v r) vs r).
Proof.
  induction vs as [| v vs IH]; simpl.
  - intros r. now rewrite report_app_nil_r.
  - apply (pushes_only_compose (validate_field dataset path v)
             (fun r => fold_left (fun r v => validate_field dataset path v r) vs r)).
    + apply pushes_only_validate_field.
    + exact IH.
Qed.

(** The findings of one entry of the table, of the count and of the
    status, each from an empty report. *)
Lemma record_report (dataset : JsValue) (path : string) :
  not_an_object dataset = false ->
  validateDatasetDetailed dataset path
  = verdict
      (report_app
         (fold_right (fun v acc => report_app (validate_field dataset path v ([], [])) acc)
            ([], []) fieldValidations)
         (report_app (validate_postalCodeCount dataset path ([], []))
            (validate_status dataset path ([], [])))).
Proof.
  intros Hobj. unfold validateDatasetDetailed. rewrite Hobj. f_equal.
  rewrite pushes_only_validate_status, pushes_only_validate_postalCodeCount.
  rewrite report_app_assoc. f_equal.
  generalize fieldValidations. intros vs.
  induction vs as [| v vs IH]; [reflexivity |].
  simpl. rewrite (pushes_only_fold dataset path vs), pushes_only_validate_field.
  rewrite report_app_nil_l, <- IH. reflexivity.
Qed.

(** ** What the findings of a record say *)

Ltac findings_by_cases :=
  cbv zeta; repeat case_match;
  unfold push_error, push_warning; simpl;
  intros e He;
  repeat match goal with
         | H : _ \/ _ |- _ => destruct H
         | H : False |- _ => destruct H
         | H : _ = e |- _ => subst e
         end;
  split; simpl; congruence.

Lemma validate_field_about (dataset : JsValue) (path : string) (v : FieldValidation) :
  let r := validate_field dataset path v ([], []) in
  forall e, In e (r.1 ++ r.2) -> about dataset (v_field v) e.
Proof.
  unfold validate_field, validate_string, about.
  remember (Js.get dataset (v_field v)) as x eqn:Hx.
  findings_by_cases.
Qed.


Lemma validate_status_about (dataset : JsValue) (path : string) :
  let r := validate_status dataset path ([], []) in
  forall e, In e (r.1 ++ r.2) -> about dataset "status" e.
Proof.
  unfold validate_status, about.
  remember (Js.get dataset "status") as x eqn:Hx.
  findings_by_cases.
Qed.

(** The errors and warnings of an object, field by field. *)
Lemma record_errors (dataset : JsValue) (path : string) :
  not_an_object dataset = false ->
  errors (validateDatasetDetailed dataset path)
  = concat (List.map (fun v => (validate_field dataset path v ([], [])).1) fieldValidations)
    ++ (validate_postalCodeCount dataset path ([], [])).1
    ++ (validate_status dataset path ([], [])).1.
Proof.
  intros Hobj. rewrite record_report by assumption. simpl.
  now rewrite !app_nil_r, <- !app_assoc.
Qed.

Lemma record_warnings (dataset : JsValue) (path : string) :
  not_an_object dataset = false ->
  warnings (validateDatasetDetailed dataset path)
  = concat (List.map (fun v => (validate_field dataset path v ([], [])).2) fieldValidations)
    ++ (validate_postalCodeCount dataset path ([], [])).2
    ++ (validate_status dataset path ([], [])).2.
Proof.
  intros Hobj. rewrite record_report by assumption. simpl.
  now rewrite !app_nil_r, <- !app_assoc.
Qed.

Lemma isValid_errors (dataset : JsValue) (path : string) :
  isValid (validateDatasetDetailed dataset path) = true
  <-> errors (validateDatasetDetailed dataset path) = [].
Proof.
  unfold validateDatasetDetailed. destruct (not_an_object dataset); simpl.
  - split; discriminate.
  - unfold verdict. simpl. rewrite Nat.eqb_eq. apply length_zero_iff_nil.
Qed.

Lemma table_fields :
  List.map v_field fieldValidations
  = ["id"; "countryName"; "countryCode"; "region"; "sampleFileName"].
Proof. reflexivity. Qed.


(** ** The verdict does not depend on the path *)

Ltac same_findings := cbv zeta; repeat case_match; reflexivity.

Lemma validate_field_findings (dataset : JsValue) (p1 p2 : string) (v : FieldValidation) :
  List.map finding (validate_field dataset p1 v ([], [])).1
  = List.map finding (validate_field dataset p2 v ([], [])).1.
Proof. unfold validate_field, validate_string. same_findings. Qed.

Lemma validate_postalCodeCount_findings (dataset : JsValue) (p1 p2 : string) :
  List.map finding (validate_postalCodeCount dataset p1 ([], [])).1
  = List.map finding (validate_postalCodeCount dataset p2 ([], [])).1.
Proof. unfold validate_postalCodeCount. same_findings. Qed.

Lemma validate_status_findings (dataset : JsValue) (p1 p2 : string) :
  List.map finding (validate_status dataset p1 ([], [])).1
  = List.map finding (validate_status dataset p2 ([], [])).1.
Proof. unfold validate_status. same_findings. Qed.

Lemma record_findings (dataset : JsValue) (p1 p2 : string) :
  not_an_object dataset = false ->
  List.map finding (errors (validateDatasetDetailed dataset p1))
  = List.map finding (errors (validateDatasetDetailed dataset p2)).
Proof.
  intros Hobj. rewrite !record_errors by assumption.
  rewrite !map_app, !concat_map, !map_map.
  rewrite (validate_postalCodeCount_findings dataset p1 p2).
  rewrite (validate_status_findings dataset p1 p2).
  f_equal. f_equal. apply map_ext. intros v. apply validate_field_findings.
Qed.

Lemma isValid_path (dataset : JsValue) (p1 p2 : string) :
  isValid (validateDatasetDetailed dataset p1) = isValid (validateDatasetDetailed dataset p2).
Proof.
  destruct (not_an_object dataset) eqn:Hobj.
  - unfold validateDatasetDetailed. now rewrite Hobj.
  - pose proof (record_findings dataset p1 p2 Hobj) as Hsame.
    apply (f_equal (@length _)) in Hsame. rewrite !length_map in Hsame.
    unfold validateDatasetDetailed in *. rewrite Hobj in *.
    unfold verdict in *. simpl in *. now rewrite Hsame.
Qed.

(** ** The count of postal codes *)

Lemma count_findings_only (dataset : JsValue) (path : string) (e : ValidationError) :
  not_an_object dataset = false ->
  field e = "postalCodeCount" ->
  (In e (errors (validateDatasetDetailed dataset path))
   <-> In e (validate_postalCodeCount dataset path ([], [])).1)
  /\ (In e (warnings (validateDatasetDetailed dataset path))
      <-> In e (validate_postalCodeCount dataset path ([], [])).2).
Proof.
  intros Hobj Hfield.
  rewrite record_errors, record_warnings by assumption.
  assert (Hnot_field : forall l,
            In l (List.map (fun v => (validate_field dataset path v ([], [])).1) fieldValidations)
            \/ In l (List.map (fun v => (validate_field dataset path v ([], [])).2) fieldValidations) ->
            ~ In e l).
  { intros l Hl He.
    assert (Hv : exists v, In v fieldValidations
                           /\ In e ((validate_field dataset path v ([], [])).1
                                    ++ (validate_field dataset path v ([], [])).2)).
    { destruct Hl as [Hl | Hl]; apply in_map_iff in Hl; destruct Hl as (v & <- & Hv);
        exists v; (split; [exact Hv |]); apply in_app_iff; [now left | now right]. }
    destruct Hv as (v & Hv & Hin).
    destruct (validate_field_about dataset path v e Hin) as [Hf _].
    assert (Hname : In (v_field v) (List.map v_field fieldValidations)) by now apply in_map.
    rewrite table_fields, <- Hf, Hfield in Hname. simpl in Hname.
    intuition discriminate. }
  assert (Hnot_status : ~ In e ((validate_status dataset path ([], [])).1
                                ++ (validate_status dataset path ([], [])).2)).
  { intros Hin. destruct (validate_status_about dataset path e Hin) as [Hf _].
    rewrite Hfield in Hf. discriminate. }
  rewrite in_app_iff in Hnot_status.
  rewrite !in_app_iff, !in_concat. split; split.
  - intros [(l & Hl & He) | [He | He]]; [| exact He | tauto].
    exfalso. apply (Hnot_field l); auto.
  - tauto.
  - intros [(l & Hl & He) | [He | He]]; [| exact He | tauto].
    exfalso. apply (Hnot_field l); auto.
  - tauto.
Qed.

Lemma gt_excludes_le_0 (n : number) :
  Num.gt n (Num.of_Z 10000000) = true -> Num.le n (Num.of_Z 0) = false.
Proof.
  destruct n as [q | | |]; simpl; try reflexivity; try discriminate.
  intros Hgt. apply negb_true_iff in Hgt.
  destruct (Qle_bool q (inject_Z 0)) eqn:Hle; [| reflexivity].
  apply Qle_bool_iff in Hle.
  assert (Hle' : Qle_bool q (inject_Z 10000000) = true).
  { apply Qle_bool_iff. eapply Qle_trans; [exact Hle |]. unfold Qle. simpl. lia. }
  rewrite Hle' in Hgt. discriminate.
Qed.

(** C5. For every record (an object) the count is checked as follows: a
    missing value ([undefined] or [null]), a value that is not a number,
    a number that is not an integer and an integer [<= 0] each give an
    error on [postalCodeCount] (so 0 does); the value 1 gives no
    finding on [postalCodeCount]; an integer above 10,000,000 (so
    10,000,001) gives no error on [postalCodeCount] but a warning on it. *)
Theorem postalCodeCount_checks (dataset : JsValue) (path : string)
    (Hobject : not_an_object dataset = false) :
  let r := validateDatasetDetailed dataset path in
  let count := Js.get dataset "postalCodeCount" in
  ((Js.nullish count = true
    \/ (forall n, count <> JNumber n)
    \/ (exists n, count = JNumber n /\ Num.isInteger n = false)
    \/ (exists n, count = JNumber n /\ Num.le n (Num.of_Z 0) = true)
    \/ count = JNumber (Num.of_Z 0)) ->
   isValid r = false
   /\ exists e, In e (errors r) /\ field e = "postalCodeCount" /\ value e = count)
  /\ (count = JNumber (Num.of_Z 1) ->
      forall e, In e (errors r ++ warnings r) -> field e <> "postalCodeCount")
  /\ (forall n,
        count = JNumber n -> Num.isInteger n = true ->
        Num.gt n (Num.of_Z 10000000) = true ->
        (forall e, In e (errors r) -> field e <> "postalCodeCount")
        /\ exists w, In w (warnings r) /\ field w = "postalCodeCount" /\ value w = count)
  /\ (count = JNumber (Num.of_Z 10000001) ->
      (forall e, In e (errors r) -> field e <> "postalCodeCount")
      /\ exists w, In w (warnings r) /\ field w = "postalCodeCount").
Proof.
  intros r count.
  assert (Herror :
    (exists e, In e (validate_postalCodeCount dataset path ([], [])).1
               /\ field e = "postalCodeCount" /\ value e = count) ->
    isValid r = false
    /\ exists e, In e (errors r) /\ field e = "postalCodeCount" /\ value e = count).
  { intros (e & He & Hf & Hv).
    assert (Hin : In e (errors r)).
    { apply (count_findings_only dataset path e Hobject Hf). exact He. }
    split; [| exists e; auto].
    destruct (isValid r) eqn:Hvalid; [| reflexivity].
    apply isValid_errors in Hvalid. subst r. rewrite Hvalid in Hin. destruct Hin. }
  assert (Hlarge : forall n,
        count = JNumber n -> Num.isInteger n = true ->
        Num.gt n (Num.of_Z 10000000) = true ->
        (forall e, In e (errors r) -> field e <> "postalCodeCount")
        /\ exists w, In w (warnings r) /\ field w = "postalCodeCount" /\ value w = count).
  { intros n Hn Hint Hgt.
    pose (w := {| field := "postalCodeCount"; value := count;
                  message := "Field " +:+ quoted "postalCodeCount"
                             +:+ " seems unusually high (>10M)";
                  path := Some (path +:+ ".postalCodeCount") |}).
    assert (Hfind : validate_postalCodeCount dataset path ([], []) = ([], [w])).
    { unfold validate_postalCodeCount. fold count. rewrite Hn. cbn [Js.nullish].
      rewrite Hint, (gt_excludes_le_0 n Hgt), Hgt. unfold w. rewrite Hn. reflexivity. }
    split.
    - intros e He Hf.
      apply (count_findings_only dataset path e Hobject Hf) in He.
      rewrite Hfind in He. destruct He.
    - exists w. split; [| split; reflexivity].
      apply (count_findings_only dataset path w Hobject); [reflexivity |].
      rewrite Hfind. left. reflexivity. }
  split; [| split; [| split]].
  - intros Hbad. apply Herror.
    unfold validate_postalCodeCount. fold count.
    destruct Hbad as [Hnull | [Hnan | [(n & Hn & Hint) | [(n & Hn & Hle) | Hzero]]]].
    + rewrite Hnull. simpl. eexists. split; [left; reflexivity | split; reflexivity].
    + destruct (Js.nullish count);
        [simpl; eexists; split; [left; reflexivity | split; reflexivity] |].
      destruct count as [| | b | n | s | l | m];
        try (simpl; eexists; split; [left; reflexivity | split; reflexivity]).
      exfalso. exact (Hnan n eq_refl).
    + rewrite Hn. cbn [Js.nullish]. rewrite Hint. cbn [negb].
      eexists. split; [left; reflexivity | split; reflexivity].
    + rewrite Hn. cbn [Js.nullish]. destruct (Num.isInteger n); cbn [negb].
      * rewrite Hle. eexists. split; [left; reflexivity | split; reflexivity].
      * eexists. split; [left; reflexivity | split; reflexivity].
    + rewrite Hzero. simpl. eexists. split; [left; reflexivity | split; reflexivity].
  - intros Hone e He Hf.
    assert (Hfind : validate_postalCodeCount dataset path ([], []) = ([], [])).
    { unfold validate_postalCodeCount. fold count. rewrite Hone. reflexivity. }
    apply in_app_iff in He. destruct He as [He | He];
      apply (count_findings_only dataset path e Hobject Hf) in He;
      rewrite Hfind in He; destruct He.
  - exact Hlarge.
  - intros Hn. destruct (Hlarge _ Hn eq_refl eq_refl) as [Hno (w & Hw & Hf & _)].
    split; [exact Hno | exists w; auto].
Qed.

Lemma postalCodeCount_checks_witness :
  not_an_object (record_with "us" "US" (JNumber (Num.of_Z 0))) = false
  /\ isValid (validateDatasetDetailed (record_with "us" "US" (JNumber (Num.of_Z 0))) "dataset")
     = false.
Proof.
  split; [reflexivity |].
  destruct (postalCodeCount_checks (record_with "us" "US" (JNumber (Num.of_Z 0))) "dataset"
              eq_refl) as (Hbad & _).
  apply Hbad. right. right. right. right. reflexivity.
Defined.

(** ** Required fields and records that satisfy all rules *)

Lemma validate_field_missing (dataset : JsValue) (path : string) (v : FieldValidation) :
  v_required v = true ->
  Js.nullish (Js.get dataset (v_field v)) = true ->
  (validate_field dataset path v ([], [])).1
  = [ missing_error path (v_field v) (Js.get dataset (v_field v)) ].
Proof.
  intros Hreq Hnull. unfold validate_field. cbv zeta. rewrite Hreq, Hnull. reflexivity.
Qed.

Lemma table_required : Forall (fun v => v_required v = true) fieldValidations.
Proof. repeat constructor. Qed.

Lemma missing_field_error (dataset : JsValue) (path name : string) :
  not_an_object dataset = false ->
  In name record_fields ->
  Js.nullish (Js.get dataset name) = true ->
  In (missing_error path name (Js.get dataset name))
     (errors (validateDatasetDetailed dataset path)).
Proof.
  intros Hobj Hname Hnull. rewrite record_errors by assumption.
  assert (Htable : forall v, In v fieldValidations -> v_field v = name ->
            In (missing_error path name (Js.get dataset name))
               (concat (List.map (fun v => (validate_field dataset path v ([], [])).1)
                          fieldValidations))).
  { intros v Hv Hf. apply in_concat.
    exists (validate_field dataset path v ([], [])).1. split.
    - apply in_map_iff. exists v. auto.
    - rewrite validate_field_missing.
      + rewrite Hf. left. reflexivity.
      + exact (proj1 (List.Forall_forall _ _) table_required v Hv).
      + rewrite Hf. exact Hnull. }
  unfold record_fields in Hname. simpl in Hname.
  destruct Hname as [<- | [<- | [<- | [<- | [<- | [<- | [<- | []]]]]]]].
  - apply in_app_iff. left.
    assert (Hin : In "id" (List.map v_field fieldValidations)) by (simpl; tauto).
    apply in_map_iff in Hin. destruct Hin as (v & Hf & Hv). exact (Htable v Hv Hf).
  - apply in_app_iff. left.
    assert (Hin : In "countryName" (List.map v_field fieldValidations)) by (simpl; tauto).
    apply in_map_iff in Hin. destruct Hin as (v & Hf & Hv). exact (Htable v Hv Hf).
  - apply in_app_iff. left.
    assert (Hin : In "countryCode" (List.map v_field fieldValidations)) by (simpl; tauto).
    apply in_map_iff in Hin. destruct Hin as (v & Hf & Hv). exact (Htable v Hv Hf).
  - apply in_app_iff. left.
    assert (Hin : In "region" (List.map v_field fieldValidations)) by (simpl; tauto).
    apply in_map_iff in Hin. destruct Hin as (v & Hf & Hv). exact (Htable v Hv Hf).
  - apply in_app_iff. left.
    assert (Hin : In "sampleFileName" (List.map v_field fieldValidations)) by (simpl; tauto).
    apply in_map_iff in Hin. destruct Hin as (v & Hf & Hv). exact (Htable v Hv Hf).
  - apply in_app_iff. right. apply in_app_iff. left.
    unfold validate_postalCodeCount. cbv zeta. rewrite Hnull. left. reflexivity.
  - apply in_app_iff. right. apply in_app_iff. right.
    unfold validate_status. cbv zeta. rewrite Hnull. left. reflexivity.
Qed.

Lemma below_min_met (m : nat) (s : string) :
  (m <= String.length s)%nat -> below_min (Some m) s = None.
Proof.
  intros Hle. unfold below_min.
  destruct (Nat.ltb_spec (String.length s) m); [lia |].
  now rewrite andb_false_r.
Qed.

(** A string field that meets its rule gives no error. *)
Lemma validate_field_ok (dataset : JsValue) (path : string) (v : FieldValidation) (min : nat) :
  v_type v = "string" ->
  (v_minLength v = None \/ v_minLength v = Some min) ->
  string_rule dataset (v_field v) min (v_pattern v) ->
  (validate_field dataset path v ([], [])).1 = [].
Proof.
  intros Htype Hmin (s & Hget & Htrim & Hlen & Hpat).
  unfold validate_field. cbv zeta. rewrite Hget, Htype.
  cbn [Js.nullish Js.typeof andb negb]. rewrite andb_false_r.
  cbn [String.eqb Ascii.eqb Bool.eqb negb].
  unfold validate_string. cbv zeta.
  apply String.eqb_neq in Htrim. rewrite Htrim.
  assert (Hbelow : below_min (v_minLength v) s = None).
  { destruct Hmin as [-> | ->]; [reflexivity | now apply below_min_met]. }
  rewrite Hbelow.
  assert (Hfails : pattern_fails (v_pattern v) s = false).
  { unfold pattern_fails. destruct (v_pattern v); [now rewrite Hpat | reflexivity]. }
  rewrite Hfails.
  destruct (above_max (v_maxLength v) s); reflexivity.
Qed.

Lemma satisfies_all_rules_no_error (dataset : JsValue) (path : string) :
  satisfies_all_rules dataset ->
  errors (validateDatasetDetailed dataset path) = [].
Proof.
  intros [Hobj Hid Hname Hcode Hregion Hfile (n & Hcount & Hint & Hpos) (s & Hstatus & Hin)].
  rewrite record_errors by assumption.
  unfold fieldValidations. cbn [List.map concat].
  erewrite (validate_field_ok _ _ _ 0%nat); [| reflexivity | left; reflexivity | exact Hid].
  erewrite (validate_field_ok _ _ _ 2%nat); [| reflexivity | right; reflexivity | exact Hname].
  erewrite (validate_field_ok _ _ _ 0%nat); [| reflexivity | left; reflexivity | exact Hcode].
  erewrite (validate_field_ok _ _ _ 2%nat); [| reflexivity | right; reflexivity | exact Hregion].
  erewrite (validate_field_ok _ _ _ 0%nat); [| reflexivity | left; reflexivity | exact Hfile].
  cbn [app].
  assert (Hc : (validate_postalCodeCount dataset path ([], [])).1 = []).
  { unfold validate_postalCodeCount. cbv zeta. rewrite Hcount. cbn [Js.nullish].
    rewrite Hint. cbn [negb].
    assert (Hle : Num.le n (Num.of_Z 0) = false).
    { destruct n as [q | | |]; try discriminate. simpl in *.
      now apply negb_true_iff in Hpos. }
    rewrite Hle. destruct (Num.gt n (Num.of_Z 10000000)); reflexivity. }
  assert (Hs : (validate_status dataset path ([], [])).1 = []).
  { unfold validate_status. cbv zeta. rewrite Hstatus. cbn [Js.nullish].
    assert (Hex : existsb (String.eqb s) validStatuses = true).
    { apply existsb_exists. exists s. split; [exact Hin | apply String.eqb_refl]. }
    rewrite Hex. reflexivity. }
  rewrite Hc, Hs. reflexivity.
Qed.

Lemma large_record_satisfies_all_rules :
  satisfies_all_rules (record_with "us" "US" (JNumber (Num.of_Z 10000001))).
Proof.
  split; try reflexivity.
  - exists "us". repeat split; [discriminate | simpl; lia].
  - exists "United States". repeat split; [discriminate | simpl; lia].
  - exists "US". repeat split; [discriminate | simpl; lia].
  - exists "North America". repeat split; [discriminate | simpl; lia].
  - exists "us-postal-codes-sample.csv". repeat split; [discriminate | simpl; lia].
  - exists (Num.of_Z 10000001). repeat split.
  - exists "active". split; [reflexivity | simpl; auto].
Qed.

Lemma large_count_warning (path : string) :
  exists w, In w (warnings (validateDatasetDetailed
                              (record_with "us" "US" (JNumber (Num.of_Z 10000001))) path)).
Proof.
  rewrite record_warnings by reflexivity.
  eexists. apply in_app_iff. right. apply in_app_iff. left. left. reflexivity.
Qed.

(** C6. For every record (an object) in which one of the seven required
    fields is missing ([undefined] or [null]), the validator returns
    [isValid = false] and an error naming that field, with the message
    that the required field is missing. For every record satisfying all
    rules it returns [isValid = true] and no error; such a record can
    still carry warnings. *)
Theorem required_fields_and_valid_records (dataset : JsValue) (path : string) :
  (forall name : string,
     not_an_object dataset = false ->
     In name record_fields ->
     Js.nullish (Js.get dataset name) = true ->
     isValid (validateDatasetDetailed dataset path) = false
     /\ exists e, In e (errors (validateDatasetDetailed dataset path))
                  /\ field e = name
                  /\ message e = "Required field " +:+ quoted name +:+ " is missing")
  /\ (satisfies_all_rules dataset ->
      isValid (validateDatasetDetailed dataset path) = true
      /\ errors (validateDatasetDetailed dataset path) = [])
  /\ (exists large : JsValue,
        satisfies_all_rules large
        /\ isValid (validateDatasetDetailed large path) = true
        /\ errors (validateDatasetDetailed large path) = []
        /\ warnings (validateDatasetDetailed large path) <> []).
Proof.
  split; [| split].
  - intros name Hobj Hname Hnull.
    pose proof (missing_field_error dataset path name Hobj Hname Hnull) as Hin.
    split.
    + destruct (isValid (validateDatasetDetailed dataset path)) eqn:Hvalid; [| reflexivity].
      apply isValid_errors in Hvalid. rewrite Hvalid in Hin. destruct Hin.
    + eexists. split; [exact Hin | split; reflexivity].
  - intros Hrules.
    pose proof (satisfies_all_rules_no_error dataset path Hrules) as Hnone.
    split; [now apply isValid_errors | exact Hnone].
  - exists (record_with "us" "US" (JNumber (Num.of_Z 10000001))).
    pose proof large_record_satisfies_all_rules as Hrules.
    pose proof (satisfies_all_rules_no_error _ path Hrules) as Hnone.
    split; [exact Hrules |].
    split; [now apply isValid_errors |].
    split; [exact Hnone |].
    destruct (large_count_warning path) as (w & Hw). intros Hnil.
    rewrite Hnil in Hw. destruct Hw.
Qed.

Lemma required_fields_and_valid_records_witness :
  not_an_object record_without_region = false
  /\ In "region" record_fields
  /\ Js.nullish (Js.get record_without_region "region") = true
  /\ isValid (validateDatasetDetailed record_without_region "dataset") = false.
Proof.
  split; [reflexivity |]. split; [unfold record_fields; simpl; tauto |].
  split; [reflexivity |].
  destruct (required_fields_and_valid_records record_without_region "dataset")
    as (Hmissing & _).
  apply (Hmissing "region"); [reflexivity | unfold record_fields; simpl; tauto | reflexivity].
Defined.

(** ** Filtering *)

Lemma filter_loop_spec (datasets : list JsValue) :
  forall (i : nat) (valid_acc : list JsValue) (invalid_acc : list InvalidEntry),
    filter_loop datasets i valid_acc invalid_acc
    = (valid_acc ++ List.filter validateDataset datasets,
       invalid_acc ++ rejected datasets i).
Proof.
  induction datasets as [| d rest IH]; intros i valid_acc invalid_acc; simpl.
  - now rewrite !app_nil_r.
  - unfold validateDataset at 1.
    rewrite (isValid_path d "dataset" ("dataset[" +:+ Str.of_nat i +:+ "]")).
    destruct (isValid (validateDatasetDetailed d ("dataset[" +:+ Str.of_nat i +:+ "]"))).
    + rewrite IH, <- app_assoc. reflexivity.
    + rewrite IH, <- app_assoc. reflexivity.
Qed.

Lemma filterValidDatasets_spec (datasets : list JsValue) :
  filterValidDatasets datasets
  = {| valid := List.filter validateDataset datasets;
       invalid := rejected datasets 0;
       totalProcessed := length datasets |}.
Proof. unfold filterValidDatasets. now rewrite filter_loop_spec. Qed.

Lemma rejected_datasets (datasets : list JsValue) :
  forall i : nat,
    List.map inv_dataset (rejected datasets i)
    = List.filter (fun d => negb (validateDataset d)) datasets.
Proof.
  induction datasets as [| d rest IH]; intros i; simpl; [reflexivity |].
  unfold validateDataset at 1.
  rewrite (isValid_path d "dataset" ("dataset[" +:+ Str.of_nat i +:+ "]")).
  destruct (isValid (validateDatasetDetailed d ("dataset[" +:+ Str.of_nat i +:+ "]")));
    simpl; now rewrite IH.
Qed.


Lemma filter_lengths {A : Type} (f : A -> bool) (l : list A) :
  (length (List.filter f l) + length (List.filter (fun x => negb (f x)) l))%nat = length l.
Proof.
  induction l as [| x l IH]; simpl; [reflexivity |].
  destruct (f x); simpl; lia.
Qed.


(** The scenario of the specification: six records, one with the
    status [bogus]. *)
Example filter_six_records :
  let bogus :=
    Js.object
      [ ("id", JString "fr"); ("countryName", JString "France");
        ("countryCode", JString "FR"); ("postalCodeCount", JNumber (Num.of_Z 36684));
        ("region", JString "Europe"); ("status", JString "bogus");
        ("sampleFileName", JString "fr-postal-codes-sample.csv") ] in
  let r := filterValidDatasets
             [ record_with "us" "US" (JNumber (Num.of_Z 41692));
               record_with "de" "DE" (JNumber (Num.of_Z 16475));
               bogus;
               record_with "jp" "JP" (JNumber (Num.of_Z 15040));
               record_with "gb" "GB" (JNumber (Num.of_Z 28851));
               record_with "ca" "CA" (JNumber (Num.of_Z 100)) ] in
  length (valid r) = 5%nat
  /\ List.map (fun entry => List.map (fun e => (field e, message e)) (inv_errors entry))
       (invalid r)
     = [ [ ("status", "Field " +:+ quoted "status"
                      +:+ " must be one of: active, inactive, coming-soon") ] ].
Proof. vm_compute. split; reflexivity. Qed.

(** ** The fallback record and recovery *)

Lemma fallback_satisfies_all_rules :
  Forall satisfies_all_rules getFallbackDatasets.
Proof.
  repeat constructor; try reflexivity.
  - exists "us". repeat split; [discriminate | simpl; lia].
  - exists "United States". repeat split; [discriminate | simpl; lia].
  - exists "US". repeat split; [discriminate | simpl; lia].
  - exists "North America". repeat split; [discriminate | simpl; lia].
  - exists "us-postal-codes-sample.csv". repeat split; [discriminate | simpl; lia].
  - exists (Num.of_Z 41692). repeat split.
  - exists "active". split; [reflexivity | simpl; auto].
Qed.

Lemma filter_all_valid (l : list JsValue) :
  Forall (fun d => validateDataset d = true) l -> List.filter validateDataset l = l.
Proof.
  induction 1 as [| d l Hd Hl IH]; simpl; [reflexivity |].
  now rewrite Hd, IH.
Qed.

Lemma fallback_valid :
  Forall (fun d => validateDataset d = true) getFallbackDatasets.
Proof.
  eapply Forall_impl; [exact fallback_satisfies_all_rules |].
  intros d Hrules. apply isValid_errors.
  now apply satisfies_all_rules_no_error.
Qed.

Lemma fallback_filtered :
  valid (filterValidDatasets getFallbackDatasets) = getFallbackDatasets.
Proof.
  rewrite filterValidDatasets_spec. cbn [valid].
  apply filter_all_valid, fallback_valid.
Qed.

(** C10. [getFallbackDatasets()] returns exactly one record; the
    validator finds no error in it, whatever the path; so
    [filterValidDatasets] keeps it and [valid] is not empty; and for
    every error whose recoverable flag is true, [attemptRecovery] returns
    the fallback records, a list that is not empty, whatever the
    emergency cache holds. *)
Theorem fallback_recovery_succeeds (originalError : JsError) (storage : EmergencyCache)
    (Hrecoverable : recoverable_of originalError = true) :
  length getFallbackDatasets = 1%nat
  /\ (forall (d : JsValue) (path : string),
        In d getFallbackDatasets ->
        isValid (validateDatasetDetailed d path) = true
        /\ errors (validateDatasetDetailed d path) = [])
  /\ valid (filterValidDatasets getFallbackDatasets) = getFallbackDatasets
  /\ invalid (filterValidDatasets getFallbackDatasets) = []
  /\ valid (filterValidDatasets getFallbackDatasets) <> []
  /\ attemptRecovery originalError storage = Normal getFallbackDatasets
  /\ (forall l, attemptRecovery originalError storage = Normal l -> l <> []).
Proof.
  assert (Hrecover : attemptRecovery originalError storage = Normal getFallbackDatasets).
  { unfold attemptRecovery. rewrite Hrecoverable. cbv zeta.
    rewrite fallback_filtered. reflexivity. }
  split; [reflexivity |].
  split.
  { intros d path Hin.
    pose proof (proj1 (List.Forall_forall _ _) fallback_satisfies_all_rules d Hin) as Hrules.
    pose proof (satisfies_all_rules_no_error d path Hrules) as Hnone.
    split; [now apply isValid_errors | exact Hnone]. }
  split; [exact fallback_filtered |].
  split.
  { rewrite filterValidDatasets_spec. cbn [invalid].
    pose proof (rejected_datasets getFallbackDatasets 0) as Hrej.
    pose proof (filter_lengths validateDataset getFallbackDatasets) as Hlen.
    rewrite <- Hrej, length_map, (filter_all_valid _ fallback_valid) in Hlen.
    apply length_zero_iff_nil. lia. }
  split; [rewrite fallback_filtered; discriminate |].
  split; [exact Hrecover |].
  intros l Hl. rewrite Hrecover in Hl. injection Hl as <-. discriminate.
Qed.

Lemma fallback_recovery_succeeds_witness :
  recoverable_of (DataLoaderError "No valid datasets found. Using fallback data."
                    (Some (Error "All datasets failed validation"))
                    (Some VALIDATION_ERROR) true) = true
  /\ attemptRecovery
       (DataLoaderError "No valid datasets found. Using fallback data."
          (Some (Error "All datasets failed validation"))
          (Some VALIDATION_ERROR) true) NoItem
     = Normal getFallbackDatasets.
Proof.
  split; [reflexivity |].
  apply (fallback_recovery_succeeds
           (DataLoaderError "No valid datasets found. Using fallback data."
              (Some (Error "All datasets failed validation"))
              (Some VALIDATION_ERROR) true) NoItem eq_refl).
Defined.

(** ** Loading *)

Lemma collection_isValid_errors (data : JsValue) (cv : ValidationResult) :
  validateDatasetCollectionDetailed data = Normal cv ->
  (isValid cv = true <-> errors cv = []).
Proof.
  unfold validateDatasetCollectionDetailed.
  destruct (not_an_object data).
  - intros [= <-]. simpl. split; discriminate.
  - destruct (call_hasOwnProperty data "datasets") as [has_datasets | t]; [| discriminate].
    simpl.
    destruct (call_hasOwnProperty data "metadata") as [has_metadata | t]; [| discriminate].
    simpl. intros [= <-]. unfold verdict. simpl.
    rewrite Nat.eqb_eq. apply length_zero_iff_nil.
Qed.


(** ** Schema validation: duplicates *)

Lemma trim_empty : Str.trim EmptyString = EmptyString.
Proof. reflexivity. Qed.

(** A required string field without error holds a string that is not
    blank. *)
Lemma validate_field_clean (dataset : JsValue) (path : string) (v : FieldValidation) :
  v_required v = true ->
  v_type v = "string" ->
  (validate_field dataset path v ([], [])).1 = [] ->
  exists s : string, Js.get dataset (v_field v) = JString s /\ s <> EmptyString.
Proof.
  intros Hreq Htype. unfold validate_field. cbv zeta. rewrite Hreq, Htype.
  destruct (Js.get dataset (v_field v)) as [| | b | n | s | l | m];
    cbn [Js.nullish Js.typeof andb negb]; try discriminate.
  cbn [String.eqb Ascii.eqb Bool.eqb negb].
  unfold validate_string. cbv zeta.
  destruct (String.eqb (Str.trim s) EmptyString) eqn:Htrim; [discriminate |].
  intros _. exists s. split; [reflexivity |].
  intros ->. rewrite trim_empty in Htrim. discriminate.
Qed.

Lemma valid_record_keys (dataset : JsValue) :
  validateDataset dataset = true ->
  exists id cc : string,
    Js.get dataset "id" = JString id /\ id <> EmptyString
    /\ Js.get dataset "countryCode" = JString cc /\ cc <> EmptyString.
Proof.
  unfold validateDataset. intros Hvalid.
  assert (Hobj : not_an_object dataset = false).
  { unfold validateDatasetDetailed in Hvalid.
    destruct (not_an_object dataset); [discriminate | reflexivity]. }
  apply isValid_errors in Hvalid. rewrite record_errors in Hvalid by assumption.
  unfold fieldValidations in Hvalid. cbn [List.map concat] in Hvalid.
  apply app_eq_nil in Hvalid. destruct Hvalid as [Hfields _].
  apply app_eq_nil in Hfields. destruct Hfields as [Hid Hfields].
  apply app_eq_nil in Hfields. destruct Hfields as [_ Hfields].
  apply app_eq_nil in Hfields. destruct Hfields as [Hcc _].
  apply validate_field_clean in Hid; [| reflexivity | reflexivity].
  apply validate_field_clean in Hcc; [| reflexivity | reflexivity].
  destruct Hid as (id & Hgid & Hnid). destruct Hcc as (cc & Hgcc & Hncc).
  exists id, cc. auto.
Qed.

Lemma valid_record_key_of (dataset : JsValue) :
  validateDataset dataset = true ->
  exists id cc : string,
    key_of "id" dataset = Some id /\ Js.get dataset "id" = JString id
    /\ key_of "countryCode" dataset = Some cc /\ Js.get dataset "countryCode" = JString cc.
Proof.
  intros Hvalid. destruct (valid_record_keys dataset Hvalid) as (id & cc & Hid & _ & Hcc & _).
  exists id, cc. unfold key_of. rewrite Hvalid, Hid, Hcc. auto.
Qed.

Lemma key_of_invalid (name : string) (dataset : JsValue) :
  validateDataset dataset = false -> key_of name dataset = None.
Proof. intros Hinvalid. unfold key_of. now rewrite Hinvalid. Qed.

Lemma truthy_string (s : string) : s <> EmptyString -> Js.truthy (JString s) = true.
Proof. intros Hne. simpl. apply String.eqb_neq in Hne. now rewrite Hne. Qed.

Lemma seen_again (s : string) (seen : gset string) : s ∈ seen -> seen = {[ s ]} ∪ seen.
Proof. set_solver. Qed.

(** One turn of the loop, spelt out: the findings of the record, then a
    duplicate-id error and a duplicate-code warning for keys seen before;
    the keys of a valid record join the sets. *)
Lemma schema_step_spec (i : nat) (dataset : JsValue) (st : SchemaState) :
  let validation := validateDatasetDetailed dataset ("datasets[" +:+ Str.of_nat i +:+ "]") in
  schema_step i dataset st
  = {| report :=
         ((report st).1 ++ errors validation
          ++ seen_before (key_of "id" dataset) (datasetIds st) (duplicate_id i),
          (report st).2 ++ warnings validation
          ++ seen_before (key_of "countryCode" dataset) (countryCodes st)
               (duplicate_countryCode i));
       datasetIds := seen_with (key_of "id" dataset) (datasetIds st);
       countryCodes := seen_with (key_of "countryCode" dataset) (countryCodes st) |}.
Proof.
  intros validation. unfold schema_step. fold validation.
  assert (Hsame : isValid validation = validateDataset dataset).
  { unfold validation, validateDataset. apply isValid_path. }
  rewrite Hsame.
  destruct (validateDataset dataset) eqn:Hvalid.
  - destruct (valid_record_keys dataset Hvalid) as (id & cc & Hid & Hnid & Hcc & Hncc).
    unfold key_of. rewrite Hvalid, Hid, Hcc.
    rewrite (truthy_string id Hnid), (truthy_string cc Hncc).
    cbn [andb report datasetIds countryCodes seen_before seen_with].
    unfold push_errors, push_warnings, push_error, push_warning.
    destruct (decide (id ∈ datasetIds st)) as [Hseen_id | Hseen_id];
      [rewrite !(bool_decide_eq_true_2 _ Hseen_id)
      | rewrite !(bool_decide_eq_false_2 _ Hseen_id)];
      cbn [report datasetIds countryCodes fst snd];
      (destruct (decide (cc ∈ countryCodes st)) as [Hseen_cc | Hseen_cc];
       [rewrite !(bool_decide_eq_true_2 _ Hseen_cc)
       | rewrite !(bool_decide_eq_false_2 _ Hseen_cc)]);
      cbn [report datasetIds countryCodes fst snd];
      rewrite ?app_nil_r, <- ?app_assoc;
      f_equal; try reflexivity; now apply seen_again.
  - rewrite !key_of_invalid by assumption.
    cbn [andb seen_before seen_with].
    unfold push_errors, push_warnings. cbn [fst snd].
    now rewrite !app_nil_r.
Qed.

Lemma schema_loop_grows (datasets : list JsValue) :
  forall (i : nat) (st : SchemaState),
    (exists es ws,
       report (schema_loop datasets i st) = ((report st).1 ++ es, (report st).2 ++ ws))
    /\ datasetIds st ⊆ datasetIds (schema_loop datasets i st)
    /\ countryCodes st ⊆ countryCodes (schema_loop datasets i st).
Proof.
  induction datasets as [| d rest IH]; intros i st; simpl.
  - split; [| split; reflexivity].
    exists [], []. rewrite !app_nil_r. now destruct (report st).
  - destruct (IH (S i) (schema_step i d st)) as ((es & ws & Hr) & Hids & Hccs).
    rewrite Hr. clear Hr.
    rewrite schema_step_spec in Hids, Hccs |- *. cbn [report datasetIds countryCodes] in *.
    split; [| split].
    + cbn [fst snd]. rewrite <- !app_assoc. eauto.
    + etransitivity; [| exact Hids]. unfold seen_with.
      destruct (key_of "id" d); set_solver.
    + etransitivity; [| exact Hccs]. unfold seen_with.
      destruct (key_of "countryCode" d); set_solver.
Qed.

Lemma schema_loop_keeps_errors (datasets : list JsValue) (i : nat) (st : SchemaState)
    (e : ValidationError) :
  In e (report st).1 -> In e (report (schema_loop datasets i st)).1.
Proof.
  intros Hin. destruct (schema_loop_grows datasets i st) as ((es & ws & Hr) & _).
  rewrite Hr. cbn [fst]. apply in_app_iff. now left.
Qed.

Lemma schema_loop_keeps_warnings (datasets : list JsValue) (i : nat) (st : SchemaState)
    (e : ValidationError) :
  In e (report st).2 -> In e (report (schema_loop datasets i st)).2.
Proof.
  intros Hin. destruct (schema_loop_grows datasets i st) as ((es & ws & Hr) & _).
  rewrite Hr. cbn [snd]. apply in_app_iff. now left.
Qed.

Lemma invalid_record_errors (dataset : JsValue) (path : string) :
  validateDataset dataset = false ->
  exists e, In e (errors (validateDatasetDetailed dataset path)).
Proof.
  intros Hinvalid. unfold validateDataset in Hinvalid.
  rewrite (isValid_path _ _ path) in Hinvalid.
  destruct (errors (validateDatasetDetailed dataset path)) as [| e es] eqn:Herrors.
  - apply isValid_errors in Herrors. rewrite Herrors in Hinvalid. discriminate.
  - exists e. now left.
Qed.

(** A record that fails validation leaves an error in the report. *)
Lemma schema_loop_invalid_record (datasets : list JsValue) (dataset : JsValue) :
  In dataset datasets ->
  validateDataset dataset = false ->
  forall (i : nat) (st : SchemaState),
    (report (schema_loop datasets i st)).1 <> [].
Proof.
  intros Hin Hinvalid.
  induction datasets as [| d rest IH]; intros i st; [destruct Hin |].
  simpl. destruct Hin as [-> | Hin]; [| now apply IH].
  destruct (invalid_record_errors dataset ("datasets[" +:+ Str.of_nat i +:+ "]") Hinvalid)
    as (e & He).
  assert (Hkept : In e (report (schema_loop rest (S i) (schema_step i dataset st))).1).
  { apply schema_loop_keeps_errors. rewrite schema_step_spec. cbn [report fst].
    apply in_app_iff. right. apply in_app_iff. now left. }
  intros Hnil. rewrite Hnil in Hkept. destruct Hkept.
Qed.

(** A valid record whose id is in the set when its turn comes gets a
    duplicate-id error. *)
Lemma schema_loop_seen_id (datasets : list JsValue) (dataset : JsValue) (id : string) :
  forall (k i : nat) (st : SchemaState),
    nth_error datasets k = Some dataset ->
    key_of "id" dataset = Some id ->
    id ∈ datasetIds st ->
    In (duplicate_id (i + k) id) (report (schema_loop datasets i st)).1.
Proof.
  induction datasets as [| d rest IH]; intros k i st Hk Hkey Hseen.
  - destruct k; discriminate.
  - destruct k as [| k]; simpl in Hk |- *.
    + injection Hk as ->. rewrite Nat.add_0_r.
      apply schema_loop_keeps_errors. rewrite schema_step_spec. cbn [report fst].
      rewrite Hkey. unfold seen_before. rewrite bool_decide_eq_true_2 by assumption.
      rewrite !in_app_iff. right. right. now left.
    + replace (i + S k)%nat with (S i + k)%nat by lia.
      apply IH; [exact Hk | exact Hkey |].
      rewrite schema_step_spec. cbn [datasetIds]. unfold seen_with.
      destruct (key_of "id" d); set_solver.
Qed.

Lemma schema_loop_duplicate_id (datasets : list JsValue) (d1 d2 : JsValue) (id : string) :
  forall (k1 k2 i : nat) (st : SchemaState),
    (k1 < k2)%nat ->
    nth_error datasets k1 = Some d1 ->
    nth_error datasets k2 = Some d2 ->
    key_of "id" d1 = Some id ->
    key_of "id" d2 = Some id ->
    In (duplicate_id (i + k2) id) (report (schema_loop datasets i st)).1.
Proof.
  induction datasets as [| d rest IH]; intros k1 k2 i st Hlt Hk1 Hk2 Hkey1 Hkey2.
  - destruct k1; discriminate.
  - destruct k2 as [| k2]; [lia |].
    replace (i + S k2)%nat with (S i + k2)%nat by lia.
    destruct k1 as [| k1]; simpl in Hk1, Hk2 |- *.
    + injection Hk1 as ->.
      apply (schema_loop_seen_id rest d2 id k2 (S i)); [exact Hk2 | exact Hkey2 |].
      rewrite schema_step_spec. cbn [datasetIds]. rewrite Hkey1. unfold seen_with.
      set_solver.
    + apply (IH k1 k2 (S i)); [lia | assumption ..].
Qed.

Lemma schema_loop_seen_countryCode (datasets : list JsValue) (dataset : JsValue)
    (cc : string) :
  forall (k i : nat) (st : SchemaState),
    nth_error datasets k = Some dataset ->
    key_of "countryCode" dataset = Some cc ->
    cc ∈ countryCodes st ->
    In (duplicate_countryCode (i + k) cc) (report (schema_loop datasets i st)).2.
Proof.
  induction datasets as [| d rest IH]; intros k i st Hk Hkey Hseen.
  - destruct k; discriminate.
  - destruct k as [| k]; simpl in Hk |- *.
    + injection Hk as ->. rewrite Nat.add_0_r.
      apply schema_loop_keeps_warnings. rewrite schema_step_spec. cbn [report snd].
      rewrite Hkey. unfold seen_before. rewrite bool_decide_eq_true_2 by assumption.
      rewrite !in_app_iff. right. right. now left.
    + replace (i + S k)%nat with (S i + k)%nat by lia.
      apply IH; [exact Hk | exact Hkey |].
      rewrite schema_step_spec. cbn [countryCodes]. unfold seen_with.
      destruct (key_of "countryCode" d); set_solver.
Qed.

Lemma schema_loop_duplicate_countryCode (datasets : list JsValue) (d1 d2 : JsValue)
    (cc : string) :
  forall (k1 k2 i : nat) (st : SchemaState),
    (k1 < k2)%nat ->
    nth_error datasets k1 = Some d1 ->
    nth_error datasets k2 = Some d2 ->
    key_of "countryCode" d1 = Some cc ->
    key_of "countryCode" d2 = Some cc ->
    In (duplicate_countryCode (i + k2) cc) (report (schema_loop datasets i st)).2.
Proof.
  induction datasets as [| d rest IH]; intros k1 k2 i st Hlt Hk1 Hk2 Hkey1 Hkey2.
  - destruct k1; discriminate.
  - destruct k2 as [| k2]; [lia |].
    replace (i + S k2)%nat with (S i + k2)%nat by lia.
    destruct k1 as [| k1]; simpl in Hk1, Hk2 |- *.
    + injection Hk1 as ->.
      apply (schema_loop_seen_countryCode rest d2 cc k2 (S i)); [exact Hk2 | exact Hkey2 |].
      rewrite schema_step_spec. cbn [countryCodes]. rewrite Hkey1. unfold seen_with.
      set_solver.
    + apply (IH k1 k2 (S i)); [lia | assumption ..].
Qed.

(** The loop leaves the list of errors empty exactly when it was empty,
    every record is valid, and the ids are pairwise distinct and not in
    the set at the start. *)
Lemma schema_loop_clean (datasets : list JsValue) :
  forall (i : nat) (st : SchemaState),
    (report (schema_loop datasets i st)).1 = []
    <-> (report st).1 = []
        /\ Forall (fun d => validateDataset d = true) datasets
        /\ NoDup (List.map (fun d => Js.get d "id") datasets)
        /\ (forall d id, In d datasets -> Js.get d "id" = JString id -> id ∉ datasetIds st).
Proof.
  induction datasets as [| d rest IH]; intros i st.
  - simpl. split.
    + intros Hnil. split; [exact Hnil |]. split; [constructor |].
      split; [constructor | intros d id []].
    + tauto.
  - cbn [schema_loop]. rewrite IH, schema_step_spec. cbn [report datasetIds fst].
    destruct (validateDataset d) eqn:Hvalid.
    + destruct (valid_record_key_of d Hvalid) as (id & cc & Hkey & Hid & _).
      rewrite Hkey. cbn [seen_before seen_with].
      assert (Herrors : errors (validateDatasetDetailed d ("datasets[" +:+ Str.of_nat i +:+ "]"))
                        = []).
      { apply isValid_errors. rewrite (isValid_path _ _ "dataset"). exact Hvalid. }
      rewrite Herrors. cbn [app]. split.
      * intros (Hnil & Hall & Hnodup & Hfresh).
        apply app_eq_nil in Hnil. destruct Hnil as [Hnil Hdup].
        assert (Hnew : id ∉ datasetIds st).
        { intros Hseen. rewrite bool_decide_eq_true_2 in Hdup by assumption. discriminate. }
        split; [exact Hnil |]. split; [constructor; assumption |].
        split.
        -- cbn [List.map]. rewrite Hid. apply NoDup_cons_2; [| exact Hnodup].
           intros Hin. apply list_elem_of_In, in_map_iff in Hin.
           destruct Hin as (d' & Hd' & Hin').
           apply (Hfresh d' id Hin' Hd'). set_solver.
        -- intros d' id' [<- | Hin'] Hid'.
           ++ rewrite Hid in Hid'. injection Hid' as <-. exact Hnew.
           ++ intros Hseen. apply (Hfresh d' id' Hin' Hid'). set_solver.
      * intros (Hnil & Hall & Hnodup & Hfresh).
        assert (Hnew : id ∉ datasetIds st) by (apply (Hfresh d id); [now left | exact Hid]).
        rewrite bool_decide_eq_false_2 by assumption. rewrite app_nil_r.
        split; [exact Hnil |].
        split; [now apply Forall_inv_tail in Hall |].
        cbn [List.map] in Hnodup. rewrite Hid in Hnodup.
        apply NoDup_cons in Hnodup. destruct Hnodup as [Hnotin Hnodup].
        split; [exact Hnodup |].
        intros d' id' Hin' Hid' Hseen.
        apply elem_of_union in Hseen. destruct Hseen as [Hsame | Hseen].
        -- apply elem_of_singleton in Hsame. subst id'.
           apply Hnotin. apply list_elem_of_In, in_map_iff. exists d'. auto.
        -- apply (Hfresh d' id'); [now right | exact Hid' | exact Hseen].
    + rewrite key_of_invalid by assumption. cbn [seen_before seen_with].
      destruct (invalid_record_errors d ("datasets[" +:+ Str.of_nat i +:+ "]") Hvalid)
        as (e & He).
      split.
      * intros (Hnil & _). exfalso.
        apply app_eq_nil in Hnil. destruct Hnil as [_ Hnil].
        apply app_eq_nil in Hnil. destruct Hnil as [Hnil _].
        rewrite Hnil in He. destruct He.
      * intros (_ & Hall & _). apply Forall_inv in Hall. congruence.
Qed.

(** Where the errors of the loop come from. *)
Lemma schema_loop_error_sources (datasets : list JsValue) :
  forall (i : nat) (st : SchemaState) (e : ValidationError),
    In e (report (schema_loop datasets i st)).1 ->
    In e (report st).1
    \/ (exists (k : nat) (d : JsValue),
          nth_error datasets k = Some d
          /\ In e (errors (validateDatasetDetailed d
                             ("datasets[" +:+ Str.of_nat (i + k) +:+ "]"))))
    \/ (exists (k : nat) (id : string), e = duplicate_id (i + k) id).
Proof.
  induction datasets as [| d rest IH]; intros i st e Hin.
  - left. exact Hin.
  - cbn [schema_loop] in Hin. apply IH in Hin.
    destruct Hin as [Hin | [(k & d' & Hk & Hin) | (k & id & ->)]].
    + rewrite schema_step_spec in Hin. cbn [report fst] in Hin.
      rewrite !in_app_iff in Hin. destruct Hin as [Hin | [Hin | Hin]].
      * left. exact Hin.
      * right. left. exists 0%nat, d. rewrite Nat.add_0_r. auto.
      * right. right. unfold seen_before in Hin.
        destruct (key_of "id" d) as [id |]; [| destruct Hin].
        destruct (bool_decide (id ∈ datasetIds st)); [| destruct Hin].
        destruct Hin as [<- | []]. exists 0%nat, id. now rewrite Nat.add_0_r.
    + right. left. exists (S k), d'.
      replace (i + S k)%nat with (S i + k)%nat by lia. auto.
    + right. right. exists (S k), id.
      now replace (i + S k)%nat with (S i + k)%nat by lia.
Qed.

(** [validateJsonSchema] on a document whose envelope is valid. *)
Lemma validateJsonSchema_valid_envelope (data : JsValue) (cv : ValidationResult)
    (datasets : list JsValue) :
  validateDatasetCollectionDetailed data = Normal cv ->
  isValid cv = true ->
  Js.get data "datasets" = JArray datasets ->
  validateJsonSchema data
  = Normal (verdict (report (schema_loop datasets 0
                               {| report := ([], warnings cv);
                                  datasetIds := ∅; countryCodes := ∅ |}))).
Proof.
  intros Henvelope Hvalid Hdatasets.
  unfold validateJsonSchema. rewrite Henvelope. simpl.
  rewrite Hvalid, Hdatasets.
  apply (collection_isValid_errors data cv Henvelope) in Hvalid. rewrite Hvalid.
  reflexivity.
Qed.

Lemma verdict_isValid (r : Report) : isValid (verdict r) = true <-> r.1 = [].
Proof. unfold verdict. simpl. rewrite Nat.eqb_eq. apply length_zero_iff_nil. Qed.

(** C9, as claimed, fails: of two records sharing the id [us] and the
    country code [US], the second lacks [region]. The envelope is valid,
    yet the only error reported is the missing field of the second
    record: no duplicate-id error, and no duplicate-code warning. *)
Lemma duplicate_of_invalid_record_not_reported :
  validateDatasetCollectionDetailed (collection_of records_sharing_id_one_invalid)
  = Normal clean_result
  /\ Forall (fun d => Js.get d "id" = JString "us"
                      /\ Js.get d "countryCode" = JString "US")
       records_sharing_id_one_invalid
  /\ exists r : ValidationResult,
       validateJsonSchema (collection_of records_sharing_id_one_invalid) = Normal r
       /\ List.map finding (errors r)
          = [ ("region", JUndefined, "Required field " +:+ quoted "region" +:+ " is missing") ]
       /\ (forall (k : nat) (id : string), ~ In (duplicate_id k id) (errors r))
       /\ warnings r = [].
Proof.
  split; [vm_compute; reflexivity |].
  split; [repeat constructor |].
  eexists. split; [vm_compute; reflexivity |].
  split; [reflexivity |]. split; [| reflexivity].
  intros k id [Hin | []]. discriminate.
Qed.

(** C9, amended. On a document whose envelope is valid,
    [validateJsonSchema] answers, and: (1) two records at different
    indices that share an id make the document fail, and when both are
    individually valid the errors hold a duplicate-id error for the later
    one; (2) two individually valid records that share a country code get
    a duplicate-code warning for the later one; (3) every error comes
    from the validation of one record or is a duplicate-id error;
    (4) the verdict is [true] exactly when every record is individually
    valid and the ids are pairwise distinct, so a shared country code
    changes neither the validity of a record nor the verdict. *)
Theorem duplicate_id_fails_duplicate_code_warns (data : JsValue) (cv : ValidationResult)
    (datasets : list JsValue)
    (Henvelope : validateDatasetCollectionDetailed data = Normal cv)
    (Hvalid : isValid cv = true)
    (Hdatasets : Js.get data "datasets" = JArray datasets) :
  exists r : ValidationResult,
    validateJsonSchema data = Normal r
    /\ (forall (k1 k2 : nat) (d1 d2 : JsValue) (id : string),
          (k1 < k2)%nat ->
          nth_error datasets k1 = Some d1 -> nth_error datasets k2 = Some d2 ->
          Js.get d1 "id" = JString id -> Js.get d2 "id" = JString id ->
          isValid r = false
          /\ (validateDataset d1 = true -> validateDataset d2 = true ->
              In (duplicate_id k2 id) (errors r)))
    /\ (forall (k1 k2 : nat) (d1 d2 : JsValue) (cc : string),
          (k1 < k2)%nat ->
          nth_error datasets k1 = Some d1 -> nth_error datasets k2 = Some d2 ->
          validateDataset d1 = true -> validateDataset d2 = true ->
          Js.get d1 "countryCode" = JString cc -> Js.get d2 "countryCode" = JString cc ->
          In (duplicate_countryCode k2 cc) (warnings r))
    /\ (forall e : ValidationError,
          In e (errors r) ->
          (exists (k : nat) (d : JsValue),
             nth_error datasets k = Some d
             /\ In e (errors (validateDatasetDetailed d
                                ("datasets[" +:+ Str.of_nat k +:+ "]"))))
          \/ (exists (k : nat) (id : string), e = duplicate_id k id))
    /\ (isValid r = true
        <-> Forall (fun d => validateDataset d = true) datasets
            /\ NoDup (List.map (fun d => Js.get d "id") datasets)).
Proof.
  eexists. split; [apply (validateJsonSchema_valid_envelope data cv datasets); assumption |].
  set (st := {| report := ([], warnings cv); datasetIds := ∅; countryCodes := ∅ |}).
  assert (Hverdict :
    isValid (verdict (report (schema_loop datasets 0 st))) = true
    <-> Forall (fun d => validateDataset d = true) datasets
        /\ NoDup (List.map (fun d => Js.get d "id") datasets)).
  { rewrite verdict_isValid, schema_loop_clean. subst st. cbn [report datasetIds fst].
    split.
    - intros (_ & Hall & Hnodup & _). auto.
    - intros (Hall & Hnodup). repeat split; auto. intros d id _ _. set_solver. }
  assert (Hkey : forall d name s, validateDataset d = true -> Js.get d name = JString s ->
                                  key_of name d = Some s).
  { intros d name s Hd Hs. unfold key_of. now rewrite Hd, Hs. }
  split; [| split; [| split; [| exact Hverdict]]].
  - intros k1 k2 d1 d2 id Hlt Hk1 Hk2 Hid1 Hid2.
    assert (Hboth : validateDataset d1 = true -> validateDataset d2 = true ->
                    In (duplicate_id k2 id) (errors (verdict (report (schema_loop datasets 0 st))))).
    { intros Hd1 Hd2.
      apply (schema_loop_duplicate_id datasets d1 d2 id k1 k2 0 st Hlt Hk1 Hk2);
        now apply Hkey. }
    split; [| exact Hboth].
    destruct (isValid (verdict (report (schema_loop datasets 0 st)))) eqn:Hr; [| reflexivity].
    exfalso. pose proof (proj1 (verdict_isValid _) Hr) as Hnil.
    destruct (validateDataset d1) eqn:Hd1.
    + destruct (validateDataset d2) eqn:Hd2.
      * specialize (Hboth eq_refl eq_refl). cbn [errors verdict] in Hboth.
        rewrite Hnil in Hboth. destruct Hboth.
      * apply (schema_loop_invalid_record datasets d2 (nth_error_In _ _ Hk2) Hd2 0 st Hnil).
    + apply (schema_loop_invalid_record datasets d1 (nth_error_In _ _ Hk1) Hd1 0 st Hnil).
  - intros k1 k2 d1 d2 cc Hlt Hk1 Hk2 Hd1 Hd2 Hcc1 Hcc2.
    apply (schema_loop_duplicate_countryCode datasets d1 d2 cc k1 k2 0 st Hlt Hk1 Hk2);
      now apply Hkey.
  - intros e Hin. cbn [errors verdict] in Hin.
    apply schema_loop_error_sources in Hin.
    destruct Hin as [[] | Hin]. exact Hin.
Qed.

Lemma duplicate_id_fails_duplicate_code_warns_witness :
  validateDatasetCollectionDetailed (collection_of records_sharing_id) = Normal clean_result
  /\ isValid clean_result = true
  /\ Js.get (collection_of records_sharing_id) "datasets" = JArray records_sharing_id
  /\ exists r : ValidationResult,
       validateJsonSchema (collection_of records_sharing_id) = Normal r
       /\ isValid r = false
       /\ In (duplicate_id 1 "us") (errors r).
Proof.
  split; [vm_compute; reflexivity |]. split; [reflexivity |]. split; [reflexivity |].
  destruct (duplicate_id_fails_duplicate_code_warns
              (collection_of records_sharing_id) clean_result records_sharing_id
              ltac:(vm_compute; reflexivity) eq_refl eq_refl)
    as (r & Hr & Hid & _).
  exists r. split; [exact Hr |].
  destruct (Hid 0%nat 1%nat _ _ "us" ltac:(lia) eq_refl eq_refl eq_refl eq_refl)
    as [Hfails Hdup].
  split; [exact Hfails |].
  apply Hdup; vm_compute; reflexivity.
Defined.

(** The scenario of the specification for a shared country code: the
    document passes, with one warning. *)
Example shared_country_code_passes :
  exists r : ValidationResult,
    validateJsonSchema (collection_of records_sharing_code) = Normal r
    /\ isValid r = true
    /\ errors r = []
    /\ warnings r = [duplicate_countryCode 1 "US"]
    /\ Forall (fun d => validateDataset d = true) records_sharing_code.
Proof.
  eexists. split; [vm_compute; reflexivity |].
  split; [reflexivity |]. split; [reflexivity |]. split; [reflexivity |].
  repeat constructor.
Qed.


(** A document whose records all fail validation: the loader fails with
    a recoverable validation error after filtering. *)
Example loadDatasets_no_valid_record :
  let imported :=
    {| settles_after := Some 5;
       outcome := Normal (collection_of [Js.object [("id", JString "us")]]) |} in
  recoverable_flag_of (result (loadDatasets imported)) = Some true
  /\ error_code_of (result (loadDatasets imported)) = Some VALIDATION_ERROR
  /\ calls (loadDatasets imported)
     = [Call_validateDatasetCollectionDetailed; Call_filterValidDatasets;
        Call_getFallbackDatasets].
Proof. vm_compute. repeat split. Qed.

(** [loadDatasets] itself runs the envelope check and the record filter
    only: two valid records sharing an id are both returned. *)
Example loadDatasets_keeps_duplicate_ids :
  result (loadDatasets {| settles_after := Some 5;
                          outcome := Normal (collection_of records_sharing_id) |})
  = Normal records_sharing_id.
Proof.
  unfold loadDatasets. cbn [race_timeout settles_after outcome].
  change (5 <? 10000) with true. cbv iota.
  unfold loadDatasets_validate.
  replace (validateDatasetCollectionDetailed (collection_of records_sharing_id))
    with (Normal clean_result) by (vm_compute; reflexivity).
  cbn [isValid clean_result negb].
  replace (Js.get (collection_of records_sharing_id) "datasets")
    with (JArray records_sharing_id) by reflexivity.
  unfold filterValidDatasets_any, array_like. cbn [mbind Completion_bind].
  rewrite filterValidDatasets_spec. cbn [valid].
  rewrite filter_all_valid by (repeat constructor).
  reflexivity.
Qed.

(** * Further properties *)

(** ** The hook: reload, cache, unmount and whole cycles *)

(** X1. [reload()] on a mounted hook always reaches the loader, even when
    the cache holds a fresh entry: the entry is deleted, [retryCount] is
    0 and [loading] is true at the call, while the data and the error
    shown stay as they were until the loader settles. *)
Theorem reload_bypasses_cache (o : UseDatasetOptions) (w : World)
    (Hmounted : isMountedRef w = true) :
  exists w' : World,
    reload o w = AwaitingLoader w'
    /\ loader_calls w' = S (loader_calls w)
    /\ dataCache w' !! CACHE_KEY = None
    /\ retryCount w' = 0
    /\ loading w' = true
    /\ data w' = data w
    /\ error w' = error w
    /\ pending_timers w' = pending_timers w.
Proof.
  unfold reload.
  rewrite loadData_begin_calls_loader.
  - eexists. split; [reflexivity |]. simpl.
    split; [reflexivity |]. split; [apply lookup_delete_eq |]. repeat split.
  - exact Hmounted.
  - left. unfold getCachedData, isCacheValid. simpl.
    now rewrite lookup_delete_eq.
Qed.

Lemma reload_bypasses_cache_witness :
  isMountedRef (mounted_world {[ CACHE_KEY := sample_entry ]} 2000) = true
  /\ exists w' : World,
       reload no_options (mounted_world {[ CACHE_KEY := sample_entry ]} 2000)
       = AwaitingLoader w'
       /\ loader_calls w' = 1%nat.
Proof.
  split; [reflexivity |].
  destruct (reload_bypasses_cache no_options
              (mounted_world {[ CACHE_KEY := sample_entry ]} 2000) eq_refl)
    as (w' & Hreload & Hcalls & _).
  exists w'. split; [exact Hreload | exact Hcalls].
Defined.

(** X2. Writing and reading the cache: data stored at one moment is read
    back at a later moment [t] exactly while [t - stored < cacheDuration];
    after [clearCache] nothing is read; and with a [cacheDuration] of 0 or
    less nothing is ever read back, so every [load()] calls the loader. *)
Theorem cache_round_trip (o : UseDatasetOptions) (datasets : list JsValue) (w : World)
    (t : Z) :
  getCachedData o (set_now t (setCachedData datasets w))
  = (if t - now w <? cacheDuration o then Some datasets else None)
  /\ getCachedData o (clearCache (set_now t (setCachedData datasets w))) = None
  /\ (cacheDuration o <= 0 -> now w <= t ->
      getCachedData o (set_now t (setCachedData datasets w)) = None)
  /\ (cacheDuration o <= 0 -> now w <= t -> isMountedRef w = true ->
      exists w', loadData_begin o 1 (set_now t (setCachedData datasets w))
                 = AwaitingLoader w').
Proof.
  assert (Hread : getCachedData o (set_now t (setCachedData datasets w))
                  = (if t - now w <? cacheDuration o then Some datasets else None)).
  { unfold getCachedData, isCacheValid. simpl. rewrite lookup_insert_eq. simpl.
    destruct (t - now w <? cacheDuration o); reflexivity. }
  assert (Hnever : cacheDuration o <= 0 -> now w <= t ->
                   getCachedData o (set_now t (setCachedData datasets w)) = None).
  { intros Hd Ht. rewrite Hread.
    destruct (Z.ltb_spec (t - now w) (cacheDuration o)); [lia | reflexivity]. }
  split; [exact Hread |]. split; [| split; [exact Hnever |]].
  - unfold getCachedData, isCacheValid. simpl. now rewrite lookup_delete_eq.
  - intros Hd Ht Hm. eexists. apply loadData_begin_calls_loader.
    + exact Hm.
    + left. now apply Hnever.
Qed.

Lemma loadData_settle_mounted (o : UseDatasetOptions) (attempt : Z)
    (settled : Completion (list JsValue)) (w : World) :
  isMountedRef (loadData_settle o attempt settled w) = isMountedRef w.
Proof.
  unfold loadData_settle, loadData_finally.
  destruct settled as [datasets | err]; destruct (isMountedRef w) eqn:Hm; simpl;
    rewrite ?Hm; try reflexivity.
  - simpl. exact Hm.
  - destruct (attempt <? maxRetries o); simpl; rewrite Hm; simpl; exact Hm.
Qed.

(** One step of a cycle whose attempt fails with retries left. *)
Lemma run_cycle_retry (o : UseDatasetOptions) (err : Thrown)
    (rest : list (Completion (list JsValue))) (elapsed attempt : Z) (w : World) :
  isMountedRef w = true ->
  pending_timers w = [] ->
  getCachedData o w = None \/ attempt <> 1 ->
  attempt < maxRetries o ->
  exists w' : World,
    run_cycle o (Throw err :: rest) elapsed attempt w
    = run_cycle o rest elapsed (attempt + 1) w'
    /\ isMountedRef w' = true
    /\ pending_timers w' = []
    /\ loader_calls w' = S (loader_calls w)
    /\ data w' = data w
    /\ dataCache w' = dataCache w.
Proof.
  intros Hm Hnone Hcache Hlt.
  cbn [run_cycle]. rewrite loadData_begin_calls_loader by assumption.
  rewrite loadData_settle_retry by (simpl; assumption).
  simpl. rewrite Hnone. simpl. rewrite Hm.
  eexists. split; [reflexivity |]. simpl. repeat split. exact Hm.
Qed.

(** The step of a cycle whose attempt fails with no retry left. *)
Lemma run_cycle_failed (o : UseDatasetOptions) (err : Thrown)
    (rest : list (Completion (list JsValue))) (elapsed attempt : Z) (w : World) :
  isMountedRef w = true ->
  pending_timers w = [] ->
  getCachedData o w = None \/ attempt <> 1 ->
  maxRetries o <= attempt ->
  run_cycle o (Throw err :: rest) elapsed attempt w
  = setLoading false
      (setRetryCount (maxRetries o)
         (setError (Some (errorMessage_of err))
            (setData None
               (set_now (now w + elapsed)
                  (call_loadDatasets (setRetryCount (attempt - 1) (setLoading true w))))))).
Proof.
  intros Hm Hnone Hcache Hge.
  cbn [run_cycle]. rewrite loadData_begin_calls_loader by assumption.
  rewrite loadData_settle_failed by (simpl; assumption).
  simpl. rewrite Hnone. reflexivity.
Qed.

(** The step of a cycle whose attempt succeeds. *)
Lemma run_cycle_success (o : UseDatasetOptions) (datasets : list JsValue)
    (rest : list (Completion (list JsValue))) (elapsed attempt : Z) (w : World) :
  isMountedRef w = true ->
  pending_timers w = [] ->
  getCachedData o w = None \/ attempt <> 1 ->
  run_cycle o (Normal datasets :: rest) elapsed attempt w
  = setLoading false
      (setCachedData datasets
         (setRetryCount 0
            (setError None
               (setData (Some datasets)
                  (set_now (now w + elapsed)
                     (call_loadDatasets
                        (setRetryCount (attempt - 1) (setLoading true w)))))))).
Proof.
  intros Hm Hnone Hcache.
  cbn [run_cycle]. rewrite loadData_begin_calls_loader by assumption.
  rewrite loadData_settle_success by (simpl; assumption).
  simpl. rewrite Hnone. reflexivity.
Qed.

Lemma run_cycle_calls_bound (o : UseDatasetOptions)
    (outcomes : list (Completion (list JsValue))) :
  forall (elapsed attempt : Z) (w : World),
    pending_timers w = [] ->
    (loader_calls (run_cycle o outcomes elapsed attempt w)
     <= loader_calls w + Z.to_nat (Z.max 1 (maxRetries o - attempt + 1)))%nat.
Proof.
  induction outcomes as [| settled rest IH]; intros elapsed attempt w Hnone.
  - cbn [run_cycle]. unfold loadData_begin.
    destruct (negb (isMountedRef w)); [simpl; lia |].
    destruct (getCachedData o w); [destruct (attempt =? 1) |]; simpl; lia.
  - destruct (isMountedRef w) eqn:Hm.
    + destruct (getCachedData o w) as [cachedData |] eqn:Hcache.
      * destruct (Z.eq_dec attempt 1) as [-> | Hne].
        -- cbn [run_cycle]. unfold loadData_begin. rewrite Hm, Hcache. simpl. lia.
        -- destruct settled as [datasets | err].
           ++ rewrite run_cycle_success by auto. simpl. lia.
           ++ destruct (Z.lt_ge_cases attempt (maxRetries o)) as [Hlt | Hge].
              ** destruct (run_cycle_retry o err rest elapsed attempt w Hm Hnone
                             (or_intror Hne) Hlt) as (w' & -> & _ & Hnone' & Hcalls & _).
                 specialize (IH elapsed (attempt + 1) w' Hnone'). lia.
              ** rewrite run_cycle_failed by auto. simpl. lia.
      * destruct settled as [datasets | err].
        -- rewrite run_cycle_success by auto. simpl. lia.
        -- destruct (Z.lt_ge_cases attempt (maxRetries o)) as [Hlt | Hge].
           ++ destruct (run_cycle_retry o err rest elapsed attempt w Hm Hnone
                          (or_introl Hcache) Hlt) as (w' & -> & _ & Hnone' & Hcalls & _).
              specialize (IH elapsed (attempt + 1) w' Hnone'). lia.
           ++ rewrite run_cycle_failed by auto. simpl. lia.
    + cbn [run_cycle]. unfold loadData_begin. rewrite Hm. simpl. lia.
Qed.

(** X3. Retries are bounded: whatever the loader answers and however
    long it takes, a load cycle started by [load()] with no timer pending
    calls the loader at most [maxRetries] times, and once when
    [maxRetries] is below 1. *)
Theorem load_cycle_calls_loader_at_most_maxRetries (o : UseDatasetOptions)
    (outcomes : list (Completion (list JsValue))) (elapsed : Z) (w : World)
    (Hidle : pending_timers w = []) :
  (loader_calls (run_cycle o outcomes elapsed 1 w)
   <= loader_calls w + Z.to_nat (Z.max 1 (maxRetries o)))%nat.
Proof.
  pose proof (run_cycle_calls_bound o outcomes elapsed 1 w Hidle) as Hbound.
  replace (maxRetries o - 1 + 1) with (maxRetries o) in Hbound by lia.
  exact Hbound.
Qed.

Lemma load_cycle_calls_loader_at_most_maxRetries_witness :
  pending_timers (mounted_world ∅ 0) = []
  /\ (loader_calls
        (run_cycle no_options
           [Throw network_failure; Throw network_failure; Throw network_failure;
            Throw network_failure; Normal getFallbackDatasets]
           50 1 (mounted_world ∅ 0))
      <= 0 + 3)%nat.
Proof.
  split; [reflexivity |].
  apply (load_cycle_calls_loader_at_most_maxRetries no_options
           [Throw network_failure; Throw network_failure; Throw network_failure;
            Throw network_failure; Normal getFallbackDatasets]
           50 (mounted_world ∅ 0) eq_refl).
Defined.

(** A run of failures from [attempt] up to the last attempt. *)
Lemma run_cycle_exhausts (o : UseDatasetOptions) (errs : list Thrown) :
  forall (last_err : Thrown) (rest : list (Completion (list JsValue)))
         (elapsed attempt : Z) (w : World),
    isMountedRef w = true ->
    pending_timers w = [] ->
    getCachedData o w = None \/ attempt <> 1 ->
    1 <= attempt ->
    attempt + Z.of_nat (length errs) = Z.max attempt (maxRetries o) ->
    let w' := run_cycle o (List.map Throw errs ++ Throw last_err :: rest) elapsed attempt w in
    data w' = None
    /\ error w' = Some (errorMessage_of last_err)
    /\ retryCount w' = maxRetries o
    /\ loading w' = false
    /\ pending_timers w' = []
    /\ loader_calls w' = (loader_calls w + S (length errs))%nat
    /\ dataCache w' = dataCache w.
Proof.
  induction errs as [| err errs IH];
    intros last_err rest elapsed attempt w Hm Hnone Hcache Hpos Hlen w'.
  - subst w'. cbn [List.map app]. simpl in Hlen.
    rewrite run_cycle_failed by (auto; lia). simpl.
    repeat split; [exact Hnone | lia].
  - subst w'. cbn [List.map app]. cbn [length] in Hlen.
    assert (Hlt : attempt < maxRetries o) by lia.
    destruct (run_cycle_retry o err (List.map Throw errs ++ Throw last_err :: rest)
                elapsed attempt w Hm Hnone Hcache Hlt)
      as (w1 & -> & Hm1 & Hnone1 & Hcalls1 & Hdata1 & Hcache1).
    assert (Hne : attempt + 1 <> 1) by lia.
    assert (Hpos' : 1 <= attempt + 1) by lia.
    assert (Hlen' : attempt + 1 + Z.of_nat (length errs) = Z.max (attempt + 1) (maxRetries o))
      by lia.
    destruct (IH last_err rest elapsed (attempt + 1) w1 Hm1 Hnone1
                (or_intror Hne) Hpos' Hlen')
      as (Hd & He & Hr & Hl & Hp & Hc & Hk).
    repeat split; try assumption.
    + rewrite Hc, Hcalls1. cbn [length]. lia.
    + now rewrite Hk.
Qed.

(** X4. Exhausted retries: when the first [maxRetries] answers of the
    loader are all failures (at least one attempt being made), the cycle
    ends in Failed after exactly [maxRetries] calls (one call when
    [maxRetries] is below 1): the data is cleared, the message of the last
    failure is shown without retry note, [retryCount] is [maxRetries],
    nothing is loading, no timer is pending and the cache is untouched. *)
Theorem load_cycle_fails_after_maxRetries (o : UseDatasetOptions) (errs : list Thrown)
    (last_err : Thrown) (rest : list (Completion (list JsValue))) (elapsed : Z) (w : World)
    (Hmounted : isMountedRef w = true)
    (Hidle : pending_timers w = [])
    (Hmiss : getCachedData o w = None)
    (Hlength : 1 + Z.of_nat (length errs) = Z.max 1 (maxRetries o)) :
  let w' := run_cycle o (List.map Throw errs ++ Throw last_err :: rest) elapsed 1 w in
  data w' = None
  /\ error w' = Some (errorMessage_of last_err)
  /\ retryCount w' = maxRetries o
  /\ loading w' = false
  /\ pending_timers w' = []
  /\ loader_calls w' = (loader_calls w + S (length errs))%nat
  /\ dataCache w' = dataCache w.
Proof.
  apply run_cycle_exhausts; auto. lia.
Qed.

Lemma fresh_world_cache_miss (o : UseDatasetOptions) (t : Z) :
  getCachedData o (mounted_world ∅ t) = None.
Proof. reflexivity. Qed.

Lemma load_cycle_fails_after_maxRetries_witness :
  isMountedRef (mounted_world ∅ 0) = true
  /\ pending_timers (mounted_world ∅ 0) = []
  /\ getCachedData no_options (mounted_world ∅ 0) = None
  /\ 1 + Z.of_nat (length [network_failure; network_failure]) = Z.max 1 (maxRetries no_options)
  /\ loader_calls
       (run_cycle no_options
          (List.map Throw [network_failure; network_failure]
           ++ Throw parse_failure :: [Normal getFallbackDatasets])
          50 1 (mounted_world ∅ 0))
     = 3%nat.
Proof.
  split; [reflexivity |]. split; [reflexivity |]. split; [reflexivity |].
  split; [reflexivity |].
  destruct (load_cycle_fails_after_maxRetries no_options
              [network_failure; network_failure] parse_failure
              [Normal getFallbackDatasets] 50 (mounted_world ∅ 0)
              eq_refl eq_refl (fresh_world_cache_miss _ _) eq_refl)
    as (_ & _ & _ & _ & _ & Hcalls & _).
  exact Hcalls.
Defined.

(** A run of failures followed by a success. *)
Lemma run_cycle_succeeds (o : UseDatasetOptions) (errs : list Thrown) :
  forall (datasets : list JsValue) (rest : list (Completion (list JsValue)))
         (elapsed attempt : Z) (w : World),
    isMountedRef w = true ->
    pending_timers w = [] ->
    getCachedData o w = None \/ attempt <> 1 ->
    1 <= attempt ->
    attempt + Z.of_nat (length errs) <= Z.max attempt (maxRetries o) ->
    let w' := run_cycle o (List.map Throw errs ++ Normal datasets :: rest) elapsed attempt w in
    data w' = Some datasets
    /\ error w' = None
    /\ retryCount w' = 0
    /\ loading w' = false
    /\ pending_timers w' = []
    /\ loader_calls w' = (loader_calls w + S (length errs))%nat
    /\ dataCache w' !! CACHE_KEY = Some {| cached_data := datasets; timestamp := now w' |}.
Proof.
  induction errs as [| err errs IH];
    intros datasets rest elapsed attempt w Hm Hnone Hcache Hpos Hlen w'.
  - subst w'. cbn [List.map app].
    rewrite run_cycle_success by auto. simpl.
    repeat split; [exact Hnone | lia | apply lookup_insert_eq].
  - subst w'. cbn [List.map app]. cbn [length] in Hlen.
    assert (Hlt : attempt < maxRetries o) by lia.
    destruct (run_cycle_retry o err (List.map Throw errs ++ Normal datasets :: rest)
                elapsed attempt w Hm Hnone Hcache Hlt)
      as (w1 & -> & Hm1 & Hnone1 & Hcalls1 & _).
    assert (Hne : attempt + 1 <> 1) by lia.
    assert (Hlen' : attempt + 1 + Z.of_nat (length errs)
                    <= Z.max (attempt + 1) (maxRetries o)) by lia.
    assert (Hpos' : 1 <= attempt + 1) by lia.
    destruct (IH datasets rest elapsed (attempt + 1) w1 Hm1 Hnone1
                (or_intror Hne) Hpos' Hlen')
      as (Hd & He & Hr & Hl & Hp & Hc & Hk).
    repeat split; try assumption.
    rewrite Hc, Hcalls1. cbn [length]. lia.
Qed.

(** X5. A success ends the cycle: when the loader fails [k] times and
    then succeeds, with [k + 1 <= maxRetries] (or [k = 0]), the cycle
    stops after [k + 1] calls whatever answers would follow: the loaded
    data is shown, the error is cleared, [retryCount] is back to 0, no
    timer is pending, and the cache holds the data stamped with the time
    of the success. *)
Theorem load_cycle_success_after_failures (o : UseDatasetOptions) (errs : list Thrown)
    (datasets : list JsValue) (rest : list (Completion (list JsValue))) (elapsed : Z)
    (w : World)
    (Hmounted : isMountedRef w = true)
    (Hidle : pending_timers w = [])
    (Hmiss : getCachedData o w = None)
    (Hlength : 1 + Z.of_nat (length errs) <= Z.max 1 (maxRetries o)) :
  let w' := run_cycle o (List.map Throw errs ++ Normal datasets :: rest) elapsed 1 w in
  data w' = Some datasets
  /\ error w' = None
  /\ retryCount w' = 0
  /\ loading w' = false
  /\ pending_timers w' = []
  /\ loader_calls w' = (loader_calls w + S (length errs))%nat
  /\ dataCache w' !! CACHE_KEY = Some {| cached_data := datasets; timestamp := now w' |}
  /\ getCachedData o w' = (if 0 <? cacheDuration o then Some datasets else None).
Proof.
  intros w'.
  destruct (run_cycle_succeeds o errs datasets rest elapsed 1 w Hmounted Hidle
              (or_introl Hmiss) (Z.le_refl 1) Hlength)
    as (Hd & He & Hr & Hl & Hp & Hc & Hk).
  fold w' in Hd, He, Hr, Hl, Hp, Hc, Hk.
  repeat split; try assumption.
  unfold getCachedData, isCacheValid. rewrite Hk. simpl.
  rewrite Z.sub_diag. destruct (0 <? cacheDuration o); reflexivity.
Qed.

Lemma load_cycle_success_after_failures_witness :
  isMountedRef (mounted_world ∅ 0) = true
  /\ pending_timers (mounted_world ∅ 0) = []
  /\ getCachedData no_options (mounted_world ∅ 0) = None
  /\ 1 + Z.of_nat (length [network_failure]) <= Z.max 1 (maxRetries no_options)
  /\ data (run_cycle no_options
             (List.map Throw [network_failure]
              ++ Normal getFallbackDatasets :: [Throw parse_failure])
             50 1 (mounted_world ∅ 0))
     = Some getFallbackDatasets.
Proof.
  split; [reflexivity |]. split; [reflexivity |]. split; [reflexivity |].
  split; [vm_compute; discriminate |].
  destruct (load_cycle_success_after_failures no_options [network_failure]
              getFallbackDatasets [Throw parse_failure] 50 (mounted_world ∅ 0)
              eq_refl eq_refl (fresh_world_cache_miss _ _) ltac:(vm_compute; discriminate))
    as (Hdata & _).
  exact Hdata.
Defined.

Lemma unmount_not_mounted (w : World) :
  isMountedRef (unmount w) = false.
Proof. unfold unmount. simpl. destruct (retryTimeoutRef w); reflexivity. Qed.

(** X6. After the cleanup of the mount effect the hook is inert: a
    pending [loadData] that settles, with data or with an error, changes
    nothing (no state, no cache entry, no timer); a new [loadData] or a
    whole cycle returns at once without calling the loader. Only
    [reload()] still acts: it calls no loader but deletes the shared cache
    entry and resets [retryCount]. The cleanup itself leaves the state
    shown and the cache as they were. *)
Theorem unmounted_hook_is_inert (o : UseDatasetOptions) (w : World) (attempt : Z)
    (settled : Completion (list JsValue)) :
  let u := unmount w in
  isMountedRef u = false
  /\ (data u = data w /\ loading u = loading w /\ error u = error w
      /\ retryCount u = retryCount w /\ dataCache u = dataCache w)
  /\ loadData_settle o attempt settled u = u
  /\ loadData_begin o attempt u = Finished u
  /\ (forall outcomes elapsed, run_cycle o outcomes elapsed attempt u = u)
  /\ (exists u' : World,
        reload o u = Finished u'
        /\ loader_calls u' = loader_calls u
        /\ dataCache u' !! CACHE_KEY = None
        /\ retryCount u' = 0
        /\ data u' = data w /\ error u' = error w /\ loading u' = loading w).
Proof.
  cbv zeta.
  assert (Hfields : data (unmount w) = data w /\ loading (unmount w) = loading w
                    /\ error (unmount w) = error w /\ retryCount (unmount w) = retryCount w
                    /\ dataCache (unmount w) = dataCache w).
  { unfold unmount. simpl. destruct (retryTimeoutRef w); simpl; repeat split. }
  remember (unmount w) as u eqn:Hdef.
  assert (Hu : isMountedRef u = false) by (subst u; apply unmount_not_mounted).
  assert (Hbegin : loadData_begin o attempt u = Finished u).
  { unfold loadData_begin. now rewrite Hu. }
  split; [exact Hu |].
  split; [exact Hfields |].
  split.
  { unfold loadData_settle, loadData_finally.
    destruct settled; rewrite Hu; simpl; now rewrite Hu. }
  split; [exact Hbegin |].
  split.
  { intros outcomes elapsed. destruct outcomes; cbn [run_cycle]; now rewrite Hbegin. }
  unfold reload, loadData_begin. simpl. rewrite Hu. simpl.
  eexists. split; [reflexivity |]. simpl.
  split; [reflexivity |]. split; [apply lookup_delete_eq |]. split; [reflexivity |].
  destruct Hfields as (Hd & Hl & He & _). auto.
Qed.

Lemma clearTimeout_removes (id : nat) (w : World) (t : Timer) :
  In t (pending_timers (clearTimeout id w)) -> timer_id t <> id /\ In t (pending_timers w).
Proof.
  unfold clearTimeout. simpl. rewrite filter_In.
  intros [Hin Hne]. split; [| exact Hin].
  apply negb_true_iff, Nat.eqb_neq in Hne. exact Hne.
Qed.

(** X7. The cleanup cancels the retry timer: the timer whose id
    [retryTimeoutRef] holds is not pending after unmount, and no timer is
    added; in particular, unmounting right after a failed attempt that
    scheduled a retry (none pending before) leaves no timer at all, so
    the next attempt never starts. *)
Theorem unmount_cancels_retry_timer (o : UseDatasetOptions) (attempt : Z) (err : Thrown)
    (w : World)
    (Hmounted : isMountedRef w = true)
    (Hidle : pending_timers w = [])
    (Hretry : attempt < maxRetries o) :
  let scheduled := loadData_settle o attempt (Throw err) w in
  length (pending_timers scheduled) = 1%nat
  /\ pending_timers (unmount scheduled) = []
  /\ (forall (w0 : World) (id : nat) (t : Timer),
        retryTimeoutRef w0 = Some id ->
        In t (pending_timers (unmount w0)) ->
        timer_id t <> id /\ In t (pending_timers w0)).
Proof.
  intros scheduled. subst scheduled.
  rewrite loadData_settle_retry by assumption.
  split; [simpl; rewrite Hidle; reflexivity |].
  split.
  - unfold unmount. simpl. unfold clearTimeout. simpl. rewrite Hidle. simpl.
    rewrite Nat.eqb_refl. reflexivity.
  - intros w0 id t Href Hin. unfold unmount in Hin. simpl in Hin. rewrite Href in Hin.
    apply clearTimeout_removes in Hin. exact Hin.
Qed.

Lemma unmount_cancels_retry_timer_witness :
  isMountedRef reloading_world = true
  /\ pending_timers reloading_world = []
  /\ 1 < maxRetries no_options
  /\ pending_timers
       (unmount
          (loadData_settle no_options 1 (Throw network_failure) reloading_world))
     = [].
Proof.
  split; [reflexivity |]. split; [reflexivity |]. split; [reflexivity |].
  destruct (unmount_cancels_retry_timer no_options 1 network_failure reloading_world
              eq_refl eq_refl eq_refl) as (_ & Hnone & _).
  exact Hnone.
Defined.

(** ** The loader: envelope, failures and successes *)

Lemma push_error_not_clean (e : ValidationError) (r : Report) : (push_error e r).1 <> [].
Proof. unfold push_error. cbn [fst]. now destruct (r.1). Qed.

Lemma datasets_property_clean (data : JsValue) (has : bool) (r : Report) :
  (validate_datasets_property data has r).1 = []
  <-> r.1 = [] /\ has = true /\ exists elements, Js.get data "datasets" = JArray elements.
Proof.
  unfold validate_datasets_property. destruct has; cbn [negb].
  - destruct (Js.get data "datasets") as [| | b | n | s | elements | m];
      try (split; [intros H; now apply push_error_not_clean in H
                  | intros (_ & _ & ? & ?); discriminate]).
    destruct (Nat.eqb (length elements) 0); cbn [push_warning fst];
      (split; [intros H; eauto | now intros (H & _)]).
  - split; [intros H; now apply push_error_not_clean in H | intros (_ & ? & _); discriminate].
Qed.

Lemma lastUpdated_clean (metadata : JsValue) (r : Report) :
  (validate_lastUpdated metadata r).1 = []
  <-> r.1 = [] /\ exists s, Js.get metadata "lastUpdated" = JString s.
Proof.
  unfold validate_lastUpdated.
  destruct (Js.get metadata "lastUpdated") as [| | b | n | s | l | m];
    try (split; [intros H; now apply push_error_not_clean in H
                | intros (_ & ? & ?); discriminate]).
  destruct (negb (RegExp.test RegExp.date_pattern s)); cbn [push_warning fst];
    (split; [intros H; eauto | now intros (H & _)]).
Qed.

Lemma version_clean (metadata : JsValue) (r : Report) :
  (validate_version metadata r).1 = []
  <-> r.1 = [] /\ exists s, Js.get metadata "version" = JString s.
Proof.
  unfold validate_version.
  destruct (Js.get metadata "version") as [| | b | n | s | l | m];
    try (split; [intros H; now apply push_error_not_clean in H
                | intros (_ & ? & ?); discriminate]).
  destruct (negb (RegExp.test RegExp.semver_pattern s)); cbn [push_warning fst];
    (split; [intros H; eauto | now intros (H & _)]).
Qed.

Lemma totalCountries_clean (data metadata : JsValue) (r : Report) :
  (validate_totalCountries data metadata r).1 = []
  <-> r.1 = []
      /\ exists n, Js.get metadata "totalCountries" = JNumber n
                   /\ Num.lt n (Num.of_Z 0) = false.
Proof.
  unfold validate_totalCountries.
  destruct (Js.get metadata "totalCountries") as [| | b | n | s | l | m];
    try (split; [intros H; now apply push_error_not_clean in H
                | intros (_ & ? & ? & _); discriminate]).
  destruct (Num.lt n (Num.of_Z 0)) eqn:Hneg.
  - split; [intros H; now apply push_error_not_clean in H |].
    intros (_ & n' & [= <-] & Hlt). rewrite Hneg in Hlt. discriminate.
  - destruct (Js.get data "datasets") as [| | b | n' | s | elements | m];
      try (split; [intros H; eauto | now intros (H & _)]).
    destruct (negb (Num.strict_eq n (Num.of_nat (length elements))));
      cbn [push_warning fst]; (split; [intros H; eauto | now intros (H & _)]).
Qed.

Lemma metadata_property_clean (data : JsValue) (has : bool) (r : Report) :
  (validate_metadata_property data has r).1 = []
  <-> r.1 = [] /\ has = true /\ not_an_object (Js.get data "metadata") = false
      /\ (exists s, Js.get (Js.get data "metadata") "lastUpdated" = JString s)
      /\ (exists s, Js.get (Js.get data "metadata") "version" = JString s)
      /\ (exists n, Js.get (Js.get data "metadata") "totalCountries" = JNumber n
                    /\ Num.lt n (Num.of_Z 0) = false).
Proof.
  unfold validate_metadata_property. destruct has; cbn [negb].
  2:{ split; [intros H; now apply push_error_not_clean in H
             | intros (_ & ? & _); discriminate]. }
  cbv zeta. destruct (not_an_object (Js.get data "metadata")).
  { split; [intros H; now apply push_error_not_clean in H
           | intros (_ & _ & ? & _); discriminate]. }
  rewrite totalCountries_clean, version_clean, lastUpdated_clean. tauto.
Qed.

Lemma envelope_errors (data : JsValue) :
  not_an_object data = false ->
  Js.hasOwn data "hasOwnProperty" = false ->
  exists cv : ValidationResult,
    validateDatasetCollectionDetailed data = Normal cv
    /\ (errors cv = [] <-> well_formed_envelope data).
Proof.
  intros Hobj Hshadow.
  unfold validateDatasetCollectionDetailed, call_hasOwnProperty.
  rewrite Hobj, Hshadow. cbn [mbind Completion_bind].
  eexists. split; [reflexivity |].
  unfold verdict. cbn [errors].
  rewrite metadata_property_clean, datasets_property_clean. unfold well_formed_envelope.
  split.
  - intros ((_ & Hd & ds & Hds) & Hm & Hmo & (lu & Hlu) & (ver & Hver) & (n & Hn & Hneg)).
    exists ds, lu, ver, n. auto 10.
  - intros (ds & lu & ver & n & Hd & Hds & Hm & Hmo & Hlu & Hver & Hn & Hneg).
    split; [split; [reflexivity | eauto] | eauto 10].
Qed.

Lemma not_an_object_no_own (data : JsValue) (k : string) :
  not_an_object data = true -> Js.hasOwn data k = false.
Proof. destruct data; try reflexivity; discriminate. Qed.

Lemma envelope_valid_iff_well_formed_aux (data : JsValue) (cv : ValidationResult) :
  validateDatasetCollectionDetailed data = Normal cv ->
  isValid cv = true ->
  well_formed_envelope data
  /\ exists datasets, Js.get data "datasets" = JArray datasets
                      /\ filterValidDatasets_any (Js.get data "datasets")
                         = Normal (filterValidDatasets datasets).
Proof.
  intros Hanswer Hvalid.
  pose proof (collection_isValid_errors data cv Hanswer) as Hiff.
  assert (Hwf : well_formed_envelope data).
  { destruct (not_an_object data) eqn:Hobj.
    - unfold validateDatasetCollectionDetailed in Hanswer. rewrite Hobj in Hanswer.
      injection Hanswer as <-. discriminate.
    - destruct (Js.hasOwn data "hasOwnProperty") eqn:Hshadow.
      + unfold validateDatasetCollectionDetailed, call_hasOwnProperty in Hanswer.
        rewrite Hobj, Hshadow in Hanswer. discriminate.
      + destruct (envelope_errors data Hobj Hshadow) as (cv' & Hcv' & Herr).
        rewrite Hanswer in Hcv'. injection Hcv' as <-.
        apply Herr, Hiff, Hvalid. }
  split; [exact Hwf |].
  destruct Hwf as (datasets & ? & ? & ? & _ & Hds & _).
  exists datasets. split; [exact Hds |]. rewrite Hds. reflexivity.
Qed.

(** X8. The envelope is valid exactly when [datasets] is an own property
    holding an array and [metadata] is an own property holding an object
    with a string [lastUpdated], a string [version] and a number
    [totalCountries] that is not negative. Nothing else decides: an empty
    array, a date or version in another format and a [totalCountries]
    that differs from the number of records only add warnings. *)
Theorem envelope_valid_iff_well_formed (data : JsValue) (cv : ValidationResult)
    (Hanswer : validateDatasetCollectionDetailed data = Normal cv) :
  (isValid cv = true <-> well_formed_envelope data)
  /\ (isValid cv = true <-> errors cv = [])
  /\ (isValid cv = true ->
      exists datasets, Js.get data "datasets" = JArray datasets
                       /\ filterValidDatasets_any (Js.get data "datasets")
                          = Normal (filterValidDatasets datasets)).
Proof.
  pose proof (collection_isValid_errors data cv Hanswer) as Hiff.
  assert (Hwf : isValid cv = true <-> well_formed_envelope data).
  { destruct (not_an_object data) eqn:Hobj.
    - unfold validateDatasetCollectionDetailed in Hanswer. rewrite Hobj in Hanswer.
      injection Hanswer as <-. simpl. split; [discriminate |].
      intros (? & ? & ? & ? & Hown & _).
      rewrite not_an_object_no_own in Hown by assumption. discriminate.
    - destruct (Js.hasOwn data "hasOwnProperty") eqn:Hshadow.
      + unfold validateDatasetCollectionDetailed, call_hasOwnProperty in Hanswer.
        rewrite Hobj, Hshadow in Hanswer. discriminate.
      + destruct (envelope_errors data Hobj Hshadow) as (cv' & Hcv' & Herr).
        rewrite Hanswer in Hcv'. injection Hcv' as <-.
        rewrite Hiff. exact Herr. }
  split; [exact Hwf |]. split; [exact Hiff |].
  intros Hvalid. apply Hwf in Hvalid.
  destruct Hvalid as (datasets & ? & ? & ? & _ & Hds & _).
  exists datasets. split; [exact Hds |]. rewrite Hds. reflexivity.
Qed.

Lemma envelope_valid_iff_well_formed_witness :
  validateDatasetCollectionDetailed (collection_of records_sharing_code) = Normal clean_result
  /\ well_formed_envelope (collection_of records_sharing_code).
Proof.
  assert (H : validateDatasetCollectionDetailed (collection_of records_sharing_code)
              = Normal clean_result) by (vm_compute; reflexivity).
  split; [exact H |].
  apply (envelope_valid_iff_well_formed _ _ H). reflexivity.
Defined.

(** X9. A document with an own property named [hasOwnProperty] breaks
    the collection validator: for an object, the validator throws (it
    reports nothing) exactly in that case; [validateJsonSchema] throws
    with it, and [loadDatasets] turns the [TypeError] into an
    [UNKNOWN_ERROR] that is recoverable, without filtering any record. *)
Theorem shadowed_hasOwnProperty_throws (data : JsValue) :
  ((exists t, validateDatasetCollectionDetailed data = Throw t)
   <-> not_an_object data = false /\ Js.hasOwn data "hasOwnProperty" = true)
  /\ (not_an_object data = false -> Js.hasOwn data "hasOwnProperty" = true ->
      validateJsonSchema data
      = Throw (ThrowError (Error "data.hasOwnProperty is not a function"))
      /\ forall imported : Pending JsValue,
           race_timeout imported 10000 "Import timeout" = Normal data ->
           result (loadDatasets imported)
           = Throw (ThrowError
                      (DataLoaderError (ERROR_MESSAGES UNKNOWN_ERROR)
                         (Some (Error "data.hasOwnProperty is not a function"))
                         (Some UNKNOWN_ERROR) true))
           /\ calls (loadDatasets imported) = [Call_validateDatasetCollectionDetailed]).
Proof.
  assert (Hthrow : not_an_object data = false -> Js.hasOwn data "hasOwnProperty" = true ->
                   validateDatasetCollectionDetailed data
                   = Throw (ThrowError (Error "data.hasOwnProperty is not a function"))).
  { intros Hobj Hshadow. unfold validateDatasetCollectionDetailed, call_hasOwnProperty.
    now rewrite Hobj, Hshadow. }
  split.
  - split.
    + intros (t & Ht). unfold validateDatasetCollectionDetailed, call_hasOwnProperty in Ht.
      destruct (not_an_object data); [discriminate |].
      destruct (Js.hasOwn data "hasOwnProperty"); [auto | discriminate].
    + intros (Hobj & Hshadow). eexists. now apply Hthrow.
  - intros Hobj Hshadow. specialize (Hthrow Hobj Hshadow). split.
    + unfold validateJsonSchema. now rewrite Hthrow.
    + intros imported Hrace. unfold loadDatasets. rewrite Hrace.
      unfold loadDatasets_validate. rewrite Hthrow. split; reflexivity.
Qed.

Lemma array_like_throws (v : JsValue) (e : Thrown) :
  filterValidDatasets_any v = Throw e ->
  e = ThrowError (Error "Cannot read properties of null (reading 'length')").
Proof.
  unfold filterValidDatasets_any, array_like.
  destruct v as [| | b | n | s | l | m]; simpl; try discriminate.
  - now intros [= <-].
  - now intros [= <-].
  - destruct (default JUndefined (m !! "length")) as [| | b | [q | | |] | s | l | m'];
      discriminate.
Qed.

Lemma classify_flags (m : string) :
  let '(code, recoverable) := classify m in
  (never_recoverable code = true -> recoverable = false)
  /\ (always_recoverable code = true -> recoverable = true)
  /\ code <> VALIDATION_ERROR.
Proof.
  unfold classify.
  repeat match goal with
         | |- context [if ?c then _ else _] => destruct c
         end; simpl; repeat split; try discriminate; auto.
Qed.

(** X10. Every failure of [loadDatasets] is a [DataLoaderError] that
    carries a code and a cause. Unless the import itself rejected with a
    [DataLoaderError] (which is passed on as it is), errors coded
    [TIMEOUT_ERROR], [NETWORK_ERROR] or [UNKNOWN_ERROR] are recoverable,
    errors coded [PARSE_ERROR], [FILE_NOT_FOUND] or [PERMISSION_ERROR] are
    not, and a message other than the one of the code appears only on the
    recoverable [VALIDATION_ERROR] of a document without valid record. *)
Theorem loadDatasets_failures_are_coded (imported : Pending JsValue) (t : Thrown)
    (Hfails : result (loadDatasets imported) = Throw t)
    (Hplain : forall m cause code recoverable,
        outcome imported <> Throw (ThrowError (DataLoaderError m cause code recoverable))) :
  exists (m : string) (cause : JsError) (code : DataLoaderErrorCode) (recoverable : bool),
    t = ThrowError (DataLoaderError m (Some cause) (Some code) recoverable)
    /\ (never_recoverable code = true -> recoverable = false)
    /\ (always_recoverable code = true -> recoverable = true)
    /\ (m = ERROR_MESSAGES code
        \/ (code = VALIDATION_ERROR /\ recoverable = true
            /\ m = "No valid datasets found. Using fallback data.")).
Proof.
  assert (Hcatch : forall e : Thrown,
            (forall m cause code recoverable,
                e <> ThrowError (DataLoaderError m cause code recoverable)) ->
            loadDatasets_catch e = Throw t ->
            exists (m : string) (cause : JsError) (code : DataLoaderErrorCode)
                   (recoverable : bool),
              t = ThrowError (DataLoaderError m (Some cause) (Some code) recoverable)
              /\ (never_recoverable code = true -> recoverable = false)
              /\ (always_recoverable code = true -> recoverable = true)
              /\ (m = ERROR_MESSAGES code
                  \/ (code = VALIDATION_ERROR /\ recoverable = true
                      /\ m = "No valid datasets found. Using fallback data."))).
  { intros e Hnot He. destruct e as [[m | m cause code recoverable] | v]; simpl in He.
    - pose proof (classify_flags (Str.toLowerCase m)) as Hflags.
      destruct (classify (Str.toLowerCase m)) as [code recoverable].
      injection He as <-. destruct Hflags as (Hn & Ha & _).
      exists (ERROR_MESSAGES code), (Error m), code, recoverable. auto.
    - exfalso. exact (Hnot m cause code recoverable eq_refl).
    - injection He as <-. eexists _, _, _, _. split; [reflexivity |].
      split; [discriminate |]. split; [reflexivity |]. left. reflexivity. }
  unfold loadDatasets in Hfails.
  destruct (race_timeout imported 10000 "Import timeout") as [data | e] eqn:Hrace.
  - cbn [result calls] in Hfails. unfold loadDatasets_validate in Hfails.
    destruct (validateDatasetCollectionDetailed data) as [cv | e] eqn:Hcv.
    + destruct (isValid cv); cbn [negb] in Hfails.
      * destruct (filterValidDatasets_any (Js.get data "datasets")) as [fr | e] eqn:Hfr.
        -- destruct (Nat.eqb (length (valid fr)) 0); cbn [result try_catch] in Hfails.
           ++ simpl in Hfails. injection Hfails as <-.
              eexists _, _, _, _. split; [reflexivity |].
              split; [discriminate |]. split; [discriminate |]. right. auto.
           ++ discriminate.
        -- cbn [result try_catch] in Hfails.
           apply array_like_throws in Hfr. subst e.
           simpl in Hfails. injection Hfails as <-.
           eexists _, _, _, _. split; [reflexivity |].
           split; [discriminate |]. split; [reflexivity |]. left. reflexivity.
      * cbn [result try_catch] in Hfails. simpl in Hfails. injection Hfails as <-.
        eexists _, _, _, _. split; [reflexivity |].
        split; [discriminate |]. split; [discriminate |]. left. reflexivity.
    + cbn [result try_catch] in Hfails.
      unfold validateDatasetCollectionDetailed, call_hasOwnProperty in Hcv.
      destruct (not_an_object data); [discriminate |].
      destruct (Js.hasOwn data "hasOwnProperty"); [| discriminate].
      injection Hcv as <-. simpl in Hfails. injection Hfails as <-.
      eexists _, _, _, _. split; [reflexivity |].
      split; [discriminate |]. split; [reflexivity |]. left. reflexivity.
  - cbn [result] in Hfails. apply (Hcatch e); [| exact Hfails].
    intros m cause code recoverable ->.
    unfold race_timeout in Hrace.
    destruct (settles_after imported) as [ms |]; [| discriminate].
    destruct (ms <? 10000); [| discriminate].
    exact (Hplain m cause code recoverable Hrace).
Qed.

Lemma loadDatasets_failures_are_coded_witness :
  result (loadDatasets rejected_import) = Throw parse_failure
  /\ (forall m cause code recoverable,
        outcome rejected_import <> Throw (ThrowError (DataLoaderError m cause code recoverable)))
  /\ exists (m : string) (cause : JsError) (code : DataLoaderErrorCode) (recoverable : bool),
       parse_failure = ThrowError (DataLoaderError m (Some cause) (Some code) recoverable)
       /\ (never_recoverable code = true -> recoverable = false).
Proof.
  assert (Hfails : result (loadDatasets rejected_import) = Throw parse_failure)
    by (vm_compute; reflexivity).
  assert (Hplain : forall m cause code recoverable,
             outcome rejected_import
             <> Throw (ThrowError (DataLoaderError m cause code recoverable)))
    by (intros; discriminate).
  split; [exact Hfails |]. split; [exact Hplain |].
  destruct (loadDatasets_failures_are_coded rejected_import parse_failure Hfails Hplain)
    as (m & cause & code & recoverable & Heq & Hnever & _).
  exists m, cause, code, recoverable. split; [exact Heq | exact Hnever].
Defined.

(** X11. The import is bounded by 10 seconds: when it has not settled
    before 10000 ms (or never settles), [loadDatasets] fails with a
    recoverable [TIMEOUT_ERROR] caused by [Import timeout], whatever the
    import would have delivered, and validates nothing. *)
Theorem loadDatasets_import_timeout (imported : Pending JsValue)
    (Hlate : forall ms, settles_after imported = Some ms -> 10000 <= ms) :
  result (loadDatasets imported)
  = Throw (ThrowError
             (DataLoaderError (ERROR_MESSAGES TIMEOUT_ERROR) (Some (Error "Import timeout"))
                (Some TIMEOUT_ERROR) true))
  /\ calls (loadDatasets imported) = [].
Proof.
  assert (Hrace : race_timeout imported 10000 "Import timeout"
                  = Throw (ThrowError (Error "Import timeout"))).
  { unfold race_timeout. destruct (settles_after imported) as [ms |]; [| reflexivity].
    specialize (Hlate ms eq_refl). apply Z.ltb_ge in Hlate. now rewrite Hlate. }
  unfold loadDatasets. rewrite Hrace. split; reflexivity.
Qed.

Lemma loadDatasets_import_timeout_witness :
  (forall ms, settles_after {| settles_after := Some 10000;
                               outcome := Normal (collection_of getFallbackDatasets) |}
              = Some ms -> 10000 <= ms)
  /\ recoverable_flag_of
       (result (loadDatasets {| settles_after := Some 10000;
                                outcome := Normal (collection_of getFallbackDatasets) |}))
     = Some true.
Proof.
  assert (Hlate : forall ms,
             settles_after {| settles_after := Some 10000;
                              outcome := Normal (collection_of getFallbackDatasets) |}
             = Some ms -> 10000 <= ms).
  { intros ms [= <-]. lia. }
  split; [exact Hlate |].
  destruct (loadDatasets_import_timeout _ Hlate) as [Hresult _].
  rewrite Hresult. reflexivity.
Defined.

(** X12. What [loadDatasets] returns: never an empty list and never a
    record that fails validation. The list is the [datasets] array of the
    imported document, in order, without the records that fail; the
    document arrived before the timeout and its envelope is well formed. *)
Theorem loadDatasets_returns_valid_records (imported : Pending JsValue)
    (loaded : list JsValue)
    (Hloaded : result (loadDatasets imported) = Normal loaded) :
  loaded <> []
  /\ Forall (fun d => validateDataset d = true) loaded
  /\ exists (data : JsValue) (datasets : list JsValue),
       race_timeout imported 10000 "Import timeout" = Normal data
       /\ well_formed_envelope data
       /\ Js.get data "datasets" = JArray datasets
       /\ loaded = List.filter validateDataset datasets
       /\ calls (loadDatasets imported)
          = [Call_validateDatasetCollectionDetailed; Call_filterValidDatasets].
Proof.
  unfold loadDatasets in *.
  destruct (race_timeout imported 10000 "Import timeout") as [data | e] eqn:Hrace.
  2:{ cbn [result] in Hloaded. destruct e as [[m | m c k r] | v]; simpl in Hloaded;
        try destruct (classify _); discriminate. }
  cbn [result calls] in *. unfold loadDatasets_validate in *.
  destruct (validateDatasetCollectionDetailed data) as [cv | e] eqn:Hcv.
  2:{ cbn [result try_catch] in Hloaded. destruct e as [[m | m c k r] | v];
        simpl in Hloaded; try destruct (classify _); discriminate. }
  destruct (isValid cv) eqn:Hvalid; cbn [negb] in *.
  2:{ discriminate. }
  destruct (envelope_valid_iff_well_formed_aux data cv Hcv Hvalid)
    as (Hwf & datasets & Hds & Hany).
  rewrite Hany in *.
  destruct (Nat.eqb (length (valid (filterValidDatasets datasets))) 0) eqn:Hlen;
    cbn [result calls try_catch] in *; [discriminate |].
  injection Hloaded as <-.
  rewrite filterValidDatasets_spec in *. cbn [valid] in *.
  split.
  { intros Hnil. rewrite Hnil in Hlen. discriminate. }
  split.
  { apply List.Forall_forall. intros d Hd. apply filter_In in Hd. tauto. }
  exists data, datasets. auto.
Qed.

Lemma loadDatasets_returns_valid_records_witness :
  result (loadDatasets (imported_in_time (collection_of records_sharing_id)))
  = Normal records_sharing_id
  /\ records_sharing_id <> []
  /\ Forall (fun d => validateDataset d = true) records_sharing_id.
Proof.
  pose proof loadDatasets_keeps_duplicate_ids as Hloaded.
  split; [exact Hloaded |].
  destruct (loadDatasets_returns_valid_records
              (imported_in_time (collection_of records_sharing_id))
              records_sharing_id Hloaded) as (Hne & Hall & _).
  split; [exact Hne | exact Hall].
Defined.

(** X13. Schema validation and loading agree: a document that passes
    [validateJsonSchema] loses no record in [loadDatasets]. If it arrives
    before the timeout, the loader returns its whole [datasets] array,
    unless the array is empty, in which case the loader fails with the
    recoverable [VALIDATION_ERROR] of a document without valid record. *)
Theorem schema_valid_document_loads_completely (imported : Pending JsValue)
    (data : JsValue) (r : ValidationResult)
    (Himported : race_timeout imported 10000 "Import timeout" = Normal data)
    (Hschema : validateJsonSchema data = Normal r)
    (Hvalid : isValid r = true) :
  exists datasets : list JsValue,
    Js.get data "datasets" = JArray datasets
    /\ NoDup (List.map (fun d => Js.get d "id") datasets)
    /\ (datasets <> [] -> result (loadDatasets imported) = Normal datasets)
    /\ (datasets = [] ->
        recoverable_flag_of (result (loadDatasets imported)) = Some true
        /\ error_code_of (result (loadDatasets imported)) = Some VALIDATION_ERROR).
Proof.
  unfold validateJsonSchema in Hschema.
  destruct (validateDatasetCollectionDetailed data) as [cv | e] eqn:Hcv; [| discriminate].
  cbn [mbind Completion_bind] in Hschema.
  destruct (isValid cv) eqn:Hcvalid.
  2:{ exfalso. injection Hschema as <-.
      apply verdict_isValid in Hvalid. cbn [push_errors push_warnings fst snd] in Hvalid.
      simpl in Hvalid. apply (collection_isValid_errors data cv Hcv) in Hvalid.
      congruence. }
  destruct (envelope_valid_iff_well_formed_aux data cv Hcv Hcvalid)
    as (Hwf & datasets & Hds & Hany).
  rewrite Hds in Hschema. injection Hschema as <-.
  apply verdict_isValid, schema_loop_clean in Hvalid.
  destruct Hvalid as (_ & Hall & Hnodup & _).
  exists datasets. split; [exact Hds |]. split; [exact Hnodup |].
  unfold loadDatasets. rewrite Himported. cbn [result calls].
  unfold loadDatasets_validate. rewrite Hcv, Hcvalid, Hany. cbn [negb].
  rewrite filterValidDatasets_spec. cbn [valid].
  rewrite (filter_all_valid datasets Hall).
  destruct datasets as [| d rest]; cbn [length Nat.eqb result try_catch].
  - split; [intros Hne; now destruct Hne |]. intros _. split; reflexivity.
  - split; [reflexivity | discriminate].
Qed.

Lemma schema_valid_document_loads_completely_witness :
  race_timeout (imported_in_time (collection_of records_sharing_code)) 10000 "Import timeout"
  = Normal (collection_of records_sharing_code)
  /\ (exists r, validateJsonSchema (collection_of records_sharing_code) = Normal r
                /\ isValid r = true)
  /\ result (loadDatasets (imported_in_time (collection_of records_sharing_code)))
     = Normal records_sharing_code.
Proof.
  split; [reflexivity |].
  destruct shared_country_code_passes as (r & Hr & Hvalid & _).
  split; [exists r; split; assumption |].
  destruct (schema_valid_document_loads_completely
              (imported_in_time (collection_of records_sharing_code))
              (collection_of records_sharing_code) r eq_refl Hr Hvalid)
    as (datasets & Hds & _ & Hloads & _).
  assert (Heq : datasets = records_sharing_code).
  { change (Js.get (collection_of records_sharing_code) "datasets")
      with (JArray records_sharing_code) in Hds. now injection Hds. }
  subst datasets. apply Hloads. discriminate.
Defined.

Lemma characters_are_invalid (cs : list ascii) :
  List.filter validateDataset (List.map (fun c => JString (String c EmptyString)) cs) = [].
Proof. induction cs as [| c cs IH]; [reflexivity | exact IH]. Qed.

(** X14. With an emergency cache that is missing, unreadable, unparsable
    or parsed to anything but a plain object (an array, as
    [saveEmergencyCache] stores, or a primitive), [attemptRecovery] never
    returns an empty list and never returns a record that fails
    validation. It fails only for an error that is not recoverable; the
    failure is an [UNKNOWN_ERROR] that is not recoverable and whose cause
    is the original error. For such an error a cached array with a valid
    record is returned filtered, and every other cache gives the
    failure. *)
Theorem attemptRecovery_results (originalError : JsError) (storage : EmergencyCache)
    (Hshape : forall properties, storage <> Parsed (JObject properties)) :
  (forall recovered : list JsValue,
     attemptRecovery originalError storage = Normal recovered ->
     recovered <> [] /\ Forall (fun d => validateDataset d = true) recovered)
  /\ (forall t : Thrown,
        attemptRecovery originalError storage = Throw t ->
        recoverable_of originalError = false
        /\ t = ThrowError
                 (DataLoaderError
                    "Unable to recover data. Please refresh the page or contact support."
                    (Some originalError) (Some UNKNOWN_ERROR) false))
  /\ (forall cached : list JsValue,
        recoverable_of originalError = false ->
        storage = Parsed (JArray cached) ->
        List.filter validateDataset cached <> [] ->
        attemptRecovery originalError storage
        = Normal (List.filter validateDataset cached))
  /\ (recoverable_of originalError = false ->
      (forall cached : list JsValue,
         storage = Parsed (JArray cached) -> List.filter validateDataset cached = []) ->
      attemptRecovery originalError storage
      = Throw (ThrowError
                 (DataLoaderError
                    "Unable to recover data. Please refresh the page or contact support."
                    (Some originalError) (Some UNKNOWN_ERROR) false))).
Proof.
  assert (Hstrategy2 : forall recovered,
            match storage with
            | Parsed parsedData =>
                match filterValidDatasets_any parsedData with
                | Normal validation =>
                    if Nat.ltb 0 (length (valid validation)) then Normal (valid validation)
                    else Throw (ThrowError
                                  (DataLoaderError
                                     "Unable to recover data. Please refresh the page or contact support."
                                     (Some originalError) (Some UNKNOWN_ERROR) false))
                | Throw _ =>
                    Throw (ThrowError
                             (DataLoaderError
                                "Unable to recover data. Please refresh the page or contact support."
                                (Some originalError) (Some UNKNOWN_ERROR) false))
                end
            | _ => Throw (ThrowError
                            (DataLoaderError
                               "Unable to recover data. Please refresh the page or contact support."
                               (Some originalError) (Some UNKNOWN_ERROR) false))
            end = Normal recovered ->
            recovered <> [] /\ Forall (fun d => validateDataset d = true) recovered).
  { intros recovered. destruct storage as [t | | t | parsedData]; try discriminate.
    unfold filterValidDatasets_any.
    destruct (array_like parsedData) as [datasets | t]; [| discriminate].
    cbn [mbind Completion_bind]. rewrite filterValidDatasets_spec. cbn [valid].
    destruct (Nat.ltb_spec 0 (length (List.filter validateDataset datasets)));
      [| discriminate].
    intros [= <-]. split.
    - intros Hnil. rewrite Hnil in *. simpl in *. lia.
    - apply List.Forall_forall. intros d Hd. apply filter_In in Hd. tauto. }
  split; [| split; [| split]].
  - intros recovered. unfold attemptRecovery. cbv zeta.
    destruct (recoverable_of originalError); [| apply Hstrategy2].
    rewrite fallback_filtered. cbn [getFallbackDatasets length Nat.ltb Nat.leb].
    intros [= <-]. split; [discriminate | exact fallback_valid].
  - intros t. unfold attemptRecovery. cbv zeta.
    destruct (recoverable_of originalError).
    + rewrite fallback_filtered. cbn [getFallbackDatasets length Nat.ltb Nat.leb].
      discriminate.
    + intros Ht. split; [reflexivity |].
      destruct storage as [t' | | t' | parsedData]; try (now injection Ht).
      destruct (filterValidDatasets_any parsedData) as [fr | t']; [| now injection Ht].
      destruct (Nat.ltb 0 (length (valid fr))); [discriminate | now injection Ht].
  - intros cached Hnot -> Hsome. unfold attemptRecovery. cbv zeta. rewrite Hnot.
    unfold filterValidDatasets_any. cbn [array_like mbind Completion_bind].
    rewrite filterValidDatasets_spec. cbn [valid].
    destruct (List.filter validateDataset cached) as [| d rest]; [now destruct Hsome |].
    reflexivity.
  - intros Hnot Hnone. unfold attemptRecovery. cbv zeta. rewrite Hnot.
    destruct storage as [t | | t | parsedData]; try reflexivity.
    unfold filterValidDatasets_any.
    destruct parsedData as [| | b | n | s | cached | properties];
      cbn [array_like mbind Completion_bind]; try reflexivity.
    + rewrite filterValidDatasets_spec. cbn [valid].
      now rewrite characters_are_invalid.
    + rewrite filterValidDatasets_spec. cbn [valid].
      now rewrite (Hnone cached eq_refl).
    + now destruct (Hshape properties).
Qed.

Lemma attemptRecovery_results_witness :
  attemptRecovery (Error "The quota has been exceeded")
    (Parsed (JArray (getFallbackDatasets ++ [JNull])))
  = Normal getFallbackDatasets.
Proof.
  destruct (attemptRecovery_results (Error "The quota has been exceeded")
              (Parsed (JArray (getFallbackDatasets ++ [JNull])))
              ltac:(discriminate)) as (_ & _ & Hcached & _).
  apply (Hcached (getFallbackDatasets ++ [JNull]) eq_refl eq_refl).
  vm_compute. discriminate.
Defined.

(** ** Asset paths, filtering and the record validator *)

Lemma endsWith_suffix (s suffix : string) :
  Str.endsWith s suffix = true <-> exists pre : string, s = pre +:+ suffix.
Proof.
  induction s as [| c s IH]; cbn [Str.endsWith].
  - rewrite orb_false_r. split.
    + intros Heq. apply String.eqb_eq in Heq. exists EmptyString. now subst.
    + intros (pre & Hpre). destruct pre; [| discriminate].
      unfold append in Hpre. subst suffix. apply String.eqb_refl.
  - rewrite orb_true_iff, IH. split.
    + intros [Heq | (pre & ->)].
      * apply String.eqb_eq in Heq. exists EmptyString. now rewrite Heq.
      * exists (String c pre). reflexivity.
    + intros (pre & Hpre). destruct pre as [| c' pre];
        unfold append in Hpre; fold append in Hpre.
      * left. rewrite Hpre. apply String.eqb_refl.
      * injection Hpre as -> ->. right. exists pre. reflexivity.
Qed.

Lemma append_assoc (a b c : string) : (a +:+ b) +:+ c = a +:+ (b +:+ c).
Proof.
  induction a as [| x a IH]; unfold append; fold append; [reflexivity | now rewrite IH].
Qed.

(** X15. [getAssetPath] answers a path exactly for a non-empty name that
    ends in [.csv]; the path is the name under [public/assets/samples/],
    so it ends in [.csv] too, and different names get different paths.
    The empty name and a name with another ending each throw a
    [DataLoaderError] that, built without flag, counts as recoverable. *)
Theorem getAssetPath_resolves (filename : string) :
  (forall assetPath : string,
     getAssetPath filename = Normal assetPath
     <-> filename <> EmptyString
         /\ Str.endsWith filename ".csv" = true
         /\ assetPath = "public/assets/samples/" +:+ filename)
  /\ (forall assetPath : string,
        getAssetPath filename = Normal assetPath -> Str.endsWith assetPath ".csv" = true)
  /\ (forall other assetPath : string,
        getAssetPath filename = Normal assetPath ->
        getAssetPath other = Normal assetPath ->
        other = filename)
  /\ (forall t : Thrown,
        getAssetPath filename = Throw t ->
        recoverable_flag t = Some true /\ error_code t = None
        /\ (filename = EmptyString \/ Str.endsWith filename ".csv" = false)).
Proof.
  assert (Hiff : forall f assetPath : string,
            getAssetPath f = Normal assetPath
            <-> f <> EmptyString /\ Str.endsWith f ".csv" = true
                /\ assetPath = "public/assets/samples/" +:+ f).
  { intros f assetPath. unfold getAssetPath.
    destruct (String.eqb_spec f EmptyString) as [-> | Hne].
    - split; [discriminate | intros (Hne & _); now destruct Hne].
    - destruct (Str.endsWith f ".csv") eqn:Hcsv; cbn [negb].
      + split.
        * intros [= <-]. auto.
        * intros (_ & _ & ->). reflexivity.
      + split; [discriminate | intros (_ & Hc & _); discriminate]. }
  split; [apply Hiff |]. split; [| split].
  - intros assetPath Hpath. apply Hiff in Hpath. destruct Hpath as (_ & Hcsv & ->).
    apply endsWith_suffix in Hcsv. destruct Hcsv as (pre & ->).
    apply endsWith_suffix. exists ("public/assets/samples/" +:+ pre).
    now rewrite append_assoc.
  - intros other assetPath H1 H2. apply Hiff in H1, H2.
    destruct H1 as (_ & _ & ->). destruct H2 as (_ & _ & Heq).
    unfold append in Heq; fold append in Heq. now injection Heq.
  - intros t. unfold getAssetPath.
    destruct (String.eqb_spec filename EmptyString) as [-> | Hne].
    + intros [= <-]. simpl. auto.
    + destruct (Str.endsWith filename ".csv") eqn:Hcsv; cbn [negb]; [discriminate |].
      intros [= <-]. simpl. auto.
Qed.

(** X16. Filtering composes: the valid records of two lists taken
    together are the valid records of the first followed by those of the
    second, and filtering the valid records again keeps all of them and
    rejects none. *)
Theorem filterValidDatasets_composes (l1 l2 : list JsValue) :
  valid (filterValidDatasets (l1 ++ l2))
  = valid (filterValidDatasets l1) ++ valid (filterValidDatasets l2)
  /\ valid (filterValidDatasets (valid (filterValidDatasets l1)))
     = valid (filterValidDatasets l1)
  /\ invalid (filterValidDatasets (valid (filterValidDatasets l1))) = []
  /\ (length (invalid (filterValidDatasets (l1 ++ l2)))
      = length (invalid (filterValidDatasets l1))
        + length (invalid (filterValidDatasets l2)))%nat.
Proof.
  rewrite !filterValidDatasets_spec. cbn [valid invalid].
  assert (Hall : Forall (fun d => validateDataset d = true) (List.filter validateDataset l1)).
  { apply List.Forall_forall. intros d Hd. apply filter_In in Hd. tauto. }
  split; [apply List.filter_app |].
  split; [apply filter_all_valid, Hall |].
  split.
  - apply length_zero_iff_nil.
    rewrite <- (length_map inv_dataset), rejected_datasets.
    pose proof (filter_lengths validateDataset (List.filter validateDataset l1)) as Hlen.
    rewrite (filter_all_valid _ Hall) in Hlen. lia.
  - rewrite <- !(length_map inv_dataset), !rejected_datasets.
    rewrite List.filter_app, length_app. reflexivity.
Qed.

Lemma validate_field_reads_one_field (d1 d2 : JsValue) (path : string)
    (v : FieldValidation) (r : Report) :
  Js.get d1 (v_field v) = Js.get d2 (v_field v) ->
  validate_field d1 path v r = validate_field d2 path v r.
Proof. intros Hsame. unfold validate_field. cbv zeta. now rewrite Hsame. Qed.

Lemma validate_fields_read_table (d1 d2 : JsValue) (path : string)
    (vs : list FieldValidation) :
  Forall (fun v => Js.get d1 (v_field v) = Js.get d2 (v_field v)) vs ->
  forall r : Report,
    fold_left (fun r v => validate_field d1 path v r) vs r
    = fold_left (fun r v => validate_field d2 path v r) vs r.
Proof.
  induction 1 as [| v vs Hv Hvs IH]; intros r; cbn [fold_left]; [reflexivity |].
  rewrite (validate_field_reads_one_field d1 d2 path v r Hv). apply IH.
Qed.

(** X17. Only the seven fields count: two objects that hold the same
    values in the seven fields get the same verdict, the same errors and
    the same warnings, whatever other properties they have. *)
Theorem validation_ignores_other_properties (d1 d2 : JsValue) (path : string)
    (Hobject1 : not_an_object d1 = false)
    (Hobject2 : not_an_object d2 = false)
    (Hsame : forall name, In name record_fields -> Js.get d1 name = Js.get d2 name) :
  validateDatasetDetailed d1 path = validateDatasetDetailed d2 path.
Proof.
  unfold validateDatasetDetailed. rewrite Hobject1, Hobject2.
  assert (Htable : Forall (fun v => Js.get d1 (v_field v) = Js.get d2 (v_field v))
                     fieldValidations).
  { apply List.Forall_forall. intros v Hv. apply Hsame.
    assert (Hname : In (v_field v) (List.map v_field fieldValidations)) by now apply in_map.
    rewrite table_fields in Hname. unfold record_fields. simpl in *. tauto. }
  rewrite (validate_fields_read_table d1 d2 path fieldValidations Htable).
  unfold validate_status, validate_postalCodeCount. cbv zeta.
  rewrite (Hsame "postalCodeCount"), (Hsame "status")
    by (unfold record_fields; simpl; tauto).
  reflexivity.
Qed.

Lemma validation_ignores_other_properties_witness :
  not_an_object (record_with "us" "US" (JNumber (Num.of_Z 41692))) = false
  /\ not_an_object
       (Js.object
          [ ("id", JString "us"); ("countryName", JString "United States");
            ("countryCode", JString "US"); ("postalCodeCount", JNumber (Num.of_Z 41692));
            ("region", JString "North America"); ("status", JString "active");
            ("sampleFileName", JString "us-postal-codes-sample.csv");
            ("lastUpdatedDate", JString "2025-01-09"); ("admin1Count", JNull) ]) = false
  /\ validateDatasetDetailed (record_with "us" "US" (JNumber (Num.of_Z 41692))) "dataset"
     = validateDatasetDetailed
         (Js.object
            [ ("id", JString "us"); ("countryName", JString "United States");
              ("countryCode", JString "US"); ("postalCodeCount", JNumber (Num.of_Z 41692));
              ("region", JString "North America"); ("status", JString "active");
              ("sampleFileName", JString "us-postal-codes-sample.csv");
              ("lastUpdatedDate", JString "2025-01-09"); ("admin1Count", JNull) ])
         "dataset".
Proof.
  split; [reflexivity |]. split; [reflexivity |].
  apply validation_ignores_other_properties; [reflexivity | reflexivity |].
  intros name Hin. unfold record_fields in Hin. simpl in Hin.
  destruct Hin as [<- | [<- | [<- | [<- | [<- | [<- | [<- | []]]]]]]]; reflexivity.
Defined.

(** ** Downloading a sample file *)

Lemma download_catch_continues (maxRetries attempt : Z) (error : Thrown) (wait : Z)
    (lastError : JsError) :
  download_catch maxRetries attempt error = Continues wait lastError ->
  attempt <= maxRetries /\ wait = backoff attempt.
Proof.
  unfold download_catch.
  destruct error as [[m | m cause code recoverable] | v]; cbv zeta.
  - destruct (Z.ltb_spec maxRetries attempt); [discriminate |]. intros [= <- _]. auto.
  - destruct recoverable; cbn [negb orb]; [| discriminate].
    destruct (Z.ltb_spec maxRetries attempt); [discriminate |]. intros [= <- _]. auto.
  - destruct (Z.ltb_spec maxRetries attempt); [discriminate |]. intros [= <- _]. auto.
Qed.

Lemma download_catch_not_returns (maxRetries attempt : Z) (error : Thrown) (blob : Blob) :
  download_catch maxRetries attempt error <> Returns blob.
Proof.
  unfold download_catch.
  destruct error as [[m | m cause code recoverable] | v]; cbv zeta;
    repeat match goal with
           | |- context [if ?c then _ else _] => destruct c
           end; discriminate.
Qed.

Lemma download_catch_rethrows (maxRetries attempt : Z) (error t : Thrown) :
  download_catch maxRetries attempt error = Rethrows t ->
  exists m cause code recoverable, t = ThrowError (DataLoaderError m cause code recoverable).
Proof.
  unfold download_catch.
  destruct error as [[m | m cause code recoverable] | v]; cbv zeta;
    repeat match goal with
           | |- context [if ?c then _ else _] => destruct c
           end; try discriminate; intros [= <-]; eauto.
Qed.

(** An attempt that ends in the catch clause ends as the catch clause does. *)
Ltac by_catch lemma :=
  let H := fresh "H" in
  intros H; apply (f_equal snd) in H; cbn [snd] in H; now apply lemma in H.

Lemma download_attempt_continues (fetch : Pending Download) (filename : string)
    (maxRetries attempt : Z) (called : bool) (wait : Z) (lastError : JsError) :
  download_attempt fetch filename maxRetries attempt = (called, Continues wait lastError) ->
  attempt <= maxRetries /\ wait = backoff attempt.
Proof.
  unfold download_attempt, download_response.
  destruct (getAssetPath filename) as [assetPath | t].
  - destruct (race_timeout fetch 30000 abort_message) as [d | t].
    + destruct (negb (ok (response d))).
      * destruct (negb (recoverable_of (http_error (response d)))); cbn [orb].
        -- by_catch download_catch_continues.
        -- destruct (Z.ltb_spec maxRetries attempt).
           ++ by_catch download_catch_continues.
           ++ intros [= _ <- _]. auto.
      * destruct (body d) as [blob | t].
        -- destruct (Nat.eqb (blob_size blob) 0); [| discriminate].
           by_catch download_catch_continues.
        -- by_catch download_catch_continues.
    + by_catch download_catch_continues.
  - by_catch download_catch_continues.
Qed.

Lemma download_attempt_rethrows (fetch : Pending Download) (filename : string)
    (maxRetries attempt : Z) (called : bool) (t : Thrown) :
  download_attempt fetch filename maxRetries attempt = (called, Rethrows t) ->
  exists m cause code recoverable, t = ThrowError (DataLoaderError m cause code recoverable).
Proof.
  unfold download_attempt, download_response.
  destruct (getAssetPath filename) as [assetPath | t'].
  - destruct (race_timeout fetch 30000 abort_message) as [d | t'].
    + destruct (negb (ok (response d))).
      * destruct (negb (recoverable_of (http_error (response d)))
                  || (maxRetries <? attempt))%bool.
        -- by_catch download_catch_rethrows.
        -- discriminate.
      * destruct (body d) as [blob | t'].
        -- destruct (Nat.eqb (blob_size blob) 0); [| discriminate].
           by_catch download_catch_rethrows.
        -- by_catch download_catch_rethrows.
    + by_catch download_catch_rethrows.
  - by_catch download_catch_rethrows.
Qed.

Lemma download_attempt_returns (fetch : Pending Download) (filename : string)
    (maxRetries attempt : Z) (called : bool) (blob : Blob) :
  download_attempt fetch filename maxRetries attempt = (called, Returns blob) ->
  called = true
  /\ blob_size blob <> 0%nat
  /\ exists (assetPath : string) (d : Download),
       getAssetPath filename = Normal assetPath
       /\ race_timeout fetch 30000 abort_message = Normal d
       /\ ok (response d) = true
       /\ body d = Normal blob.
Proof.
  unfold download_attempt, download_response.
  destruct (getAssetPath filename) as [assetPath | t].
  - destruct (race_timeout fetch 30000 abort_message) as [d | t].
    + destruct (ok (response d)) eqn:Hok; cbn [negb].
      * destruct (body d) as [b | t] eqn:Hbody.
        -- destruct (Nat.eqb_spec (blob_size b) 0) as [Hz | Hnz].
           ++ by_catch download_catch_not_returns.
           ++ intros [= <- <-]. split; [reflexivity |]. split; [exact Hnz |].
              exists assetPath, d. auto.
        -- by_catch download_catch_not_returns.
      * destruct (negb (recoverable_of (http_error (response d)))
                  || (maxRetries <? attempt))%bool.
        -- by_catch download_catch_not_returns.
        -- discriminate.
    + by_catch download_catch_not_returns.
  - by_catch download_catch_not_returns.
Qed.

Lemma attempts_from_S (a : Z) (k : nat) :
  attempts_from a (S k) = a :: attempts_from (a + 1) k.
Proof.
  unfold attempts_from. cbn [seq List.map]. rewrite Z.add_0_r. f_equal.
  rewrite <- seq_shift, map_map. apply map_ext. intros i. lia.
Qed.

Lemma total_wait_app (ws1 ws2 : list Z) :
  total_wait (ws1 ++ ws2) = total_wait ws1 + total_wait ws2.
Proof. unfold total_wait. induction ws1 as [| w ws1 IH]; simpl; lia. Qed.


(** What the loop leaves behind, from any turn on. *)
Lemma download_loop_trace (fetch : Z -> Pending Download) (filename : string)
    (maxRetries : Z) (fuel : nat) :
  forall (attempt : Z) (lastError : option JsError) (fetched_acc waits_acc : list Z),
    let run := download_loop fetch filename maxRetries fuel attempt lastError
                 fetched_acc waits_acc in
    exists (k : nat) (fs : list Z),
      waits run = waits_acc ++ List.map backoff (attempts_from attempt k)
      /\ fetched run = fetched_acc ++ fs
      /\ sublist fs (attempts_from attempt (S k))
      /\ (k = 0%nat \/ attempt + Z.of_nat k - 1 <= maxRetries)
      /\ (k <= fuel)%nat
      /\ (length fs <= fuel)%nat
      /\ (forall t, downloaded run = Throw t ->
          exists m cause code recoverable,
            t = ThrowError (DataLoaderError m cause code recoverable)).
Proof.
  induction fuel as [| fuel IH]; intros attempt lastError fetched_acc waits_acc run.
  - exists 0%nat, []. subst run. cbn [download_loop waits fetched downloaded].
    rewrite !app_nil_r. repeat split; auto.
    + apply sublist_nil_l.
    + intros t [= <-]. eauto.
  - subst run. cbn [download_loop].
    destruct (attempt <=? maxRetries + 1).
    2:{ exists 0%nat, []. cbn [waits fetched downloaded length]. rewrite !app_nil_r.
        repeat split; auto; [apply sublist_nil_l | lia | lia | intros t [= <-]; eauto]. }
    destruct (download_attempt (fetch attempt) filename maxRetries attempt)
      as [called ending] eqn:Hattempt.
    destruct ending as [blob | t | wait lastError'].
    + exists 0%nat, (if called then [attempt] else []).
      cbn [waits fetched downloaded]. rewrite app_nil_r.
      split; [reflexivity |].
      split; [destruct called; now rewrite ?app_nil_r |].
      split; [| split; [auto | split; [lia | split; [| discriminate]]]].
      * rewrite attempts_from_S. destruct called; [| apply sublist_nil_l].
        apply sublist_skip, sublist_nil_l.
      * destruct called; cbn [length]; lia.
    + exists 0%nat, (if called then [attempt] else []).
      cbn [waits fetched downloaded]. rewrite app_nil_r.
      split; [reflexivity |].
      split; [destruct called; now rewrite ?app_nil_r |].
      split; [| split; [auto | split; [lia | split]]].
      * rewrite attempts_from_S. destruct called; [| apply sublist_nil_l].
        apply sublist_skip, sublist_nil_l.
      * destruct called; cbn [length]; lia.
      * intros t' [= <-]. now apply download_attempt_rethrows in Hattempt.
    + apply download_attempt_continues in Hattempt. destruct Hattempt as [Hle ->].
      destruct (IH (attempt + 1) (Some lastError')
                  (if called then fetched_acc ++ [attempt] else fetched_acc)
                  (waits_acc ++ [backoff attempt]))
        as (k & fs & Hw & Hf & Hsub & Hbound & Hfuel & Hlen & Hthrow).
      exists (S k), (if called then attempt :: fs else fs).
      split; [rewrite Hw, attempts_from_S; cbn [List.map]; now rewrite <- app_assoc |].
      split; [rewrite Hf; destruct called; now rewrite <- ?app_assoc |].
      split.
      { rewrite (attempts_from_S attempt (S k)).
        destruct called; [now apply sublist_skip | now apply sublist_cons]. }
      split; [right; destruct Hbound as [-> | Hb]; lia |].
      split; [lia |].
      split; [destruct called; cbn [length]; lia | exact Hthrow].
Qed.

(** More fuel than turns changes nothing. *)
Lemma download_loop_fuel (fetch : Z -> Pending Download) (filename : string)
    (maxRetries : Z) (fuel : nat) :
  forall (attempt : Z) (lastError : option JsError) (fetched_acc waits_acc : list Z),
    (Z.to_nat (maxRetries + 2 - attempt) <= fuel)%nat ->
    download_loop fetch filename maxRetries fuel attempt lastError fetched_acc waits_acc
    = download_loop fetch filename maxRetries (Z.to_nat (maxRetries + 2 - attempt)) attempt
        lastError fetched_acc waits_acc.
Proof.
  induction fuel as [| fuel IH]; intros attempt lastError fetched_acc waits_acc Hfuel.
  - replace (Z.to_nat (maxRetries + 2 - attempt)) with 0%nat by lia. reflexivity.
  - destruct (Z.leb_spec attempt (maxRetries + 1)) as [Hle | Hgt].
    + replace (Z.to_nat (maxRetries + 2 - attempt))
        with (S (Z.to_nat (maxRetries + 2 - (attempt + 1)))) by lia.
      cbn [download_loop].
      destruct (attempt <=? maxRetries + 1); [| reflexivity].
      destruct (download_attempt (fetch attempt) filename maxRetries attempt)
        as [called [blob | t | wait lastError']]; try reflexivity.
      apply IH. lia.
    + replace (Z.to_nat (maxRetries + 2 - attempt)) with 0%nat by lia.
      cbn [download_loop].
      destruct (Z.leb_spec attempt (maxRetries + 1)); [lia | reflexivity].
Qed.

(** With a turn left, the loop ends inside a turn: the [throw] after it is
    not reached. *)
Lemma download_loop_ends (fetch : Z -> Pending Download) (filename : string)
    (maxRetries : Z) (fuel : nat) :
  forall (attempt : Z) (lastError : option JsError) (fetched_acc waits_acc : list Z),
    attempt <= maxRetries + 1 ->
    (Z.to_nat (maxRetries + 2 - attempt) <= fuel)%nat ->
    let run := download_loop fetch filename maxRetries fuel attempt lastError
                 fetched_acc waits_acc in
    exists (a : Z) (called : bool),
      attempt <= a <= maxRetries + 1
      /\ (called = true -> last (fetched run) = Some a)
      /\ match downloaded run with
         | Normal blob =>
             download_attempt (fetch a) filename maxRetries a = (called, Returns blob)
         | Throw t =>
             download_attempt (fetch a) filename maxRetries a = (called, Rethrows t)
         end.
Proof.
  induction fuel as [| fuel IH];
    intros attempt lastError fetched_acc waits_acc Hle Hfuel run; [lia |].
  subst run. cbn [download_loop].
  destruct (Z.leb_spec attempt (maxRetries + 1)); [| lia].
  destruct (download_attempt (fetch attempt) filename maxRetries attempt)
    as [called ending] eqn:Hattempt.
  destruct ending as [blob | t | wait lastError'].
  - exists attempt, called. cbn [fetched downloaded].
    split; [lia |]. split; [| exact Hattempt].
    intros ->. apply last_snoc.
  - exists attempt, called. cbn [fetched downloaded].
    split; [lia |]. split; [| exact Hattempt].
    intros ->. apply last_snoc.
  - apply download_attempt_continues in Hattempt. destruct Hattempt as [Hretry _].
    destruct (IH (attempt + 1) (Some lastError')
                (if called then fetched_acc ++ [attempt] else fetched_acc)
                (waits_acc ++ [wait]))
      as (a & called' & Ha & Hlast & Hend); [lia | lia |].
    exists a, called'. split; [lia | auto].
Qed.

(** A name that [getAssetPath] refuses is never requested. *)
Lemma download_loop_no_path (fetch : Z -> Pending Download) (filename : string)
    (maxRetries : Z) (t : Thrown) (fuel : nat) :
  getAssetPath filename = Throw t ->
  forall (attempt : Z) (lastError : option JsError) (fetched_acc waits_acc : list Z),
    fetched (download_loop fetch filename maxRetries fuel attempt lastError
               fetched_acc waits_acc) = fetched_acc.
Proof.
  intros Hpath.
  induction fuel as [| fuel IH]; intros attempt lastError fetched_acc waits_acc;
    [reflexivity |].
  cbn [download_loop]. destruct (attempt <=? maxRetries + 1); [| reflexivity].
  unfold download_attempt. rewrite Hpath.
  destruct (download_catch maxRetries attempt t); cbn [fetched]; auto.
Qed.

(** While every attempt fails in a way that is retried, the loop uses
    every attempt, waits after each but the last, and ends as the last
    attempt does. *)
Lemma download_loop_all_continue (fetch : Z -> Pending Download) (filename : string)
    (maxRetries : Z) (called : bool) (t : Thrown) :
  (forall a, 1 <= a <= maxRetries ->
     exists e, download_attempt (fetch a) filename maxRetries a
               = (called, Continues (backoff a) e)) ->
  download_attempt (fetch (maxRetries + 1)) filename maxRetries (maxRetries + 1)
  = (called, Rethrows t) ->
  forall (n : nat) (attempt : Z) (lastError : option JsError)
         (fetched_acc waits_acc : list Z),
    1 <= attempt ->
    attempt + Z.of_nat n = maxRetries + 1 ->
    download_loop fetch filename maxRetries (S n) attempt lastError fetched_acc waits_acc
    = {| fetched := fetched_acc ++ (if called then attempts_from attempt (S n) else []);
         waits := waits_acc ++ List.map backoff (attempts_from attempt n);
         downloaded := Throw t |}.
Proof.
  intros Hretry Hlast.
  induction n as [| n IH]; intros attempt lastError fetched_acc waits_acc H1 Hn.
  - assert (attempt = maxRetries + 1) as -> by lia.
    cbn [download_loop]. rewrite Z.leb_refl, Hlast.
    rewrite attempts_from_S. cbn [attempts_from seq List.map].
    destruct called; now rewrite !app_nil_r.
  - cbn [download_loop]. destruct (Z.leb_spec attempt (maxRetries + 1)); [| lia].
    destruct (Hretry attempt) as (e & ->); [lia |].
    fold download_loop.
    change (download_loop fetch filename maxRetries (S n) (attempt + 1) (Some e)
              (if called then fetched_acc ++ [attempt] else fetched_acc)
              (waits_acc ++ [backoff attempt])
            = {| fetched := fetched_acc
                            ++ (if called then attempts_from attempt (S (S n)) else []);
                 waits := waits_acc ++ List.map backoff (attempts_from attempt (S n));
                 downloaded := Throw t |}).
    rewrite IH by lia.
    rewrite (attempts_from_S attempt (S n)), (attempts_from_S attempt n).
    cbn [List.map]. rewrite <- !app_assoc. cbn [app].
    destruct called; [now rewrite <- app_assoc | now rewrite !app_nil_r].
Qed.

Lemma valid_filename (filename : JsValue) :
  (negb (Js.truthy filename) || negb (String.eqb (Js.typeof filename) "string"))%bool = false
  <-> exists name : string, filename = JString name /\ name <> EmptyString.
Proof.
  split.
  - destruct filename as [| | b | n | s | vs | o]; cbn [Js.truthy Js.typeof];
      rewrite ?orb_true_r; try discriminate.
    intros H. exists s. split; [reflexivity |].
    intros ->. discriminate.
  - intros (name & -> & Hname). cbn [Js.truthy Js.typeof].
    destruct (String.eqb_spec name EmptyString); [contradiction | reflexivity].
Qed.

Lemma downloadSampleFile_named (fetch : Z -> Pending Download) (name : string)
    (maxRetries : option Z) :
  name <> EmptyString ->
  downloadSampleFile fetch (JString name) maxRetries
  = download_loop fetch name (default 2 maxRetries)
      (Z.to_nat (default 2 maxRetries + 1)) 1 None [] [].
Proof.
  intros Hname. unfold downloadSampleFile. cbv zeta.
  destruct (negb (Js.truthy (JString name))
            || negb (String.eqb (Js.typeof (JString name)) "string"))%bool eqn:Hguard;
    [| reflexivity].
  exfalso. cbn [Js.truthy Js.typeof] in Hguard.
  destruct (String.eqb_spec name EmptyString); [contradiction | discriminate].
Qed.

Lemma downloadSampleFile_unnamed (fetch : Z -> Pending Download) (filename : JsValue)
    (maxRetries : option Z) :
  (forall name, filename = JString name -> name = EmptyString) ->
  downloadSampleFile fetch filename maxRetries
  = {| fetched := []; waits := [];
       downloaded :=
         Throw (ThrowError
                  (DataLoaderError "Invalid filename provided for download"
                     (Some (Error ("Invalid filename: " +:+ Js.toString filename)))
                     (Some VALIDATION_ERROR) false)) |}.
Proof.
  intros Hname. unfold downloadSampleFile. cbv zeta.
  destruct (negb (Js.truthy filename)
            || negb (String.eqb (Js.typeof filename) "string"))%bool eqn:Hguard;
    [reflexivity |].
  apply valid_filename in Hguard. destruct Hguard as (name & -> & Hne).
  now specialize (Hname name eq_refl).
Qed.

Lemma filename_cases (filename : JsValue) :
  (exists name, filename = JString name /\ name <> EmptyString)
  \/ (forall name, filename = JString name -> name = EmptyString).
Proof.
  destruct filename as [| | b | n | s | vs | o]; try (right; discriminate).
  destruct (String.eqb_spec s EmptyString) as [-> | Hne].
  - right. now intros name [= <-].
  - left. eauto.
Qed.


(** X19. A blob returned by [downloadSampleFile] is not empty; it is the
    body of the last request made, at an attempt not after
    [maxRetries + 1], for a name ending in [.csv], answered within 30 s
    with a status between 200 and 299. *)
Theorem downloadSampleFile_success (fetch : Z -> Pending Download) (filename : JsValue)
    (maxRetries : option Z) (blob : Blob) :
  downloaded (downloadSampleFile fetch filename maxRetries) = Normal blob ->
  blob_size blob <> 0%nat
  /\ exists (name : string) (a : Z) (d : Download),
       filename = JString name
       /\ Str.endsWith name ".csv" = true
       /\ 1 <= a <= default 2 maxRetries + 1
       /\ last (fetched (downloadSampleFile fetch filename maxRetries)) = Some a
       /\ race_timeout (fetch a) 30000 abort_message = Normal d
       /\ ok (response d) = true
       /\ body d = Normal blob.
Proof.
  destruct (filename_cases filename) as [(name & -> & Hname) | Hinvalid].
  2:{ rewrite downloadSampleFile_unnamed by exact Hinvalid. discriminate. }
  rewrite downloadSampleFile_named by exact Hname.
  set (m := default 2 maxRetries).
  destruct (Z.le_gt_cases 0 m) as [Hm | Hm].
  2:{ replace (Z.to_nat (m + 1)) with 0%nat by lia. discriminate. }
  destruct (download_loop_ends fetch name m (Z.to_nat (m + 1)) 1 None [] [])
    as (a & called & Ha & Hlast & Hend); [lia | lia |].
  intros Hblob. rewrite Hblob in Hend.
  apply download_attempt_returns in Hend.
  destruct Hend as (-> & Hsize & assetPath & d & Hpath & Hrace & Hok & Hbody).
  split; [exact Hsize |].
  exists name, a, d. repeat split; auto; try lia.
  unfold getAssetPath in Hpath.
  destruct (String.eqb name EmptyString); [discriminate |].
  destruct (Str.endsWith name ".csv"); [reflexivity | discriminate].
Qed.

Lemma downloadSampleFile_success_witness :
  downloaded (downloadSampleFile unavailable_once (JString "us.csv") None)
  = Normal {| blob_size := 120; blob_type := "text/csv" |}
  /\ fetched (downloadSampleFile unavailable_once (JString "us.csv") None) = [1; 2]
  /\ blob_size {| blob_size := 120; blob_type := "text/csv" |} <> 0%nat.
Proof.
  assert (downloaded (downloadSampleFile unavailable_once (JString "us.csv") None)
          = Normal {| blob_size := 120; blob_type := "text/csv" |}) as H
    by (vm_compute; reflexivity).
  split; [exact H |]. split; [vm_compute; reflexivity |].
  exact (proj1 (downloadSampleFile_success unavailable_once (JString "us.csv") None _ H)).
Defined.

(** X20. [downloadSampleFile] fails with a [DataLoaderError] only; and
    when [maxRetries] is not negative the failure is the one thrown at an
    attempt, so the [throw] after the loop is reached for a negative
    [maxRetries] alone, before any request. *)
Theorem downloadSampleFile_failures (fetch : Z -> Pending Download) (filename : JsValue)
    (maxRetries : option Z) (t : Thrown) :
  let run := downloadSampleFile fetch filename maxRetries in
  downloaded run = Throw t ->
  (exists m cause code recoverable,
     t = ThrowError (DataLoaderError m cause code recoverable))
  /\ (forall name, filename = JString name -> name <> EmptyString ->
      (0 <= default 2 maxRetries ->
       exists (a : Z) (called : bool),
         1 <= a <= default 2 maxRetries + 1
         /\ download_attempt (fetch a) name (default 2 maxRetries) a
            = (called, Rethrows t))
      /\ (default 2 maxRetries < 0 ->
          run = {| fetched := []; waits := [];
                   downloaded :=
                     Throw (ThrowError
                              (DataLoaderError (ERROR_MESSAGES UNKNOWN_ERROR)
                                 (Some (Error "Unknown download failure"))
                                 (Some UNKNOWN_ERROR) true)) |})).
Proof.
  cbv zeta. intros Hthrow. split.
  - destruct (filename_cases filename) as [(name & -> & Hname) | Hinvalid].
    + rewrite downloadSampleFile_named in Hthrow by exact Hname.
      destruct (download_loop_trace fetch name (default 2 maxRetries)
                  (Z.to_nat (default 2 maxRetries + 1)) 1 None [] [])
        as (k & fs & _ & _ & _ & _ & _ & _ & Hcoded).
      now apply Hcoded.
    + rewrite downloadSampleFile_unnamed in Hthrow by exact Hinvalid.
      cbn [downloaded] in Hthrow. injection Hthrow as <-. eauto.
  - intros name -> Hname. rewrite downloadSampleFile_named in * by exact Hname.
    set (m := default 2 maxRetries) in *. split.
    + intros Hm.
      destruct (download_loop_ends fetch name m (Z.to_nat (m + 1)) 1 None [] [])
        as (a & called & Ha & _ & Hend); [lia | lia |].
      rewrite Hthrow in Hend. exists a, called. split; [lia | exact Hend].
    + intros Hm. replace (Z.to_nat (m + 1)) with 0%nat by lia. reflexivity.
Qed.

Lemma downloadSampleFile_failures_witness :
  exists t : Thrown,
    downloaded (downloadSampleFile always_unavailable (JString "us.csv") None) = Throw t
    /\ exists m cause code recoverable,
         t = ThrowError (DataLoaderError m cause code recoverable).
Proof.
  eexists. split; [vm_compute; reflexivity |].
  refine (proj1 (downloadSampleFile_failures always_unavailable (JString "us.csv") None
                   _ _)).
  vm_compute; reflexivity.
Defined.

Lemma endsWith_nonempty (name suffix : string) :
  suffix <> EmptyString -> Str.endsWith name suffix = true -> name <> EmptyString.
Proof.
  intros Hsuffix Hends ->. cbn [Str.endsWith] in Hends.
  rewrite orb_false_r in Hends. apply String.eqb_eq in Hends. now subst.
Qed.

(** X21. [downloadSampleFile] sends a request exactly when the filename is
    a string ending in [.csv] and [maxRetries] is not negative, and then
    the first request is that of attempt 1. *)
Theorem downloadSampleFile_requests_csv_only (fetch : Z -> Pending Download)
    (filename : JsValue) (maxRetries : option Z) :
  let run := downloadSampleFile fetch filename maxRetries in
  (fetched run <> []
   <-> exists name : string,
         filename = JString name /\ Str.endsWith name ".csv" = true
         /\ 0 <= default 2 maxRetries)
  /\ (fetched run <> [] -> head (fetched run) = Some 1).
Proof.
  cbv zeta.
  destruct (filename_cases filename) as [(name & -> & Hname) | Hinvalid].
  2:{ rewrite downloadSampleFile_unnamed by exact Hinvalid. cbn [fetched].
      split; [split |]; [congruence | | congruence].
      intros (name & -> & Hends & _).
      apply endsWith_nonempty in Hends; [| discriminate].
      now specialize (Hinvalid name eq_refl). }
  rewrite downloadSampleFile_named by exact Hname.
  set (m := default 2 maxRetries).
  destruct (Z.le_gt_cases 0 m) as [Hm | Hm].
  2:{ replace (Z.to_nat (m + 1)) with 0%nat by lia. cbn [download_loop fetched].
      split; [split |]; [congruence | | congruence].
      intros (name' & _ & _ & Hm'). lia. }
  destruct (getAssetPath name) as [assetPath | t] eqn:Hpath.
  - assert (Str.endsWith name ".csv" = true) as Hends.
    { unfold getAssetPath in Hpath.
      destruct (String.eqb name EmptyString); [discriminate |].
      destruct (Str.endsWith name ".csv"); [reflexivity | discriminate]. }
    assert (exists fs, fetched (download_loop fetch name m (Z.to_nat (m + 1)) 1 None [] [])
                       = 1 :: fs) as (fs & ->).
    { replace (Z.to_nat (m + 1)) with (S (Z.to_nat m)) by lia.
      cbn [download_loop]. destruct (Z.leb_spec 1 (m + 1)); [| lia].
      unfold download_attempt. rewrite Hpath.
      destruct (race_timeout (fetch 1) 30000 abort_message) as [d | t].
      - destruct (download_response m 1 d) as [blob | t | wait e]; cbn [fetched app]; eauto.
        destruct (download_loop_trace fetch name m (Z.to_nat m) (1 + 1) (Some e)
                    [1] [wait]) as (k & fs & _ & -> & _). eauto.
      - destruct (download_catch m 1 t) as [blob | t' | wait e]; cbn [fetched app]; eauto.
        destruct (download_loop_trace fetch name m (Z.to_nat m) (1 + 1) (Some e)
                    [1] [wait]) as (k & fs & _ & -> & _). eauto. }
    split; [split |]; [| discriminate | reflexivity].
    intros _. exists name. auto.
  - rewrite (download_loop_no_path fetch name m t _ Hpath).
    split; [split |]; [congruence | | congruence].
    intros (name' & [= <-] & Hends & _).
    unfold getAssetPath in Hpath.
    destruct (String.eqb_spec name EmptyString); [contradiction |].
    rewrite Hends in Hpath. discriminate.
Qed.

(** X22. A 404 or 403 answer at the first attempt ends the download at
    once, whatever [maxRetries] allows: one request, no wait, and a
    non-recoverable [FILE_NOT_FOUND] or [PERMISSION_ERROR]. *)
Theorem downloadSampleFile_permanent_status (fetch : Z -> Pending Download)
    (name : string) (maxRetries : option Z) (d : Download) :
  Str.endsWith name ".csv" = true ->
  0 <= default 2 maxRetries ->
  race_timeout (fetch 1) 30000 abort_message = Normal d ->
  status (response d) = 404 \/ status (response d) = 403 ->
  downloadSampleFile fetch (JString name) maxRetries
  = {| fetched := [1]; waits := [];
       downloaded :=
         Throw (ThrowError
                  (DataLoaderError
                     (ERROR_MESSAGES (if status (response d) =? 404
                                      then FILE_NOT_FOUND else PERMISSION_ERROR))
                     (Some (Error ("HTTP " +:+ Str.of_Z (status (response d)) +:+ ": "
                                   +:+ statusText (response d))))
                     (Some (if status (response d) =? 404
                            then FILE_NOT_FOUND else PERMISSION_ERROR))
                     false)) |}.
Proof.
  intros Hends Hm Hrace Hstatus.
  assert (name <> EmptyString) as Hname
    by (eapply endsWith_nonempty; [| exact Hends]; discriminate).
  rewrite downloadSampleFile_named by exact Hname.
  set (m := default 2 maxRetries) in *.
  replace (Z.to_nat (m + 1)) with (S (Z.to_nat m)) by lia.
  cbn [download_loop]. destruct (Z.leb_spec 1 (m + 1)); [| lia].
  unfold download_attempt, getAssetPath.
  destruct (String.eqb_spec name EmptyString); [contradiction |].
  rewrite Hends. cbn [negb]. rewrite Hrace.
  unfold download_response, ok, http_error, classify_status.
  destruct Hstatus as [-> | ->]; reflexivity.
Qed.

Lemma downloadSampleFile_permanent_status_witness :
  downloadSampleFile not_found (JString "us.csv") (Some 5)
  = {| fetched := [1]; waits := [];
       downloaded :=
         Throw (ThrowError
                  (DataLoaderError (ERROR_MESSAGES FILE_NOT_FOUND)
                     (Some (Error "HTTP 404: "))
                     (Some FILE_NOT_FOUND) false)) |}.
Proof.
  refine (downloadSampleFile_permanent_status not_found "us.csv" (Some 5)
            {| response := {| status := 404; statusText := "" |};
               body := Normal {| blob_size := 0; blob_type := "text/csv" |} |}
            _ _ _ _).
  - vm_compute; reflexivity.
  - vm_compute; discriminate.
  - vm_compute; reflexivity.
  - left; reflexivity.
Defined.

(** X23. For a name that does not end in [.csv] no request is ever sent,
    yet the refusal of [getAssetPath] is retried like a network failure:
    the call waits through all [maxRetries] back-off delays before it
    fails with that refusal. *)
Theorem downloadSampleFile_retries_bad_name (fetch : Z -> Pending Download)
    (name : string) (maxRetries : option Z) :
  name <> EmptyString ->
  Str.endsWith name ".csv" = false ->
  0 <= default 2 maxRetries ->
  downloadSampleFile fetch (JString name) maxRetries
  = {| fetched := [];
       waits := List.map backoff (attempts_from 1 (Z.to_nat (default 2 maxRetries)));
       downloaded :=
         Throw (ThrowError
                  (DataLoaderError_of_message "Asset filename must end with .csv")) |}.
Proof.
  intros Hname Hends Hm.
  rewrite downloadSampleFile_named by exact Hname.
  set (m := default 2 maxRetries) in *.
  assert (getAssetPath name
          = Throw (ThrowError
                     (DataLoaderError_of_message "Asset filename must end with .csv")))
    as Hpath.
  { unfold getAssetPath. destruct (String.eqb_spec name EmptyString); [contradiction |].
    now rewrite Hends. }
  replace (Z.to_nat (m + 1)) with (S (Z.to_nat m)) by lia.
  rewrite (download_loop_all_continue fetch name m false
             (ThrowError (DataLoaderError_of_message "Asset filename must end with .csv")));
    [reflexivity | | | lia | lia].
  - intros a Ha. unfold download_attempt. rewrite Hpath.
    unfold download_catch, DataLoaderError_of_message. cbn [negb orb].
    destruct (Z.ltb_spec m a); [lia |]. eauto.
  - unfold download_attempt. rewrite Hpath.
    unfold download_catch, DataLoaderError_of_message. cbn [negb orb].
    destruct (Z.ltb_spec m (m + 1)); [reflexivity | lia].
Qed.

Lemma downloadSampleFile_retries_bad_name_witness :
  downloadSampleFile not_found (JString "us.txt") None
  = {| fetched := [];
       waits := [1000; 2000];
       downloaded :=
         Throw (ThrowError
                  (DataLoaderError_of_message "Asset filename must end with .csv")) |}.
Proof.
  refine (downloadSampleFile_retries_bad_name not_found "us.txt" None _ _ _).
  - discriminate.
  - vm_compute; reflexivity.
  - vm_compute; discriminate.
Defined.

(** X24. While every request is answered in time with a status outside
    200..299 other than 404 and 403, [downloadSampleFile] uses every
    attempt: [maxRetries + 1] requests, a back-off wait after each but
    the last, and at the end the error of the last answer. *)
Theorem downloadSampleFile_exhausts_retries (fetch : Z -> Pending Download)
    (name : string) (maxRetries : option Z) (answer : Z -> Download) :
  Str.endsWith name ".csv" = true ->
  0 <= default 2 maxRetries ->
  (forall a, 1 <= a <= default 2 maxRetries + 1 ->
     race_timeout (fetch a) 30000 abort_message = Normal (answer a)
     /\ ok (response (answer a)) = false
     /\ status (response (answer a)) <> 404
     /\ status (response (answer a)) <> 403) ->
  downloadSampleFile fetch (JString name) maxRetries
  = {| fetched := attempts_from 1 (Z.to_nat (default 2 maxRetries + 1));
       waits := List.map backoff (attempts_from 1 (Z.to_nat (default 2 maxRetries)));
       downloaded :=
         Throw (ThrowError (http_error (response (answer (default 2 maxRetries + 1))))) |}.
Proof.
  intros Hends Hm Hanswers.
  assert (name <> EmptyString) as Hname
    by (eapply endsWith_nonempty; [| exact Hends]; discriminate).
  rewrite downloadSampleFile_named by exact Hname.
  set (m := default 2 maxRetries) in *.
  assert (getAssetPath name = Normal (ASSETS_BASE_PATH +:+ "/" +:+ name)) as Hpath.
  { unfold getAssetPath. destruct (String.eqb_spec name EmptyString); [contradiction |].
    now rewrite Hends. }
  assert (forall r, status r <> 404 -> status r <> 403 ->
                    recoverable_of (http_error r) = true) as Hrecoverable.
  { intros r H404 H403. unfold http_error, classify_status.
    destruct (Z.eqb_spec (status r) 404); [contradiction |].
    destruct (Z.eqb_spec (status r) 403); [contradiction |].
    repeat match goal with
           | |- context [if ?c then _ else _] => destruct c
           end; reflexivity. }
  replace (Z.to_nat (m + 1)) with (S (Z.to_nat m)) by lia.
  rewrite (download_loop_all_continue fetch name m true
             (ThrowError (http_error (response (answer (m + 1))))));
    [reflexivity | | | lia | lia].
  - intros a Ha. destruct (Hanswers a) as (Hrace & Hok & H404 & H403); [lia |].
    unfold download_attempt. rewrite Hpath, Hrace.
    unfold download_response. rewrite Hok, (Hrecoverable _ H404 H403). cbn [negb orb].
    destruct (Z.ltb_spec m a); [lia |]. eauto.
  - destruct (Hanswers (m + 1)) as (Hrace & Hok & H404 & H403); [lia |].
    unfold download_attempt. rewrite Hpath, Hrace.
    unfold download_response. rewrite Hok, (Hrecoverable _ H404 H403). cbn [negb orb].
    destruct (Z.ltb_spec m (m + 1)); [| lia].
    unfold download_catch.
    specialize (Hrecoverable _ H404 H403).
    destruct (http_error (response (answer (m + 1)))) as [msg | msg cause code recoverable];
      [discriminate |].
    cbn [recoverable_of] in Hrecoverable. rewrite Hrecoverable. cbn [negb orb].
    destruct (Z.ltb_spec m (m + 1)); [reflexivity | lia].
Qed.

Lemma downloadSampleFile_exhausts_retries_witness :
  downloadSampleFile always_unavailable (JString "us.csv") None
  = {| fetched := [1; 2; 3];
       waits := [1000; 2000];
       downloaded :=
         Throw (ThrowError
                  (DataLoaderError (ERROR_MESSAGES NETWORK_ERROR)
                     (Some (Error "HTTP 503: "))
                     (Some NETWORK_ERROR) true)) |}.
Proof.
  refine (downloadSampleFile_exhausts_retries always_unavailable "us.csv" None
            (fun _ => {| response := {| status := 503; statusText := "" |};
                         body := Normal {| blob_size := 0; blob_type := "text/csv" |} |})
            _ _ _).
  - vm_compute; reflexivity.
  - vm_compute; discriminate.
  - intros a Ha. repeat split; try (vm_compute; congruence).
Defined.

(** ** The rules of a record, read back from the validator *)

(** A required string field without error meets the rule of the field. *)
Lemma validate_field_rule (dataset : JsValue) (path : string) (v : FieldValidation) :
  v_required v = true ->
  v_type v = "string" ->
  (validate_field dataset path v ([], [])).1 = [] ->
  string_rule dataset (v_field v) (default 0%nat (v_minLength v)) (v_pattern v).
Proof.
  intros Hreq Htype. unfold validate_field. cbv zeta. rewrite Hreq, Htype.
  destruct (Js.get dataset (v_field v)) as [| | b | n | s | l | m] eqn:Hget;
    cbn [Js.nullish Js.typeof andb negb]; try discriminate.
  cbn [String.eqb Ascii.eqb Bool.eqb negb].
  unfold validate_string. cbv zeta.
  destruct (String.eqb_spec (Str.trim s) EmptyString) as [| Htrim]; [discriminate |].
  destruct (below_min (v_minLength v) s) as [m |] eqn:Hbelow.
  { destruct (above_max (v_maxLength v) s);
      destruct (pattern_fails (v_pattern v) s); discriminate. }
  destruct (pattern_fails (v_pattern v) s) eqn:Hfails.
  { destruct (above_max (v_maxLength v) s); discriminate. }
  intros _. exists s. split; [exact Hget |]. split; [exact Htrim |].
  split.
  - unfold below_min in Hbelow. destruct (v_minLength v) as [m |]; cbn [default from_option id]; [| lia].
    destruct (Nat.ltb_spec 0 m); [| lia].
    destruct (Nat.ltb_spec (String.length s) m); [discriminate | lia].
  - unfold pattern_fails in Hfails. destruct (v_pattern v); [| exact I].
    now apply negb_false_iff in Hfails.
Qed.

Lemma validate_postalCodeCount_rule (dataset : JsValue) (path : string) :
  (validate_postalCodeCount dataset path ([], [])).1 = [] ->
  exists n : number,
    Js.get dataset "postalCodeCount" = JNumber n
    /\ Num.isInteger n = true
    /\ Num.lt (Num.of_Z 0) n = true.
Proof.
  unfold validate_postalCodeCount. cbv zeta.
  destruct (Js.get dataset "postalCodeCount") as [| | b | n | s | l | m];
    cbn [Js.nullish]; try discriminate.
  destruct (Num.isInteger n) eqn:Hint; cbn [negb]; [| discriminate].
  destruct (Num.le n (Num.of_Z 0)) eqn:Hle; [discriminate |].
  intros _. exists n. split; [reflexivity |]. split; [exact Hint |].
  destruct n as [q | | |]; try discriminate.
  cbn [Num.lt Num.le Num.of_Z] in *. now rewrite Hle.
Qed.

Lemma validate_status_rule (dataset : JsValue) (path : string) :
  (validate_status dataset path ([], [])).1 = [] ->
  exists s : string,
    Js.get dataset "status" = JString s
    /\ In s ["active"; "inactive"; "coming-soon"].
Proof.
  unfold validate_status. cbv zeta.
  destruct (Js.get dataset "status") as [| | b | n | s | l | m];
    cbn [Js.nullish]; try discriminate.
  destruct (existsb (String.eqb s) validStatuses) eqn:Hin; cbn [negb]; [| discriminate].
  intros _. exists s. split; [reflexivity |].
  apply existsb_exists in Hin. destruct Hin as (x & Hx & Heq).
  apply String.eqb_eq in Heq. now subst x.
Qed.

(** X25. [validateDatasetDetailed] accepts exactly the records that
    satisfy all rules: an accepted record is an object whose five string
    fields, count and status each meet their rule, and conversely; so
    the verdict does not depend on the path. *)
Theorem valid_iff_satisfies_all_rules (dataset : JsValue) (path : string) :
  isValid (validateDatasetDetailed dataset path) = true <-> satisfies_all_rules dataset.
Proof.
  split.
  - intros Hvalid.
    assert (Hobj : not_an_object dataset = false).
    { unfold validateDatasetDetailed in Hvalid.
      destruct (not_an_object dataset); [discriminate | reflexivity]. }
    apply isValid_errors in Hvalid. rewrite record_errors in Hvalid by assumption.
    unfold fieldValidations in Hvalid. cbn [List.map concat] in Hvalid.
    apply app_eq_nil in Hvalid. destruct Hvalid as [Hfields Hrest].
    apply app_eq_nil in Hrest. destruct Hrest as [Hcount Hstatus].
    apply app_eq_nil in Hfields. destruct Hfields as [Hid Hfields].
    apply app_eq_nil in Hfields. destruct Hfields as [Hname Hfields].
    apply app_eq_nil in Hfields. destruct Hfields as [Hcode Hfields].
    apply app_eq_nil in Hfields. destruct Hfields as [Hregion Hfields].
    apply app_eq_nil in Hfields. destruct Hfields as [Hfile _].
    constructor.
    + exact Hobj.
    + now apply validate_field_rule in Hid.
    + now apply validate_field_rule in Hname.
    + now apply validate_field_rule in Hcode.
    + now apply validate_field_rule in Hregion.
    + now apply validate_field_rule in Hfile.
    + now apply validate_postalCodeCount_rule in Hcount.
    + now apply validate_status_rule in Hstatus.
  - intros Hrules. apply isValid_errors. now apply satisfies_all_rules_no_error.
Qed.

(** ** What the patterns of the record validator accept *)

Lemma append_nil_l (s : string) : EmptyString +:+ s = s.
Proof. reflexivity. Qed.

Lemma append_cons (c : ascii) (s1 s2 : string) :
  String c s1 +:+ s2 = String c (s1 +:+ s2).
Proof. reflexivity. Qed.

Lemma append_nil_r (s : string) : s +:+ EmptyString = s.
Proof. induction s as [| c s IH]; [reflexivity | now rewrite append_cons, IH]. Qed.

Lemma append_eq_nil (s1 s2 : string) :
  s1 +:+ s2 = EmptyString -> s1 = EmptyString /\ s2 = EmptyString.
Proof. destruct s1; [now rewrite append_nil_l | rewrite append_cons; discriminate]. Qed.

Lemma append_eq_cons (s1 s2 : string) (c : ascii) (s : string) :
  s1 +:+ s2 = String c s ->
  (s1 = EmptyString /\ s2 = String c s)
  \/ exists s1', s1 = String c s1' /\ s = s1' +:+ s2.
Proof.
  destruct s1 as [| c1 s1].
  - rewrite append_nil_l. auto.
  - rewrite append_cons. intros [= -> <-]. right. eauto.
Qed.

Lemma nullable_Matches (r : RegExp.regex) :
  RegExp.nullable r = true <-> Matches r EmptyString.
Proof.
  split.
  - induction r as [| | p | r1 IH1 r2 IH2 | r1 IH1 r2 IH2 | r IH]; cbn [RegExp.nullable];
      intros H; try discriminate.
    + constructor.
    + apply andb_prop in H. destruct H as [H1 H2].
      apply (Matches_Seq r1 r2 EmptyString EmptyString); auto.
    + apply orb_prop in H. destruct H as [H | H];
        [apply Matches_Alt_l | apply Matches_Alt_r]; auto.
    + constructor.
  - intros H. remember EmptyString as s eqn:Hs.
    induction H as [| p c Hp | r1 r2 s1 s2 H1 IH1 H2 IH2 | r1 r2 s H IH | r1 r2 s H IH
                    | r | r s1 s2 H1 IH1 H2 IH2]; cbn [RegExp.nullable];
      try reflexivity; try discriminate.
    + apply append_eq_nil in Hs. destruct Hs as [-> ->]. now rewrite IH1, IH2.
    + now rewrite IH.
    + rewrite IH by assumption. apply orb_true_r.
Qed.

Lemma deriv_Matches (c : ascii) (r : RegExp.regex) (s : string) :
  Matches (RegExp.deriv c r) s <-> Matches r (String c s).
Proof.
  split.
  - revert s.
    induction r as [| | p | r1 IH1 r2 IH2 | r1 IH1 r2 IH2 | r IH]; cbn [RegExp.deriv];
      intros s H.
    + inversion H.
    + inversion H.
    + destruct (p c) eqn:Hp; inversion H; subst. now constructor.
    + assert (forall s, Matches (RegExp.Seq (RegExp.deriv c r1) r2) s ->
                        Matches (RegExp.Seq r1 r2) (String c s)) as Hseq.
      { intros s' H'. inversion H' as [| | ? ? s1 s2 Ha Hb | | | |]; subst.
        rewrite <- append_cons. constructor; auto. }
      destruct (RegExp.nullable r1) eqn:Hnull; [| now apply Hseq].
      inversion H as [| | | ? ? ? Ha | ? ? ? Hb | |]; subst; [now apply Hseq |].
      rewrite <- (append_nil_l (String c s)). constructor; [| now apply IH2].
      now apply nullable_Matches.
    + inversion H as [| | | ? ? ? Ha | ? ? ? Hb | |]; subst;
        [apply Matches_Alt_l | apply Matches_Alt_r]; auto.
    + inversion H as [| | ? ? s1 s2 Ha Hb | | | |]; subst.
      rewrite <- append_cons. constructor; auto.
  - intros H. remember (String c s) as cs eqn:Hcs. revert s Hcs.
    induction H as [| p c' Hp | r1 r2 s1 s2 H1 IH1 H2 IH2 | r1 r2 s' H IH | r1 r2 s' H IH
                    | r | r s1 s2 H1 IH1 H2 IH2]; intros s Hcs; cbn [RegExp.deriv].
    + discriminate.
    + injection Hcs as -> <-. rewrite Hp. constructor.
    + apply append_eq_cons in Hcs. destruct Hcs as [[-> ->] | (s1' & -> & ->)].
      * apply nullable_Matches in H1. rewrite H1. apply Matches_Alt_r. now apply IH2.
      * assert (Matches (RegExp.Seq (RegExp.deriv c r1) r2) (s1' +:+ s2)) as Hseq
          by (constructor; auto).
        destruct (RegExp.nullable r1); [now apply Matches_Alt_l | exact Hseq].
    + apply Matches_Alt_l. now apply IH.
    + apply Matches_Alt_r. now apply IH.
    + discriminate.
    + apply append_eq_cons in Hcs. destruct Hcs as [[-> ->] | (s1' & -> & ->)].
      * now apply IH2.
      * constructor; auto.
Qed.

(** The matcher decides [Matches]. *)
Lemma matches_Matches (s : string) :
  forall r : RegExp.regex, RegExp.matches r s = true <-> Matches r s.
Proof.
  induction s as [| c s IH]; intros r; cbn [RegExp.matches].
  - apply nullable_Matches.
  - rewrite IH. apply deriv_Matches.
Qed.

Lemma Matches_Eps_inv (s : string) : Matches RegExp.Eps s <-> s = EmptyString.
Proof. split; [intros H; now inversion H | intros ->; constructor]. Qed.

Lemma Matches_Class_inv (p : ascii -> bool) (s : string) :
  Matches (RegExp.Class p) s <-> exists c, s = String c EmptyString /\ p c = true.
Proof.
  split.
  - intros H. inversion H; subst. eauto.
  - intros (c & -> & Hp). now constructor.
Qed.

Lemma Matches_Seq_inv (r1 r2 : RegExp.regex) (s : string) :
  Matches (RegExp.Seq r1 r2) s
  <-> exists s1 s2, s = s1 +:+ s2 /\ Matches r1 s1 /\ Matches r2 s2.
Proof.
  split.
  - intros H. inversion H; subst. eauto.
  - intros (s1 & s2 & -> & H1 & H2). now constructor.
Qed.

Lemma Matches_Chr (c : ascii) (s : string) :
  Matches (RegExp.Chr c) s <-> s = String c EmptyString.
Proof.
  unfold RegExp.Chr. rewrite Matches_Class_inv. split.
  - intros (c' & -> & Heq). apply Ascii.eqb_eq in Heq. now subst.
  - intros ->. exists c. split; [reflexivity | apply Ascii.eqb_refl].
Qed.

Lemma Matches_Star_Any (s : string) : Matches (RegExp.Star RegExp.Any) s.
Proof.
  induction s as [| c s IH]; [constructor |].
  change (String c s) with (String c EmptyString +:+ s).
  constructor; [now constructor | exact IH].
Qed.

Lemma Matches_Star_Class (p : ascii -> bool) (s : string) :
  Matches (RegExp.Star (RegExp.Class p)) s
  <-> forall c, In c (list_ascii_of_string s) -> p c = true.
Proof.
  split.
  - intros H. remember (RegExp.Star (RegExp.Class p)) as r eqn:Hr.
    induction H as [| | | | | r' | r' s1 s2 H1 _ H2 IH2]; try discriminate.
    + intros c [].
    + injection Hr as ->. specialize (IH2 eq_refl).
      apply Matches_Class_inv in H1. destruct H1 as (c1 & -> & Hp).
      rewrite append_cons, append_nil_l. cbn [list_ascii_of_string].
      intros c [<- | Hin]; auto.
  - induction s as [| c s IH]; cbn [list_ascii_of_string]; intros Hall; [constructor |].
    change (String c s) with (String c EmptyString +:+ s).
    constructor; [constructor | apply IH].
    + apply Hall. now left.
    + intros c' Hin. apply Hall. now right.
Qed.

(** [/\.csv$/] accepts the strings that end in [.csv]. *)
Lemma csv_pattern_endsWith (s : string) :
  RegExp.test RegExp.csv_pattern s = Str.endsWith s ".csv".
Proof.
  apply eq_true_iff_eq. unfold RegExp.test, RegExp.csv_pattern.
  cbn [RegExp.anchoredStart RegExp.anchoredEnd RegExp.body].
  rewrite matches_Matches, endsWith_suffix. split.
  - intros H. apply Matches_Seq_inv in H. destruct H as (pre & rest & -> & _ & H).
    apply Matches_Seq_inv in H. destruct H as (s1 & s2 & -> & H & He).
    apply Matches_Eps_inv in He. subst s2. rewrite append_nil_r.
    apply Matches_Seq_inv in H. destruct H as (a & s2 & -> & Ha & H).
    apply Matches_Seq_inv in H. destruct H as (b & s3 & -> & Hb & H).
    apply Matches_Seq_inv in H. destruct H as (c & d & -> & Hc & Hd).
    apply Matches_Chr in Ha, Hb, Hc, Hd. subst. exists pre. reflexivity.
  - intros (pre & ->). constructor; [apply Matches_Star_Any |].
    rewrite <- (append_nil_r ".csv"). constructor; [| constructor].
    change ".csv" with ("." +:+ ("c" +:+ ("s" +:+ "v"))).
    repeat (constructor; [now apply Matches_Chr |]). now apply Matches_Chr.
Qed.

(** [/^[a-z0-9-]+$/] accepts the non-empty strings of such characters. *)
Lemma id_pattern_chars (s : string) :
  RegExp.test RegExp.id_pattern s = true
  <-> s <> EmptyString /\ forall c, In c (list_ascii_of_string s) -> id_char c = true.
Proof.
  unfold RegExp.test, RegExp.id_pattern, RegExp.Plus.
  cbn [RegExp.anchoredStart RegExp.anchoredEnd RegExp.body].
  rewrite matches_Matches. fold id_char. split.
  - intros H. apply Matches_Seq_inv in H. destruct H as (s0 & rest & -> & He & H).
    apply Matches_Eps_inv in He. subst s0. rewrite append_nil_l.
    apply Matches_Seq_inv in H. destruct H as (s1 & s2 & -> & H & He).
    apply Matches_Eps_inv in He. subst s2. rewrite append_nil_r.
    apply Matches_Seq_inv in H. destruct H as (a & s2 & -> & Ha & H).
    apply Matches_Class_inv in Ha. destruct Ha as (c & -> & Hc).
    rewrite append_cons, append_nil_l. split; [discriminate |].
    cbn [list_ascii_of_string]. intros c' [<- | Hin]; [exact Hc |].
    now apply (proj1 (Matches_Star_Class id_char s2)).
  - intros [Hne Hall]. destruct s as [| c s]; [contradiction |].
    rewrite <- (append_nil_l (String c s)). constructor; [constructor |].
    rewrite <- (append_nil_r (String c s)). constructor; [| constructor].
    change (String c s) with (String c EmptyString +:+ s). constructor.
    + constructor. apply Hall. now left.
    + apply Matches_Star_Class. intros c' Hin. apply Hall. now right.
Qed.

(** [/^[A-Z]{2}$/] accepts the strings of two upper-case letters. *)
Lemma countryCode_pattern_letters (s : string) :
  RegExp.test RegExp.countryCode_pattern s = true
  <-> exists a b : ascii,
        s = String a (String b EmptyString)
        /\ Str.is_upper a = true /\ Str.is_upper b = true.
Proof.
  unfold RegExp.test, RegExp.countryCode_pattern.
  cbn [RegExp.anchoredStart RegExp.anchoredEnd RegExp.body RegExp.Times].
  rewrite matches_Matches. split.
  - intros H. apply Matches_Seq_inv in H. destruct H as (s0 & rest & -> & He & H).
    apply Matches_Eps_inv in He. subst s0. rewrite append_nil_l.
    apply Matches_Seq_inv in H. destruct H as (s1 & s2 & -> & H & He).
    apply Matches_Eps_inv in He. subst s2. rewrite append_nil_r.
    apply Matches_Seq_inv in H. destruct H as (a & s2 & -> & Ha & H).
    apply Matches_Seq_inv in H. destruct H as (b & s3 & -> & Hb & He).
    apply Matches_Eps_inv in He. subst s3.
    apply Matches_Class_inv in Ha, Hb.
    destruct Ha as (ca & -> & Ha). destruct Hb as (cb & -> & Hb).
    exists ca, cb. auto.
  - intros (a & b & -> & Ha & Hb).
    rewrite <- (append_nil_l (String a (String b EmptyString))). constructor; [constructor |].
    rewrite <- (append_nil_r (String a (String b EmptyString))). constructor; [| constructor].
    change (String a (String b EmptyString))
      with (String a EmptyString +:+ (String b EmptyString +:+ EmptyString)).
    constructor; [now constructor |]. constructor; [now constructor | constructor].
Qed.

(** X26. A record that [validateDataset] accepts has an [id] of one or
    more characters among [a-z], [0-9] and [-], a [countryCode] of
    exactly two upper-case letters, and a [sampleFileName] for which
    [getAssetPath] returns a path instead of throwing. *)
Theorem valid_record_shape (dataset : JsValue) :
  validateDataset dataset = true ->
  exists (id sampleFileName : string) (a b : ascii),
    Js.get dataset "id" = JString id
    /\ id <> EmptyString
    /\ (forall c, In c (list_ascii_of_string id) -> id_char c = true)
    /\ Js.get dataset "countryCode" = JString (String a (String b EmptyString))
    /\ Str.is_upper a = true /\ Str.is_upper b = true
    /\ Js.get dataset "sampleFileName" = JString sampleFileName
    /\ getAssetPath sampleFileName
       = Normal ("public/assets/samples/" +:+ sampleFileName).
Proof.
  unfold validateDataset. intros Hvalid.
  assert (Hobj : not_an_object dataset = false).
  { unfold validateDatasetDetailed in Hvalid.
    destruct (not_an_object dataset); [discriminate | reflexivity]. }
  apply isValid_errors in Hvalid. rewrite record_errors in Hvalid by assumption.
  unfold fieldValidations in Hvalid. cbn [List.map concat] in Hvalid.
  apply app_eq_nil in Hvalid. destruct Hvalid as [Hfields _].
  apply app_eq_nil in Hfields. destruct Hfields as [Hid Hfields].
  apply app_eq_nil in Hfields. destruct Hfields as [_ Hfields].
  apply app_eq_nil in Hfields. destruct Hfields as [Hcode Hfields].
  apply app_eq_nil in Hfields. destruct Hfields as [_ Hfields].
  apply app_eq_nil in Hfields. destruct Hfields as [Hfile _].
  apply validate_field_rule in Hid, Hcode, Hfile; try reflexivity.
  destruct Hid as (id & Hget_id & _ & _ & Hid).
  destruct Hcode as (cc & Hget_cc & _ & _ & Hcc).
  destruct Hfile as (file & Hget_file & _ & _ & Hfile).
  cbn [v_pattern v_field] in *.
  apply id_pattern_chars in Hid. destruct Hid as [Hne Hchars].
  apply countryCode_pattern_letters in Hcc. destruct Hcc as (a & b & -> & Ha & Hb).
  rewrite csv_pattern_endsWith in Hfile.
  exists id, file, a, b. repeat split; auto.
  unfold getAssetPath.
  destruct (String.eqb_spec file EmptyString) as [-> | _]; [discriminate |].
  rewrite Hfile. cbn [negb]. unfold ASSETS_BASE_PATH.
  rewrite <- append_assoc. reflexivity.
Qed.

Lemma valid_record_shape_witness :
  exists (id sampleFileName : string) (a b : ascii),
    Js.get (record_with "us" "US" (JNumber (Num.of_Z 41683))) "id" = JString id
    /\ id <> EmptyString
    /\ (forall c, In c (list_ascii_of_string id) -> id_char c = true)
    /\ Js.get (record_with "us" "US" (JNumber (Num.of_Z 41683))) "countryCode"
       = JString (String a (String b EmptyString))
    /\ Str.is_upper a = true /\ Str.is_upper b = true
    /\ Js.get (record_with "us" "US" (JNumber (Num.of_Z 41683))) "sampleFileName"
       = JString sampleFileName
    /\ getAssetPath sampleFileName
       = Normal ("public/assets/samples/" +:+ sampleFileName).
Proof.
  apply (valid_record_shape (record_with "us" "US" (JNumber (Num.of_Z 41683)))).
  vm_compute. reflexivity.
Defined.
